(** * Blue Pixel AI chatbot: the message-processing core of [AIService]

    A shallow embedding of [src/services/aiService.js] and the properties
    its specification states about it, followed by the logger
    ([src/utils/logger.js]) and the chat handler of the server, with
    further properties of the code.

    - JavaScript numbers are IEEE 754 binary64 values.  They are modelled
      with the Standard Library's executable specification of binary
      floating point ([SpecFloat], precision 53, [emax] 1024), so that
      every arithmetic step rounds exactly as the engine does.
    - Strings are sequences of characters.  [toLowerCase] is the one of
      ASCII text, on which it only touches 'A'..'Z'; what is proved about
      keywords and letter case is stated for ASCII messages.  The regular
      expression of [extractNumbers] is run by a backtracking matcher.
    - Objects used as maps ([toolResults]) are association lists in
      insertion order, which is the order [Object.entries] enumerates.
    - [async] methods are modelled in a monad that threads a log of the
      observable effects (tool invocations, log lines, completion requests)
      and carries exceptions; a rejected promise is a thrown exception at
      the [await].  The logger throws on a caught value it cannot format,
      also inside a [catch].
    - What the host provides and the source cannot fix ([Math.pow]'s last
      bit, [toLocaleString]'s locale, [JSON.stringify], the completion
      endpoint, the clock) is a section variable.
    - The logger runs in a monad of its own on a world made of a file
      system, the two streams of the console and the clock; the chat
      handler in one that adds, to the events of the service, the events
      emitted on the transport. *)

From Stdlib Require Import ZArith List String Ascii Bool Lia QArith Qabs.
From Stdlib Require Import SpecFloat DecimalString.
Import ListNotations.

Close Scope Q_scope.

(* ================================================================== *)
(** * JavaScript numbers *)
(* ================================================================== *)

Definition prec : Z := 53.
Definition emax : Z := 1024.

(** The Number type: binary64. *)
Definition num : Type := spec_float.

Definition NaN : num := S754_nan.
Definition Infinity : num := S754_infinity false.
Definition pos_zero : num := S754_zero false.

Definition Nadd : num -> num -> num := SFadd prec emax.
Definition Nsub : num -> num -> num := SFsub prec emax.
Definition Nmul : num -> num -> num := SFmul prec emax.
Definition Ndiv : num -> num -> num := SFdiv prec emax.
Definition Nlt : num -> num -> bool := SFltb.
Definition Nle : num -> num -> bool := SFleb.
Definition Ngt (x y : num) : bool := SFltb y x.
Definition Nge (x y : num) : bool := SFleb y x.

(** The Number value of an integer (exact below 2^53, rounded to nearest
    even above). *)
Definition of_Z (z : Z) : num := binary_normalize prec emax z 0 false.

(** [10 ^ k]. *)
Definition pow10 (k : nat) : positive := Nat.iter k (Pos.mul 10) 1%positive.

(** The Number value of the non-negative rational [n / d]: the quotient
    of the two integers, taken exactly with a sticky remainder and rounded
    once, to nearest, ties to even. *)
Definition of_ratio (n : N) (d : positive) : num :=
  match n with
  | N0 => pos_zero
  | Npos p => SFdiv prec emax (S754_finite false p 0) (S754_finite false d 0)
  end.

(** Numeric literals of the source ([7.2], [0.5], [100], ...) denote the
    Number value of their mathematical value; a minus sign in front negates
    it. *)
Definition num_of_decimal (d : Decimal.decimal) : option num :=
  match d with
  | Decimal.Decimal (Decimal.Pos i) f =>
      Some (of_ratio (N.of_uint (Decimal.app i f)) (pow10 (Decimal.nb_digits f)))
  | Decimal.Decimal (Decimal.Neg i) f =>
      Some (SFopp (of_ratio (N.of_uint (Decimal.app i f)) (pow10 (Decimal.nb_digits f))))
  | _ => None
  end.

Definition num_of_number (n : Number.number) : option num :=
  match n with
  | Number.Decimal d => num_of_decimal d
  | Number.Hexadecimal _ => None
  end.

Definition num_to_number (x : num) : option Number.number := None.

Declare Scope num_scope.
Delimit Scope num_scope with num.
Bind Scope num_scope with num.
Number Notation spec_float num_of_number num_to_number : num_scope.
Infix "+" := Nadd : num_scope.
Infix "-" := Nsub : num_scope.
Infix "*" := Nmul : num_scope.
Infix "/" := Ndiv : num_scope.
Infix "<?" := Nlt : num_scope.
Infix "<=?" := Nle : num_scope.
Infix ">?" := Ngt : num_scope.
Infix ">=?" := Nge : num_scope.

(** ToBoolean on a Number: [+0], [-0] and [NaN] are falsy. *)
Definition truthy (x : num) : bool :=
  match x with
  | S754_zero _ | S754_nan => false
  | _ => true
  end.

(** [a || b] on Numbers. *)
Definition num_or (a b : num) : num := if truthy a then a else b.

(** [Math.round]: the integral Number closest to [x], ties towards
    [+Infinity]; non-finite values and zeros are returned as they are, and
    a result of zero keeps the sign of [x]. *)
Definition Math_round (x : num) : num :=
  match x with
  | S754_finite s m e =>
      match e with
      | Zneg p =>
          let v := if s then Zneg m else Zpos m in
          let k := ((2 * v + 2 ^ Zpos p) / 2 ^ (Zpos p + 1))%Z in
          if Z.eqb k 0 then S754_zero s else of_Z k
      | _ => x
      end
  | _ => x
  end.

(** [Math.round(x * 100) / 100], the source's rounding to cents. *)
Definition round2 (x : num) : num := (Math_round (x * 100) / 100)%num.

(** The exact value of a finite Number, as a rational. *)
Definition Qval (x : num) : Q :=
  match x with
  | S754_finite s m e =>
      let v := if s then Zneg m else Zpos m in
      match e with
      | Zneg p => Qmake v (Pos.pow 2 p)
      | _ => inject_Z (v * 2 ^ e)%Z
      end
  | _ => 0%Q
  end.

(* ================================================================== *)
(** * Strings *)
(* ================================================================== *)

Open Scope string_scope.

Definition isUpper (c : ascii) : bool :=
  (65 <=? nat_of_ascii c)%nat && (nat_of_ascii c <=? 90)%nat.

Definition lowerChar (c : ascii) : ascii :=
  if isUpper c then ascii_of_nat (nat_of_ascii c + 32) else c.

(** [String.prototype.toLowerCase] (on ASCII text). *)
Fixpoint toLowerCase (s : string) : string :=
  match s with
  | EmptyString => EmptyString
  | String c s' => String (lowerChar c) (toLowerCase s')
  end.

(** [text.includes(keyword)]: [keyword] occurs in [text] as a substring. *)
Fixpoint includes (text keyword : string) : bool :=
  prefix keyword text ||
  match text with
  | EmptyString => false
  | String _ text' => includes text' keyword
  end.

(** [containsAny(text, keywords)]:
    [keywords.some(keyword => text.includes(keyword))]. *)
Definition containsAny (text : string) (keywords : list string) : bool :=
  existsb (fun keyword => includes text keyword) keywords.

(** [\d]. *)
Definition isDigit (c : ascii) : bool :=
  (48 <=? nat_of_ascii c)%nat && (nat_of_ascii c <=? 57)%nat.

(** The longest prefix of digits, and what follows it. *)
Fixpoint spanDigits (s : string) : string * string :=
  match s with
  | String c s' =>
      if isDigit c then let (ds, r) := spanDigits s' in (String c ds, r)
      else (EmptyString, s)
  | EmptyString => (EmptyString, EmptyString)
  end.

(** ** Regular expressions

    The fragment of the regular expressions of the language that the
    source uses, with the backtracking matcher of its semantics: a matcher
    takes the text and a continuation, tries its alternatives in order of
    priority (a greedy quantifier tries one more iteration before it tries
    to go on), and the first alternative on which the continuation succeeds
    is the result. *)
Inductive regex :=
| RChar (p : ascii -> bool)
| RSeq (r1 r2 : regex)
| RStar (r : regex)
| ROpt (r : regex).

Definition Matcher : Type := string -> (string -> option string) -> option string.

(** A greedy [r*]: at most [n] iterations of [body], each of which has to
    consume something; [n] is the length of the text, which no number of
    such iterations exceeds. *)
Fixpoint starLoop (body : Matcher) (k : string -> option string) (n : nat) (s : string)
  : option string :=
  match n with
  | O => k s
  | S n' =>
      match body s (fun s1 =>
                      if (String.length s1 <? String.length s)%nat
                      then starLoop body k n' s1 else None) with
      | Some rest => Some rest
      | None => k s
      end
  end.

Fixpoint rmatch (r : regex) : Matcher :=
  fun s k =>
    match r with
    | RChar p =>
        match s with
        | String c s' => if p c then k s' else None
        | EmptyString => None
        end
    | RSeq r1 r2 => rmatch r1 s (fun s1 => rmatch r2 s1 k)
    | ROpt r1 =>
        match rmatch r1 s k with
        | Some rest => Some rest
        | None => k s
        end
    | RStar r1 => starLoop (rmatch r1) k (String.length s) s
    end.

(** [r+]. *)
Definition RPlus (r : regex) : regex := RSeq r (RStar r).

(** A match of [r] anchored at the start of [s]: the matched text and
    what follows it. *)
Definition regexExec (r : regex) (s : string) : option (string * string) :=
  match rmatch r s (fun rest => Some rest) with
  | Some rest => Some (substring 0 (String.length s - String.length rest) s, rest)
  | None => None
  end.

(** [/\d+(?:,\d{3})*(?:\.\d+)?/]. *)
Definition numberPattern : regex :=
  RSeq (RPlus (RChar isDigit))
    (RSeq (RStar (RSeq (RChar (fun c => Ascii.eqb c ","))
                    (RSeq (RChar isDigit) (RSeq (RChar isDigit) (RChar isDigit)))))
       (ROpt (RSeq (RChar (fun c => Ascii.eqb c ".")) (RPlus (RChar isDigit))))).

(** All matches of a global regular expression, left to right: after a
    match the search resumes right behind it, and where there is none it
    moves one character on.  [fuel] bounds the number of steps; the length
    of the text is enough. *)
Fixpoint matchAllFrom (fuel : nat) (s : string) : list string :=
  match fuel with
  | O => []
  | S fuel' =>
      match regexExec numberPattern s with
      | Some (tok, rest) => tok :: matchAllFrom fuel' rest
      | None =>
          match s with
          | EmptyString => []
          | String _ s' => matchAllFrom fuel' s'
          end
      end
  end.

(** [message.match(/\d+(?:,\d{3})*(?:\.\d+)?/g)]: the matches, or [null]
    when there is none. *)
Definition matchNumbers (message : string) : option (list string) :=
  match matchAllFrom (String.length message) message with
  | [] => None
  | toks => Some toks
  end.

(** [num.replace(/,/g, '')]. *)
Fixpoint removeCommas (s : string) : string :=
  match s with
  | EmptyString => EmptyString
  | String c s' => if Ascii.eqb c "," then removeCommas s' else String c (removeCommas s')
  end.

Definition digitValue (c : ascii) : N := N.of_nat (nat_of_ascii c - 48).

(** The natural number a string of digits denotes, after [acc]. *)
Fixpoint digitsValue (acc : N) (s : string) : N :=
  match s with
  | EmptyString => acc
  | String c s' => digitsValue (10 * acc + digitValue c)%N s'
  end.

(** [parseFloat] on the unsigned decimal literals the extractor hands to
    it: the longest prefix of the form digits, optionally a dot and more
    digits, read as a decimal number and rounded to the nearest Number;
    [NaN] when the text does not start with such a literal.  (Signs,
    exponents and leading white space, which [parseFloat] also accepts,
    cannot occur in a match of the pattern above.) *)
Definition parseFloat (s : string) : num :=
  let (ip, r) := spanDigits s in
  let fp := match r with
            | String x r' => if Ascii.eqb x "." then fst (spanDigits r') else EmptyString
            | EmptyString => EmptyString
            end in
  match ip ++ fp with
  | EmptyString => NaN
  | ds => of_ratio (digitsValue 0 ds) (pow10 (String.length fp))
  end.

(** [extractNumbers(message)]. *)
Definition extractNumbers (message : string) : list num :=
  match matchNumbers message with
  | Some numbers => map (fun num => parseFloat (removeCommas num)) numbers
  | None => []
  end.

(** [numbers[i]] for an index the caller has checked to be in range. *)
Definition idx (numbers : list num) (i : nat) : num := nth i numbers NaN.

(** The line feed of the source's ["\n"]. *)
Definition nl : string := String (ascii_of_nat 10) EmptyString.

(* ================================================================== *)
(** * Result records of the tools *)
(* ================================================================== *)

Record SearchHit := {
  hit_title : string;
  hit_snippet : string;
  hit_link : string;
  hit_price : num;
  hit_bedrooms : option num;
  hit_bathrooms : option num;
  hit_roiEstimate : option num
}.

Record SearchResults := {
  results : list SearchHit;
  totalResults : num
}.

Record MarketData := {
  pricePerSqft : num;
  neighborhoodAvg : num;
  appreciationRate : num
}.

Record PropertyDetails := {
  pd_propertyId : string;
  pd_address : string;
  pd_price : num;
  pd_bedrooms : num;
  pd_bathrooms : num;
  pd_squareFeet : num;
  pd_propertyType : string;
  pd_description : string;
  pd_roiEstimate : num;
  pd_marketData : MarketData
}.

Record InterestRates := {
  location : string;
  currentRate : num;
  rateTrend : string;
  lastUpdated : string;
  rateHistory : list (string * num)
}.

Record MortgageQuote := {
  propertyPrice : num;
  downPayment : num;
  loanAmount : num;
  interestRate : num;
  loanTermYears : num;
  monthlyPayment : num;
  totalCost : num;
  totalInterest : num
}.

Record AdvancedDetails := {
  downPaymentPercent : num;
  monthlyPmi : num;
  monthlyPropertyTax : num;
  monthlyInsurance : num;
  totalMonthlyPayment : num
}.

Record ServicedProperty := {
  sp_propertyId : string;
  sp_address : string;
  sp_price : num;
  sp_bedrooms : num;
  sp_bathrooms : num;
  sp_propertyType : string;
  sp_roiEstimate : num
}.

Record Relevance := {
  isValid : bool;
  relevanceScore : num;
  filteredContent : option string
}.

(** What a tool resolves to: one constructor for each shape of object the
    tools build.  [RMortgageAdvanced q a] is [{...q, advancedDetails: a}]. *)
Inductive ToolResult :=
| RError (error : string)
| RRelevance (r : Relevance)
| RSearch (r : SearchResults)
| RHistory (history : list string) (messageCount : num)
| RDetails (d : PropertyDetails)
| RRates (r : InterestRates)
| RMortgage (q : MortgageQuote)
| RMortgageAdvanced (q : MortgageQuote) (a : AdvancedDetails)
| RSaved (savedProperties : list string) (totalCount : num)
| RServiced (properties : list ServicedProperty) (totalCount : num)
| RRoi (initialInvestment annualReturn roiPercentage : num)
| RCapRate (annualIncome propertyValue capRatePercentage : num).

(** [result.error], [undefined] where the object has no such property. *)
Definition get_error (r : ToolResult) : option string :=
  match r with
  | RError e => Some e
  | _ => None
  end.

(** ToBoolean of [result.error]: a non-empty string. *)
Definition has_error (r : ToolResult) : bool :=
  match get_error r with
  | Some EmptyString | None => false
  | Some _ => true
  end.

(** The mortgage fields of a result, where it has them. *)
Definition get_quote (r : ToolResult) : option MortgageQuote :=
  match r with
  | RMortgage q | RMortgageAdvanced q _ => Some q
  | _ => None
  end.

Definition get_totalResults (r : ToolResult) : option num :=
  match r with
  | RSearch s => Some (totalResults s)
  | _ => None
  end.

Definition get_currentRate (r : ToolResult) : option num :=
  match r with
  | RRates s => Some (currentRate s)
  | _ => None
  end.

(** [toolResults]: property names with their values, in insertion order. *)
Definition ToolResults : Type := list (string * ToolResult).

(** [toolResults[name]]. *)
Fixpoint lookup (name : string) (o : ToolResults) : option ToolResult :=
  match o with
  | [] => None
  | (k, v) :: o' => if String.eqb k name then Some v else lookup name o'
  end.

(** [toolResults[name] = v]: an existing property keeps its place, a new
    one goes last. *)
Fixpoint assign (name : string) (v : ToolResult) (o : ToolResults) : ToolResults :=
  match o with
  | [] => [(name, v)]
  | (k, w) :: o' =>
      if String.eqb k name then (k, v) :: o' else (k, w) :: assign name v o'
  end.

(** The projection [extractPropertyData] returns. *)
Record PropertyData := {
  searchResults : option ToolResult;
  propertyDetails : option ToolResult;
  mortgageCalculation : option ToolResult
}.

(** The record [processMessage] resolves to. *)
Record ChatResponse := {
  response : option string;
  sessionId : string;
  timestamp : string;
  toolsUsed : list string;
  propertyData : option PropertyData;
  executionTime : num
}.

(** The argument of [processMessage].  The message arrives from the
    transport and is whatever the client sent: a string, or something
    else. *)
Inductive MessageValue :=
| MsgString (text : string)
| MsgNullish
| MsgOther.

Record Request := {
  req_message : MessageValue;
  req_sessionId : string;
  req_userId : string
}.

Record Context := {
  ctx_userId : string;
  ctx_sessionId : string
}.

(** One entry of the [messages] array of a completion request. *)
Record ChatMessage := {
  role : string;
  content : string
}.

(* ================================================================== *)
(** * Effects *)
(* ================================================================== *)

(** A thrown value: a [TypeError] of the language with its message; any
    other value the logger can format, as an [Error] with its message is;
    [null]; or an object with an enumerable property that [JSON.stringify]
    rejects with a [TypeError] (a cycle, a BigInt). *)
Inductive exn :=
| TypeError (what : string)
| Thrown (what : string)
| ThrownNull
| ThrownUnserialisable (what : string).

(** What the service does to the outside while it handles a message. *)
Inductive event :=
| Logged (level : string) (text : string)
| ToolInvoked (toolName : string)
| CompletionRequested (messages : list ChatMessage).

(** A computation runs from a clock position (the number of times the
    clock has been read so far), throws or returns, and leaves the events
    it caused and the new clock position. *)
Definition M (A : Type) : Type := nat -> (exn + A) * list event * nat.

Definition ret {A} (a : A) : M A := fun t => (inr a, [], t).

Definition throw {A} (e : exn) : M A := fun t => (inl e, [], t).

Definition bind {A B} (m : M A) (k : A -> M B) : M B :=
  fun t =>
    match m t with
    | (inl e, evs, t') => (inl e, evs, t')
    | (inr a, evs, t') =>
        match k a t' with
        | (r, evs', t'') => (r, (evs ++ evs')%list, t'')
        end
    end.

(** [try { m } catch (error) { h error }]. *)
Definition try_catch {A} (m : M A) (h : exn -> M A) : M A :=
  fun t =>
    match m t with
    | (inl e, evs, t') =>
        match h e t' with
        | (r, evs', t'') => (r, (evs ++ evs')%list, t'')
        end
    | (inr a, evs, t') => (inr a, evs, t')
    end.

Definition emit (e : event) : M unit := fun t => (inr tt, [e], t).

Notation "x <- m ;; k" := (bind m (fun x => k))
  (at level 61, m at next level, right associativity).
Notation "m ;;; k" := (bind m (fun _ => k))
  (at level 61, right associativity).

(** What the logger throws when a caught value is handed to it as [meta]:
    [formatMessage] evaluates [Object.keys(meta)] and, if there is a key,
    [JSON.stringify(meta)] before any [try].  An error has no enumerable
    property and is printed. *)
Definition logger_raises (caught : exn) : option exn :=
  match caught with
  | ThrownNull => Some (TypeError "Cannot convert undefined or null to object")
  | ThrownUnserialisable what => Some (TypeError what)
  | TypeError _ | Thrown _ => None
  end.

(** The logger prints the value. *)
Definition loggable (caught : exn) : bool :=
  match logger_raises caught with
  | Some _ => false
  | None => true
  end.

(** [logger.info(text, { ... })], the meta object being a literal of
    strings and numbers: a line on the console and in the log files; a
    failure to write is swallowed by the logger itself. *)
Definition logger_info (text : string) : M unit := emit (Logged "info" text).

(** [logger.error(text, caught)]: the line, unless the caught value cannot
    be formatted; then the call throws and nothing is printed. *)
Definition logger_error (text : string) (caught : exn) : M unit :=
  match logger_raises caught with
  | Some raised => throw raised
  | None => emit (Logged "error" text)
  end.

(** A tool is an [async] function of the message and the context: it may
    read the clock, and it resolves or rejects. *)
Definition Tool : Type := string -> Context -> nat -> (exn + ToolResult) * nat.

(** [await tool(message, context)], the invocation being an observable
    event. *)
Definition invoke (toolName : string) (tool : Tool) (message : string) (ctx : Context)
  : M ToolResult :=
  fun t => let (r, t') := tool message ctx t in (r, [ToolInvoked toolName], t').

(** A tool that neither reads the clock nor rejects. *)
Definition pureTool (f : string -> ToolResult) : Tool :=
  fun message _ t => (inr (f message), t).

(* ================================================================== *)
(** * Vocabulary of the specification *)
(* ================================================================== *)

(** A Number that is neither negative nor [NaN]. *)
Definition nonneg (x : num) : bool :=
  match x with
  | S754_zero false | S754_finite false _ _ | S754_infinity false => true
  | _ => false
  end.

(** The text is ASCII: every character is below 128. *)
Fixpoint asciiText (s : string) : bool :=
  match s with
  | EmptyString => true
  | String c s' => (nat_of_ascii c <? 128)%nat && asciiText s'
  end.

(** A value thrown by a tool of the registry is one the logger prints. *)
Definition rejectsPrintably (tool : Tool) : Prop :=
  forall message ctx t error t1,
    tool message ctx t = (inl error, t1) -> loggable error = true.

(** [keyword] occurs in [text]. *)
Definition occurs (keyword text : string) : Prop :=
  exists pre post, text = pre ++ keyword ++ post.

Fixpoint allDigits (s : string) : bool :=
  match s with
  | EmptyString => true
  | String c s' => isDigit c && allDigits s'
  end.

Fixpoint noDigit (s : string) : bool :=
  match s with
  | EmptyString => true
  | String c s' => negb (isDigit c) && noDigit s'
  end.

(** The grammar of a number in the text, in the words of the
    specification: digits, then groups of a comma and three digits, then
    possibly a dot and more digits. *)
Inductive groupSeq : string -> Prop :=
| groups_nil : groupSeq ""
| groups_cons a b c gs :
    isDigit a = true -> isDigit b = true -> isDigit c = true -> groupSeq gs ->
    groupSeq (String "," (String a (String b (String c gs)))).

Inductive fraction : string -> Prop :=
| fraction_none : fraction ""
| fraction_some d ds :
    isDigit d = true -> allDigits ds = true -> fraction (String "." (String d ds)).

Inductive numeral : string -> Prop :=
| numeral_intro d ds gs fr :
    isDigit d = true -> allDigits ds = true -> groupSeq gs -> fraction fr ->
    numeral (String d ds ++ gs ++ fr).

(** [toks] are the numbers of [text] in reading order: between them and
    around them there is no digit, and none of them could have been read
    any longer. *)
Inductive tokenization : string -> list string -> Prop :=
| tokens_done gap :
    noDigit gap = true -> tokenization gap []
| tokens_next gap tok rest toks :
    noDigit gap = true ->
    numeral tok ->
    (forall tok' post, numeral tok' -> tok ++ rest = tok' ++ post ->
                       (String.length tok' <= String.length tok)%nat) ->
    tokenization rest toks ->
    tokenization (gap ++ tok ++ rest) (tok :: toks).

(** The decimal number a token denotes, in the words of the
    specification: its digits read as one number, commas aside, the
    digits behind the dot being decimals; as a Number, that is the nearest
    one. *)
Fixpoint keepDigits (s : string) : string :=
  match s with
  | EmptyString => EmptyString
  | String c s' => if isDigit c then String c (keepDigits s') else keepDigits s'
  end.

Fixpoint afterDot (s : string) : string :=
  match s with
  | EmptyString => EmptyString
  | String c s' => if Ascii.eqb c "." then s' else afterDot s'
  end.

Definition decimalNumber (tok : string) : num :=
  of_ratio (digitsValue 0 (keepDigits tok)) (pow10 (String.length (afterDot tok))).

(** A continuation that succeeds wherever the match ends. *)
Definition total (k : string -> option string) : Prop :=
  forall x, exists y, k x = Some y.

(** ** A scanner for the number pattern, to reason with *)

(** A greedy [(?:,\d{3})*]: as many groups of a comma and exactly three
    digits as follow each other. *)
Fixpoint spanGroups (s : string) : string * string :=
  match s with
  | String x (String a (String b (String c s'))) =>
      if Ascii.eqb x "," && isDigit a && isDigit b && isDigit c
      then let (gs, r) := spanGroups s' in
           (String x (String a (String b (String c gs))), r)
      else (EmptyString, s)
  | _ => (EmptyString, s)
  end.

(** A greedy [(?:\.\d+)?]. *)
Definition spanFraction (s : string) : string * string :=
  match s with
  | String x (String d s') =>
      if Ascii.eqb x "." && isDigit d
      then let (ds, r) := spanDigits s' in (String x (String d ds), r)
      else (EmptyString, s)
  | _ => (EmptyString, s)
  end.

(** What the pattern matches at the start of [s], read off directly:
    every quantifier is greedy and everything after [\d+] may match the
    empty string, so the first alternative the backtracking matcher tries
    succeeds: the whole run of digits, then every group, then the fraction
    if there is one. *)
Definition scanNumberAt (s : string) : option (string * string) :=
  match spanDigits s with
  | (EmptyString, _) => None
  | (ds, r1) =>
      let (gs, r2) := spanGroups r1 in
      let (fr, r3) := spanFraction r2 in
      Some (ds ++ gs ++ fr, r3)
  end.

(** All the matches, by that scanner. *)
Fixpoint scanAllFrom (fuel : nat) (s : string) : list string :=
  match fuel with
  | O => []
  | S fuel' =>
      match scanNumberAt s with
      | Some (tok, rest) => tok :: scanAllFrom fuel' rest
      | None =>
          match s with
          | EmptyString => []
          | String _ s' => scanAllFrom fuel' s'
          end
      end
  end.

Definition scanAll (s : string) : list string := scanAllFrom (String.length s) s.

(* ================================================================== *)
(** * Hosts *)
(* ================================================================== *)

(** [x ^ n] on integers, by squaring. *)
Fixpoint Zpow_pos (x : Z) (n : positive) : Z :=
  match n with
  | xH => x
  | xO p => Z.square (Zpow_pos x p)
  | xI p => (x * Z.square (Zpow_pos x p))%Z
  end.

(** The power [x ^ n] of a Number, computed exactly and rounded once, to
    nearest: the best a [Math.pow] can return. *)
Definition pow_nearest (x : num) (n : positive) : num :=
  match x with
  | S754_finite s m e =>
      binary_normalize prec emax
        (Zpow_pos (if s then Zneg m else Zpos m) n) (e * Zpos n) false
  | S754_zero s => S754_zero (s && Z.odd (Zpos n))
  | S754_infinity s => S754_infinity (s && Z.odd (Zpos n))
  | S754_nan => S754_nan
  end.

(** The positive integer a Number is, if it is one. *)
Definition asPositive (y : num) : option positive :=
  match y with
  | S754_finite false m (Zpos p) => Some (Pos.shiftl m (Npos p))
  | S754_finite false m Z0 => Some m
  | S754_finite false m (Zneg p) =>
      if (Zpos m mod 2 ^ Zpos p =? 0)%Z
      then Some (Z.to_pos (Zpos m / 2 ^ Zpos p)) else None
  | _ => None
  end.

(** A [Math.pow] that is correctly rounded at positive integral exponents,
    the only ones the service passes to it ([NaN] stands for the rest). *)
Definition Math_pow_nearest (x y : num) : num :=
  match asPositive y with
  | Some n => pow_nearest x n
  | None => NaN
  end.

(** [a] is [b] or one of its two neighbours among the Numbers: what an
    implementation with an error below one unit in the last place returns
    where [b] is the correctly rounded result. *)
Definition near (a b : num) : Prop :=
  a = b \/ a = SFsucc prec emax b \/ a = SFpred prec emax b.

(** The integer part of the magnitude of a finite Number. *)
Definition magnitude (x : num) : N :=
  match x with
  | S754_finite _ m (Zneg p) => Z.to_N (Zpos m / 2 ^ Zpos p)
  | S754_finite _ m e => Z.to_N (Zpos m * 2 ^ e)
  | _ => 0%N
  end.

(** A plain rendering of a Number to two decimals, for hosts without
    locale conventions. *)
Definition toFixed2 (x : num) : string :=
  match Math_round (x * 100)%num with
  | S754_finite s m e =>
      let cents := magnitude (S754_finite s m e) in
      let units := NilEmpty.string_of_uint (N.to_uint (cents / 100)) in
      let d1 := NilEmpty.string_of_uint (N.to_uint (cents mod 100 / 10)) in
      let d2 := NilEmpty.string_of_uint (N.to_uint (cents mod 10)) in
      (if s then "-" else "") ++ units ++ "." ++ d1 ++ d2
  | S754_zero _ => "0.00"
  | S754_infinity s => (if s then "-" else "") ++ "Infinity"
  | S754_nan => "NaN"
  end.

(** An endpoint that is down, and one that answers. *)
Definition endpointDown (messages : list ChatMessage) : exn + string :=
  inl (Thrown "503 Service Unavailable").

Definition endpointUp (messages : list ChatMessage) : exn + string :=
  inr "Happy to help.".

(** A clock that advances one millisecond at each reading. *)
Definition sampleDateNow (t : nat) : num := of_Z (1700000000000 + Z.of_nat t).

Definition sampleISOString (t : nat) : string := "2024-03-01T00:00:00.000Z".

(** A serializer that prints the kind of record only. *)
Definition sampleStringify (r : ToolResult) : string :=
  match r with
  | RError _ => "{error}"
  | _ => "{...}"
  end.

(** A string of [n] zeros. *)
Fixpoint zeros (n : nat) : string :=
  match n with
  | O => EmptyString
  | S k => String "0" (zeros k)
  end.

(** A message whose third number is 1e-323: positive, and so small that a
    hundredth of it is no longer a Number other than zero. *)
Definition underflowMessage : string :=
  "mortgage for 720 with 360 down at 0." ++ zeros 322 ++ "1 percent".

(** A tool that always rejects, and a registry that has it in the place of
    the mortgage calculator. *)
Definition failingTool : Tool :=
  fun _ _ t => (inl (Thrown "connection reset"), t).

Definition brokenRegistry : list (string * Tool) :=
  [ ("calculateMortgage", failingTool);
    ("getInterestRates", pureTool (fun _ => RSaved [] 0)) ].



(** An endpoint whose call rejects with [null]. *)
Definition endpointNull (messages : list ChatMessage) : exn + string :=
  inl ThrownNull.

(** The digits of a natural number in groups of three, with commas. *)
Fixpoint groupDigits (digits : string) : string :=
  match digits with
  | EmptyString => EmptyString
  | String c rest =>
      if ((0 <? String.length rest) && (String.length rest mod 3 =? 0))%nat
      then String c (String "," (groupDigits rest))
      else String c (groupDigits rest)
  end.

(** The decimals of a number of thousandths, without the zeros at the
    end. *)
Definition decimalsOf (thousandths : N) : string :=
  let d1 := NilEmpty.string_of_uint (N.to_uint (thousandths / 100)) in
  let d2 := NilEmpty.string_of_uint (N.to_uint (thousandths mod 100 / 10)) in
  let d3 := NilEmpty.string_of_uint (N.to_uint (thousandths mod 10)) in
  if (thousandths =? 0)%N then ""
  else if (thousandths mod 100 =? 0)%N then "." ++ d1
  else if (thousandths mod 10 =? 0)%N then "." ++ d1 ++ d2
  else "." ++ d1 ++ d2 ++ d3.

(** A rendering of a Number by the conventions of the locale en-US, as
    [toLocaleString] has them by default: at most three decimals, the
    integer part in groups of three. *)
Definition toLocaleString_enUS (x : num) : string :=
  match Math_round (x * 1000)%num with
  | S754_finite s m e =>
      let thousandths := magnitude (S754_finite s m e) in
      (if s then "-" else "")
      ++ groupDigits (NilEmpty.string_of_uint (N.to_uint (thousandths / 1000)))
      ++ decimalsOf (thousandths mod 1000)
  | S754_zero s => if s then "-0" else "0"
  | S754_infinity s => (if s then "-" else "") ++ "Infinity"
  | S754_nan => "NaN"
  end.

(** The quote for 450000 with 90000 down at 7.2 percent. *)
Definition sampleQuote : MortgageQuote :=
  {| propertyPrice := 450000;
     downPayment := 90000;
     loanAmount := 360000;
     interestRate := 7.2;
     loanTermYears := 30;
     monthlyPayment := 2443.64;
     totalCost := 879709.52;
     totalInterest := 519709.52 |}.

(* ================================================================== *)
(** * The service *)
(* ================================================================== *)

Section Service.

(** ** What the host provides *)

(** [Math.pow], which the language leaves to the implementation to
    approximate. *)
Variable Math_pow : num -> num -> num.

(** [Number.prototype.toLocaleString] in the host's locale. *)
Variable toLocaleString : num -> string.

(** A Number interpolated in a template literal. *)
Variable Number_toString : num -> string.

(** [JSON.stringify(result, null, 2)]. *)
Variable JSON_stringify : ToolResult -> string.

(** The completion endpoint: for a request it yields the text of the
    first choice, or the call (or the access to its result) throws. *)
Variable openai_complete : list ChatMessage -> exn + string.

(** The clock: what [Date.now()] and [new Date().toISOString()] yield
    at each position. *)
Variable Date_now : nat -> num.
Variable Date_toISOString : nat -> string.

Definition now : M num := fun t => (inr (Date_now t), [], S t).
Definition isoNow : M string := fun t => (inr (Date_toISOString t), [], S t).

Definition request_completion (messages : list ChatMessage) : M string :=
  fun t => (openai_complete messages, [CompletionRequested messages], t).

(** ** Relevance gate *)

Definition propertyKeywords : list string :=
  [ "property"; "house"; "home"; "apartment"; "condo"; "real estate";
    "buy"; "sell"; "rent"; "mortgage"; "loan"; "investment"; "roi";
    "bedroom"; "bathroom"; "square feet"; "price"; "location";
    "neighborhood"; "market"; "listing"; "agent"; "broker" ].

Definition redirectText : string :=
  "I'm here to help with property investment and real estate questions. How can I assist you with property details, market analysis, or investment calculations?".

Definition validatePromptRelevance (message : string) : Relevance :=
  let messageLower := toLowerCase message in
  let relevantKeywords :=
    List.length (filter (fun keyword => includes messageLower keyword) propertyKeywords) in
  let isValid := (0 <? relevantKeywords)%nat in
  {| isValid := isValid;
     relevanceScore :=
       (of_Z (Z.of_nat relevantKeywords) / of_Z (Z.of_nat (List.length propertyKeywords)))%num;
     filteredContent := if isValid then None else Some redirectText |}.

(** ** Tools *)

Definition searchPropertyInfo (message : string) : ToolResult :=
  RSearch
    {| results :=
         [ {| hit_title := "3BR/2BA Downtown House";
              hit_snippet := "Beautiful 3-bedroom house in prime downtown location, $450,000";
              hit_link := "https://example.com/property/123";
              hit_price := 450000;
              hit_bedrooms := Some 3%num;
              hit_bathrooms := Some 2%num;
              hit_roiEstimate := None |};
           {| hit_title := "Investment Property - High ROI";
              hit_snippet := "Rental property with 8.5% ROI potential, $320,000";
              hit_link := "https://example.com/property/124";
              hit_price := 320000;
              hit_bedrooms := None;
              hit_bathrooms := None;
              hit_roiEstimate := Some 8.5%num |} ];
       totalResults := 2 |}.

Definition getUserChatHistory (message : string) : ToolResult :=
  RHistory [] 0.

Definition getPropertyDetails (message : string) : ToolResult :=
  RDetails
    {| pd_propertyId := "prop_001";
       pd_address := "123 Main St, Downtown";
       pd_price := 450000;
       pd_bedrooms := 3;
       pd_bathrooms := 2;
       pd_squareFeet := 1800;
       pd_propertyType := "Single Family Home";
       pd_description := "Beautiful home in prime location";
       pd_roiEstimate := 8.5;
       pd_marketData :=
         {| pricePerSqft := 250; neighborhoodAvg := 425000; appreciationRate := 3.2 |} |}.

Definition commonLocations : list string :=
  [ "downtown"; "midtown"; "uptown"; "suburbs"; "california"; "texas";
    "florida"; "new york"; "chicago"; "los angeles"; "miami" ].

Definition upperChar (c : ascii) : ascii :=
  if (97 <=? nat_of_ascii c)%nat && (nat_of_ascii c <=? 122)%nat
  then ascii_of_nat (nat_of_ascii c - 32) else c.

(** [location.charAt(0).toUpperCase() + location.slice(1)]. *)
Definition capitalize (s : string) : string :=
  match s with
  | EmptyString => EmptyString
  | String c s' => String (upperChar c) s'
  end.

Definition extractLocation (message : string) : option string :=
  let messageLower := toLowerCase message in
  option_map capitalize
    (find (fun location => includes messageLower location) commonLocations).

Definition getInterestRates : Tool :=
  fun message _ t =>
    let location := match extractLocation message with
                    | Some l => l
                    | None => "United States"
                    end in
    (inr (RRates
            {| location := location;
               currentRate := 7.2;
               rateTrend := "stable";
               lastUpdated := Date_toISOString t;
               rateHistory :=
                 [ ("2024-01-01", 6.8%num); ("2024-02-01", 7.0%num);
                   ("2024-03-01", 7.2%num) ] |}),
     S t).

(** [interestRate / 100 / 12]. *)
Definition monthlyRateOf (interestRate : num) : num := (interestRate / 100 / 12)%num.

Definition calculateMortgage (message : string) : ToolResult :=
  let numbers := extractNumbers message in
  if (List.length numbers <? 2)%nat then
    RError "Please provide property price and down payment for mortgage calculation"
  else
    let propertyPrice := idx numbers 0 in
    let downPayment := idx numbers 1 in
    let interestRate :=
      match nth_error numbers 2 with
      | Some third => num_or third 7.2
      | None => 7.2%num
      end in
    let loanTermYears := 30%num in
    let loanAmount := (propertyPrice - downPayment)%num in
    let monthlyRate := monthlyRateOf interestRate in
    let numPayments := (loanTermYears * 12)%num in
    let monthlyPayment :=
      if (monthlyRate >? 0)%num
      then (loanAmount * (monthlyRate * Math_pow (1 + monthlyRate) numPayments)
            / (Math_pow (1 + monthlyRate) numPayments - 1))%num
      else (loanAmount / numPayments)%num in
    RMortgage
      {| propertyPrice := propertyPrice;
         downPayment := downPayment;
         loanAmount := loanAmount;
         interestRate := interestRate;
         loanTermYears := loanTermYears;
         monthlyPayment := (Math_round (monthlyPayment * 100) / 100)%num;
         totalCost := (Math_round (monthlyPayment * numPayments * 100) / 100)%num;
         totalInterest :=
           (Math_round ((monthlyPayment * numPayments - loanAmount) * 100) / 100)%num |}.

Definition getUserSavedProperties (message : string) : ToolResult :=
  RSaved [] 0.

Definition getServicedProperties (message : string) : ToolResult :=
  RServiced
    [ {| sp_propertyId := "prop_001";
         sp_address := "123 Oak Street, Downtown";
         sp_price := 450000;
         sp_bedrooms := 3;
         sp_bathrooms := 2;
         sp_propertyType := "Single Family Home";
         sp_roiEstimate := 8.5 |};
      {| sp_propertyId := "prop_002";
         sp_address := "456 Pine Avenue, Midtown";
         sp_price := 320000;
         sp_bedrooms := 2;
         sp_bathrooms := 1;
         sp_propertyType := "Condo";
         sp_roiEstimate := 7.2 |} ]
    2.

Definition calculateMortgageAdvanced (message : string) : ToolResult :=
  let basicCalc := calculateMortgage message in
  if has_error basicCalc then basicCalc
  else
    match get_quote basicCalc with
    | Some q =>
        let downPaymentPercent := (downPayment q / propertyPrice q * 100)%num in
        let monthlyPmi :=
          if (downPaymentPercent <? 20)%num
          then (loanAmount q * 0.5 / 100 / 12)%num else 0%num in
        let monthlyPropertyTax := (propertyPrice q * 1.2 / 100 / 12)%num in
        let monthlyInsurance := (propertyPrice q * 0.4 / 100 / 12)%num in
        RMortgageAdvanced q
          {| downPaymentPercent := (Math_round (downPaymentPercent * 100) / 100)%num;
             monthlyPmi := (Math_round (monthlyPmi * 100) / 100)%num;
             monthlyPropertyTax := (Math_round (monthlyPropertyTax * 100) / 100)%num;
             monthlyInsurance := (Math_round (monthlyInsurance * 100) / 100)%num;
             totalMonthlyPayment :=
               (Math_round ((monthlyPayment q + monthlyPmi + monthlyPropertyTax
                             + monthlyInsurance) * 100) / 100)%num |}
    | None => basicCalc
    end.

Definition getFinancialCalculator (message : string) : ToolResult :=
  let numbers := extractNumbers message in
  let messageLower := toLowerCase message in
  if includes messageLower "roi" && (2 <=? List.length numbers)%nat then
    let initialInvestment := idx numbers 0 in
    let annualReturn := idx numbers 1 in
    let roiPercentage := (annualReturn / initialInvestment * 100)%num in
    RRoi initialInvestment annualReturn (Math_round (roiPercentage * 100) / 100)%num
  else if includes messageLower "cap rate" && (2 <=? List.length numbers)%nat then
    let annualIncome := idx numbers 0 in
    let propertyValue := idx numbers 1 in
    let capRate := (annualIncome / propertyValue * 100)%num in
    RCapRate annualIncome propertyValue (Math_round (capRate * 100) / 100)%num
  else RError "Please specify calculation type (ROI or Cap Rate) with required numbers".

(** The registry the constructor builds, in the order it declares it. *)
Definition AIService_mcpTools : list (string * Tool) :=
  [ ("validatePromptRelevance", pureTool (fun message => RRelevance (validatePromptRelevance message)));
    ("searchPropertyInfo", pureTool searchPropertyInfo);
    ("getUserChatHistory", pureTool getUserChatHistory);
    ("getPropertyDetails", pureTool getPropertyDetails);
    ("getInterestRates", getInterestRates);
    ("calculateMortgage", pureTool calculateMortgage);
    ("getUserSavedProperties", pureTool getUserSavedProperties);
    ("getServicedProperties", pureTool getServicedProperties);
    ("calculateMortgageAdvanced", pureTool calculateMortgageAdvanced);
    ("getFinancialCalculator", pureTool getFinancialCalculator) ].

(** ** Keyword classifier *)

Definition determineRequiredTools (message : string) : list string :=
  let messageLower := toLowerCase message in
  let tools : list string := [] in
  let tools :=
    if containsAny messageLower ["find"; "search"; "show"; "properties"; "houses"]
    then (tools ++ ["searchPropertyInfo"])%list else tools in
  let tools :=
    if containsAny messageLower ["mortgage"; "payment"; "loan"; "calculate"]
    then (tools ++ ["calculateMortgage"])%list else tools in
  let tools :=
    if containsAny messageLower ["interest"; "rate"; "rates"]
    then (tools ++ ["getInterestRates"])%list else tools in
  let tools :=
    if containsAny messageLower ["roi"; "return"; "investment"; "cap rate"]
    then (tools ++ ["getFinancialCalculator"])%list else tools in
  let tools :=
    if containsAny messageLower ["details"; "information"; "about property"]
    then (tools ++ ["getPropertyDetails"])%list else tools in
  tools.

(** ** Reply generation *)

Definition systemPrompt : string :=
  "You are a Blue Pixel AI real estate assistant. You help with property investment analysis, mortgage calculations, and market insights. Use the provided tool data to give accurate, helpful responses. Be conversational but professional.".

Definition toolContextOf (toolResults : ToolResults) : string :=
  fold_left
    (fun toolContext entry =>
       let '(toolName, result) := entry in
       if negb (has_error result)
       then toolContext ++ nl ++ toolName ++ ": " ++ JSON_stringify result ++ nl
       else toolContext)
    toolResults ("Available data from tools:" ++ nl).

Definition buildMessages (message : string) (toolResults : ToolResults)
  : list ChatMessage :=
  let messages :=
    [ {| role := "system"; content := systemPrompt |};
      {| role := "user"; content := message |} ] in
  if (0 <? List.length toolResults)%nat
  then (messages ++ [ {| role := "system"; content := toolContextOf toolResults |} ])%list
  else messages.

(** [field.toLocaleString()]; on [undefined] it is a [TypeError]. *)
Definition call_toLocaleString (field : option num) : M string :=
  match field with
  | Some n => ret (toLocaleString n)
  | None => throw (TypeError "Cannot read properties of undefined (reading 'toLocaleString')")
  end.

(** A possibly missing Number in a template literal. *)
Definition interpolate (field : option num) : string :=
  match field with
  | Some n => Number_toString n
  | None => "undefined"
  end.

Definition genericReply : string :=
  "I'm here to help with your real estate questions. You can ask me about property searches, mortgage calculations, investment analysis, and current market rates.".

(** The body of the [catch] of [generateAIResponse], after the log line. *)
Definition fallbackResponse (toolResults : ToolResults) : M string :=
  if (0 <? List.length toolResults)%nat then
    let response := "Based on the available data:" ++ nl ++ nl in
    response <-
      match lookup "calculateMortgage" toolResults with
      | Some calc =>
          if negb (has_error calc) then
            price <- call_toLocaleString (option_map propertyPrice (get_quote calc)) ;;
            down <- call_toLocaleString (option_map downPayment (get_quote calc)) ;;
            let response :=
              response ++ "For a $" ++ price ++ " property with $" ++ down
              ++ " down payment:" ++ nl in
            monthly <- call_toLocaleString (option_map monthlyPayment (get_quote calc)) ;;
            let response := response ++ "- Monthly payment: $" ++ monthly ++ nl in
            interest <- call_toLocaleString (option_map totalInterest (get_quote calc)) ;;
            ret (response ++ "- Total interest: $" ++ interest ++ nl ++ nl)
          else ret response
      | None => ret response
      end ;;
    let response :=
      match lookup "searchPropertyInfo" toolResults with
      | Some r =>
          response ++ "Found " ++ interpolate (get_totalResults r)
          ++ " properties matching your criteria." ++ nl ++ nl
      | None => response
      end in
    let response :=
      match lookup "getInterestRates" toolResults with
      | Some r =>
          response ++ "Current interest rates: " ++ interpolate (get_currentRate r)
          ++ "%" ++ nl ++ nl
      | None => response
      end in
    ret (response ++ "How else can I help you with your real estate needs?")
  else ret genericReply.

Definition generateAIResponse (message : string) (toolResults : ToolResults)
  : M string :=
  try_catch
    (request_completion (buildMessages message toolResults))
    (fun error =>
       logger_error "Error generating AI response:" error ;;;
       fallbackResponse toolResults).

Definition extractPropertyData (toolResults : ToolResults) : option PropertyData :=
  let propertyData :=
    {| searchResults := lookup "searchPropertyInfo" toolResults;
       propertyDetails := lookup "getPropertyDetails" toolResults;
       mortgageCalculation := lookup "calculateMortgage" toolResults |} in
  match searchResults propertyData, propertyDetails propertyData,
        mortgageCalculation propertyData with
  | None, None, None => None
  | _, _, _ => Some propertyData
  end.

(** ** The composer *)

Section Composer.

(** [this.mcpTools]. *)
Variable mcpTools : list (string * Tool).

(** [this.mcpTools[toolName]], for the names the classifier selects: none
    of them is a property an object inherits, so the lookup is one among
    the properties the registry was given. *)
Fixpoint getTool (registry : list (string * Tool)) (toolName : string) : option Tool :=
  match registry with
  | [] => None
  | (k, tool) :: registry' =>
      if String.eqb k toolName then Some tool else getTool registry' toolName
  end.

(** The loop over [toolsToUse]. *)
Fixpoint executeTools (toolsToUse : list string) (message : string) (ctx : Context)
         (toolResults : ToolResults) : M ToolResults :=
  match toolsToUse with
  | [] => ret toolResults
  | toolName :: rest =>
      toolResults' <-
        match getTool mcpTools toolName with
        | Some tool =>
            try_catch
              (result <- invoke toolName tool message ctx ;;
               ret (assign toolName result toolResults))
              (fun error =>
                 logger_error ("Error executing tool " ++ toolName ++ ":") error ;;;
                 ret (assign toolName (RError ("Failed to execute " ++ toolName))
                        toolResults))
        | None => ret toolResults
        end ;;
      executeTools rest message ctx toolResults'
  end.

(** [message.length]: a [TypeError] on [undefined] and [null]. *)
Definition readLength (message : MessageValue) : M unit :=
  match message with
  | MsgNullish => throw (TypeError "Cannot read properties of undefined (reading 'length')")
  | _ => ret tt
  end.

(** [message.toLowerCase()], the first thing [validatePromptRelevance]
    and the classifier do with the message: a [TypeError] unless it is
    a string. *)
Definition asText (message : MessageValue) : M string :=
  match message with
  | MsgString text => ret text
  | _ => throw (TypeError "message.toLowerCase is not a function")
  end.

Definition apology : string :=
  "I apologize, but I encountered an error processing your request. Please try again.".

Definition processMessage (req : Request) : M ChatResponse :=
  let ctx := {| ctx_userId := req_userId req; ctx_sessionId := req_sessionId req |} in
  startTime <- now ;;
  try_catch
    (readLength (req_message req) ;;;
     logger_info "Processing message" ;;;
     message <- asText (req_message req) ;;
     let isRelevant := validatePromptRelevance message in
     if negb (isValid isRelevant) then
       stamp <- isoNow ;;
       finish <- now ;;
       ret {| response := filteredContent isRelevant;
              sessionId := req_sessionId req;
              timestamp := stamp;
              toolsUsed := ["validatePromptRelevance"];
              propertyData := None;
              executionTime := (finish - startTime)%num |}
     else
       let toolsToUse := determineRequiredTools message in
       toolResults <- executeTools toolsToUse message ctx [] ;;
       aiResponse <- generateAIResponse message toolResults ;;
       stamp <- isoNow ;;
       finish <- now ;;
       ret {| response := Some aiResponse;
              sessionId := req_sessionId req;
              timestamp := stamp;
              toolsUsed := "validatePromptRelevance" :: toolsToUse;
              propertyData := extractPropertyData toolResults;
              executionTime := (finish - startTime)%num |})
    (fun error =>
       logger_error "Error in processMessage:" error ;;;
       stamp <- isoNow ;;
       finish <- now ;;
       ret {| response := Some apology;
              sessionId := req_sessionId req;
              timestamp := stamp;
              toolsUsed := [];
              propertyData := None;
              executionTime := (finish - startTime)%num |}).

End Composer.

(** [processMessage] of a service as its constructor sets it up. *)
Definition AIService_processMessage : Request -> M ChatResponse :=
  processMessage AIService_mcpTools.

(** ** Vocabulary of the specification, on the service *)

(** The classifier's keyword lists, in the order it consults them. *)
Definition classifierKeywords : list (string * list string) :=
  [ ("searchPropertyInfo", ["find"; "search"; "show"; "properties"; "houses"]);
    ("calculateMortgage", ["mortgage"; "payment"; "loan"; "calculate"]);
    ("getInterestRates", ["interest"; "rate"; "rates"]);
    ("getFinancialCalculator", ["roi"; "return"; "investment"; "cap rate"]);
    ("getPropertyDetails", ["details"; "information"; "about property"]) ].

(** A keyword of the entry occurs in the lowercased message. *)
Definition triggered (message : string) (entry : string * list string) : bool :=
  containsAny (toLowerCase message) (snd entry).

(** The names of the registry, in the order the constructor declares
    them. *)
Definition registryNames : list string :=
  [ "validatePromptRelevance"; "searchPropertyInfo"; "getUserChatHistory";
    "getPropertyDetails"; "getInterestRates"; "calculateMortgage";
    "getUserSavedProperties"; "getServicedProperties";
    "calculateMortgageAdvanced"; "getFinancialCalculator" ].

(** The given tools, listed in registry-declaration order. *)
Definition inRegistryOrder (tools : list string) : list string :=
  filter (fun name => existsb (String.eqb name) tools) registryNames.

(** The amortization formula of the specification,
    [L·r·(1+r)^n / ((1+r)^n − 1)], and [L/n] when [r = 0]; the product is
    grouped as the source groups it. *)
Definition amortizedPayment (L r n : num) : num :=
  if SFeqb r 0%num then (L / n)%num
  else (L * (r * Math_pow (1 + r) n) / (Math_pow (1 + r) n - 1))%num.

(** The quote of the specification for a price, a down payment and an
    annual rate in percent, over 30 years. *)
Definition quoteFor (price down rate : num) : MortgageQuote :=
  let L := (price - down)%num in
  let r := (rate / 100 / 12)%num in
  let monthly := amortizedPayment L r 360 in
  {| propertyPrice := price;
     downPayment := down;
     loanAmount := L;
     interestRate := rate;
     loanTermYears := 30;
     monthlyPayment := round2 monthly;
     totalCost := round2 (monthly * 360);
     totalInterest := round2 (monthly * 360 - L) |}.

(** [numbers[2] || 7.2], on the numbers behind the first two. *)
Definition rateOf (rest : list num) : num :=
  match rest with
  | third :: _ => num_or third 7.2
  | [] => 7.2%num
  end.

(** The rate as the specification states it: the third number, or 7.2 if
    there is none. *)
Definition statedRate (rest : list num) : num :=
  match rest with
  | third :: _ => third
  | [] => 7.2%num
  end.

(** There is no third number, or it is one [||] lets through (not zero). *)
Definition thirdUsable (rest : list num) : Prop :=
  match rest with
  | third :: _ => truthy third = true
  | [] => True
  end.

(** The same formula on exact rationals. *)
Definition amortizationQ (L r : Q) (n : positive) : Q :=
  (L * r * Qpower_positive (1 + r) n / (Qpower_positive (1 + r) n - 1))%Q.

(** The calculateMortgage entry of [toolResults] is what that tool or the
    tool loop leaves there: an error record or a quote. *)
Definition mortgageEntryShaped (toolResults : ToolResults) : Prop :=
  forall calc, lookup "calculateMortgage" toolResults = Some calc ->
               has_error calc = true \/ exists q, get_quote calc = Some q.

(** The names of the tools the event log shows as invoked, in order. *)
Fixpoint invocations (evs : list event) : list string :=
  match evs with
  | [] => []
  | ToolInvoked name :: evs' => name :: invocations evs'
  | _ :: evs' => invocations evs'
  end.

(** The completion requests in the event log. *)
Fixpoint completionRequests (evs : list event) : nat :=
  match evs with
  | [] => 0
  | CompletionRequested _ :: evs' => S (completionRequests evs')
  | _ :: evs' => completionRequests evs'
  end.

(** Whether [this.mcpTools] has the name. *)
Definition registered (registry : list (string * Tool)) (toolName : string) : bool :=
  match getTool registry toolName with
  | Some _ => true
  | None => false
  end.

(** ** Vocabulary of the further properties *)

(** A character a number is written with: a digit, a comma or a dot. *)
Definition numeralChar (c : ascii) : bool :=
  isDigit c || Ascii.eqb c "," || Ascii.eqb c ".".

Fixpoint numeralChars (s : string) : bool :=
  match s with
  | EmptyString => true
  | String c s' => numeralChar c && numeralChars s'
  end.

(** The strings one after the other. *)
Definition concatStrings (l : list string) : string := fold_right append "" l.

(** An entry of [toolResults] whose result has no (truthy) [error]. *)
Definition succeeded (entry : string * ToolResult) : bool := negb (has_error (snd entry)).

(** What the tool context says about one entry. *)
Definition renderEntry (entry : string * ToolResult) : string :=
  nl ++ fst entry ++ ": " ++ JSON_stringify (snd entry) ++ nl.

(** Whether the classifier selects the tool for the message. *)
Definition selects (message toolName : string) : bool :=
  existsb (String.eqb toolName) (determineRequiredTools message).

(* ================================================================== *)
(** * The logger *)
(* ================================================================== *)

(** [String.prototype.toUpperCase] (on ASCII text). *)
Fixpoint toUpperCase (s : string) : string :=
  match s with
  | EmptyString => EmptyString
  | String c s' => String (upperChar c) (toUpperCase s')
  end.

(** The file system as the logger meets it: the directories that exist,
    the text of each file, and the paths at which the system refuses to
    write. *)
Record FileSystem := {
  directories : list string;
  files : list (string * string);
  unwritable : list string
}.

Fixpoint hasSlash (path : string) : bool :=
  match path with
  | EmptyString => false
  | String c rest => Ascii.eqb c "/" || hasSlash rest
  end.

(** The directory a path lies in: what precedes its last slash. *)
Fixpoint dirname (path : string) : string :=
  match path with
  | EmptyString => EmptyString
  | String c rest => if hasSlash rest then String c (dirname rest) else EmptyString
  end.

Definition readFile (path : string) (disk : FileSystem) : option string :=
  option_map snd (find (fun file => String.eqb (fst file) path) (files disk)).

(** [fs.existsSync(path)]. *)
Definition existsSync (path : string) (disk : FileSystem) : bool :=
  existsb (String.eqb path) (directories disk)
  || existsb (fun file => String.eqb (fst file) path) (files disk).

(** Whether a write at the path goes through: the system does not refuse
    it and the directory the path lies in exists. *)
Definition canWrite (path : string) (disk : FileSystem) : bool :=
  negb (existsb (String.eqb path) (unwritable disk))
  && (String.eqb (dirname path) "" || existsb (String.eqb (dirname path)) (directories disk)).

Fixpoint appendTo (path data : string) (fileList : list (string * string))
  : list (string * string) :=
  match fileList with
  | [] => [(path, data)]
  | (p, text) :: rest =>
      if String.eqb p path then (p, text ++ data) :: rest
      else (p, text) :: appendTo path data rest
  end.

(** [fs.appendFileSync(path, data)]: the file is created if it is not
    there; the call throws when the write does not go through. *)
Definition appendFileSync (path data : string) (disk : FileSystem) : exn + FileSystem :=
  if canWrite path disk
  then inr {| directories := directories disk;
              files := appendTo path data (files disk);
              unwritable := unwritable disk |}
  else inl (Thrown ("cannot write " ++ path)).

(** [fs.mkdirSync(path, { recursive: true })]. *)
Definition mkdirSync (path : string) (disk : FileSystem) : exn + FileSystem :=
  if existsb (String.eqb path) (unwritable disk)
  then inl (Thrown ("cannot create " ++ path))
  else inr {| directories := path :: directories disk;
              files := files disk;
              unwritable := unwritable disk |}.

(** What the logger acts on: the file system, the two streams of the
    console, and the position of the clock. *)
Record World := {
  disk : FileSystem;
  stdout : list string;
  stderr : list (string * exn);
  clock : nat
}.

(** A computation on the world that throws or returns. *)
Definition W (A : Type) : Type := World -> (exn + A) * World.

Definition wret {A} (a : A) : W A := fun w => (inr a, w).

Definition wbind {A B} (m : W A) (k : A -> W B) : W B :=
  fun w =>
    match m w with
    | (inl e, w') => (inl e, w')
    | (inr a, w') => k a w'
    end.

Definition wtry {A} (m : W A) (h : exn -> W A) : W A :=
  fun w =>
    match m w with
    | (inl e, w') => h e w'
    | (inr a, w') => (inr a, w')
    end.

Declare Scope world_scope.
Delimit Scope world_scope with world.
Notation "x <- m ;; k" := (wbind m (fun x => k))
  (at level 61, m at next level, right associativity) : world_scope.
Notation "m ;;; k" := (wbind m (fun _ => k))
  (at level 61, right associativity) : world_scope.

(** An operation of [fs] on the file system of the world. *)
Definition onDisk (op : FileSystem -> exn + FileSystem) : W unit :=
  fun w =>
    match op (disk w) with
    | inr disk' =>
        (inr tt, {| disk := disk'; stdout := stdout w; stderr := stderr w; clock := clock w |})
    | inl e => (inl e, w)
    end.

Definition console_log (line : string) : W unit :=
  fun w =>
    (inr tt, {| disk := disk w; stdout := (stdout w ++ [line])%list;
                stderr := stderr w; clock := clock w |}).

Definition console_error (label : string) (err : exn) : W unit :=
  fun w =>
    (inr tt, {| disk := disk w; stdout := stdout w;
                stderr := (stderr w ++ [(label, err)])%list; clock := clock w |}).

(** [new Date().toISOString()]. *)
Definition world_isoNow : W string :=
  fun w =>
    (inr (Date_toISOString (clock w)),
     {| disk := disk w; stdout := stdout w; stderr := stderr w; clock := S (clock w) |}).

(** The [meta] argument of the logger: an object with its enumerable own
    properties as [JSON.stringify] prints them (none for [{}], the
    default, and for an [Error]), [null], or an object with a property
    that [JSON.stringify] rejects with a [TypeError]. *)
Inductive Meta :=
| MetaObject (properties : list (string * string))
| MetaNull
| MetaUnserialisable (what : string).

(** [JSON.stringify] of an object it prints. *)
Variable JSON_stringify_meta : list (string * string) -> string.

Definition wthrow {A} (e : exn) : W A := fun w => (inl e, w).

(** [Object.keys(meta).length]; an object [JSON.stringify] rejects has the
    property it is rejected for. *)
Definition Object_keys_length (meta : Meta) : W nat :=
  match meta with
  | MetaObject properties => wret (List.length properties)
  | MetaNull => wthrow (TypeError "Cannot convert undefined or null to object")
  | MetaUnserialisable _ => wret 1%nat
  end.

(** [JSON.stringify(meta)]. *)
Definition JSON_stringify_of (meta : Meta) : W string :=
  match meta with
  | MetaObject properties => wret (JSON_stringify_meta properties)
  | MetaNull => wret "null"
  | MetaUnserialisable what => wthrow (TypeError what)
  end.

(** The logger can format the meta object. *)
Definition printableMeta (meta : Meta) : bool :=
  match meta with
  | MetaObject _ => true
  | _ => false
  end.

(** A caught value, as the [meta] argument it is when it is logged. *)
Definition metaOf (caught : exn) : Meta :=
  match caught with
  | TypeError _ | Thrown _ => MetaObject []
  | ThrownNull => MetaNull
  | ThrownUnserialisable what => MetaUnserialisable what
  end.

(** [new Logger()]. *)
Definition Logger_constructor : W unit :=
  let logsDir := "logs" in
  fun w =>
    if negb (existsSync logsDir (disk w))
    then onDisk (mkdirSync logsDir) w
    else wret tt w.

Definition Logger_formatMessage (level message : string) (meta : Meta) : W string :=
  (timestamp <- world_isoNow ;;
   keys <- Object_keys_length meta ;;
   metaString <-
     (if (0 <? keys)%nat
      then printed <- JSON_stringify_of meta ;; wret (" " ++ printed)
      else wret "") ;;
   wret (timestamp ++ " [" ++ toUpperCase level ++ "]: " ++ message ++ metaString))%world.

Definition Logger_log (level message : string) (meta : Meta) : W unit :=
  (formattedMessage <- Logger_formatMessage level message meta ;;
   console_log formattedMessage ;;;
   wtry
     (onDisk (appendFileSync "logs/app.log" (formattedMessage ++ nl)) ;;;
      if String.eqb level "error"
      then onDisk (appendFileSync "logs/error.log" (formattedMessage ++ nl))
      else wret tt)
     (fun err => console_error "Failed to write to log file:" err))%world.

Definition Logger_info (message : string) (meta : Meta) : W unit :=
  Logger_log "info" message meta.

Definition Logger_error (message : string) (meta : Meta) : W unit :=
  Logger_log "error" message meta.

Definition Logger_warn (message : string) (meta : Meta) : W unit :=
  Logger_log "warn" message meta.

Definition Logger_debug (message : string) (meta : Meta) : W unit :=
  Logger_log "debug" message meta.

(** The line the logger makes of a call at a position of the clock, for
    a meta object it can format. *)
Definition logLine (level message : string) (meta : Meta) (t : nat) : string :=
  Date_toISOString t ++ " [" ++ toUpperCase level ++ "]: " ++ message
  ++ match meta with
     | MetaObject properties =>
         if (0 <? List.length properties)%nat
         then " " ++ JSON_stringify_meta properties else ""
     | _ => ""
     end.

(** The text of a file, empty if the file is not there. *)
Definition contentOf (path : string) (d : FileSystem) : string :=
  match readFile path d with
  | Some text => text
  | None => ""
  end.

(** A series of calls of the logger, each with its level, message and
    meta object. *)
Fixpoint Logger_calls (calls : list (string * string * Meta)) : W unit :=
  match calls with
  | [] => wret tt
  | (level, message, meta) :: rest =>
      (Logger_log level message meta ;;; Logger_calls rest)%world
  end.

(** The lines of a series of calls that starts at a position of the
    clock. *)
Fixpoint linesFrom (t : nat) (calls : list (string * string * Meta)) : list string :=
  match calls with
  | [] => []
  | (level, message, meta) :: rest =>
      logLine level message meta t :: linesFrom (S t) rest
  end.

(** The lines of the calls at level error among them. *)
Fixpoint errorLinesFrom (t : nat) (calls : list (string * string * Meta)) : list string :=
  match calls with
  | [] => []
  | (level, message, meta) :: rest =>
      if String.eqb level "error"
      then logLine level message meta t :: errorLinesFrom (S t) rest
      else errorLinesFrom (S t) rest
  end.

(** Lines as a file holds them, each ended by a line feed. *)
Definition asFileText (lines : list string) : string :=
  concatStrings (map (fun line => line ++ nl) lines).

(* ================================================================== *)
(** * The server: the chat handler and the tool catalog *)
(* ================================================================== *)

(** What a client sends with [chat_message]: nothing ([undefined],
    [null]), or an object with a message and the two identifiers. *)
Inductive ClientData :=
| DataNullish
| DataObject (message : MessageValue) (sessionId userId : string).

(** Where an event is emitted to: [io.to(room)], or the socket of the
    sender. *)
Inductive Target :=
| ToRoom (room : string)
| ToSender.

Inductive Payload :=
| AiResponse (responseData : ChatResponse)
| ErrorPayload (message error : string).

(** What the handler does to the outside: what the service does, and the
    events it emits on the transport. *)
Inductive serverEvent :=
| InService (e : event)
| Emitted (target : Target) (eventName : string) (payload : Payload).

Definition SM (A : Type) : Type := nat -> (exn + A) * list serverEvent * nat.

Definition sret {A} (a : A) : SM A := fun t => (inr a, [], t).

Definition sthrow {A} (e : exn) : SM A := fun t => (inl e, [], t).

Definition sbind {A B} (m : SM A) (k : A -> SM B) : SM B :=
  fun t =>
    match m t with
    | (inl e, evs, t') => (inl e, evs, t')
    | (inr a, evs, t') =>
        match k a t' with
        | (r, evs', t'') => (r, (evs ++ evs')%list, t'')
        end
    end.

Definition stry {A} (m : SM A) (h : exn -> SM A) : SM A :=
  fun t =>
    match m t with
    | (inl e, evs, t') =>
        match h e t' with
        | (r, evs', t'') => (r, (evs ++ evs')%list, t'')
        end
    | (inr a, evs, t') => (inr a, evs, t')
    end.

(** A computation of the service, run by the server. *)
Definition lift {A} (m : M A) : SM A :=
  fun t => match m t with (r, evs, t') => (r, map InService evs, t') end.

Definition semit (target : Target) (eventName : string) (payload : Payload) : SM unit :=
  fun t => (inr tt, [Emitted target eventName payload], t).

Declare Scope server_scope.
Delimit Scope server_scope with server.
Notation "x <- m ;; k" := (sbind m (fun x => k))
  (at level 61, m at next level, right associativity) : server_scope.
Notation "m ;;; k" := (sbind m (fun _ => k))
  (at level 61, right associativity) : server_scope.

(** [error.message] of an error.  (For the other values the logger has
    thrown before the property is read.) *)
Definition exn_message (e : exn) : string :=
  match e with
  | TypeError what => what
  | Thrown what => what
  | ThrownNull | ThrownUnserialisable _ => ""
  end.

(** [const { message, sessionId, userId } = data]. *)
Definition destructure (data : ClientData) : SM Request :=
  match data with
  | DataNullish =>
      sthrow (TypeError "Cannot destructure property 'message' of 'data' as it is undefined.")
  | DataObject message sessionId userId =>
      sret {| req_message := message; req_sessionId := sessionId; req_userId := userId |}
  end.

(** The handler of [chat_message], for the service the server
    constructs. *)
Definition on_chat_message (data : ClientData) : SM unit :=
  stry
    (req <- destructure data ;;
     lift (readLength (req_message req)) ;;;
     lift (logger_info "Processing chat message") ;;;
     resp <- lift (AIService_processMessage req) ;;
     let responseData :=
       {| response := response resp;
          sessionId := sessionId resp;
          timestamp := timestamp resp;
          toolsUsed := toolsUsed resp (* [response.toolsUsed || []]: an array is truthy *);
          propertyData := propertyData resp;
          executionTime := executionTime resp |} in
     semit (ToRoom (req_sessionId req)) "ai_response" (AiResponse responseData) ;;;
     lift (logger_info "AI response sent"))%server
    (fun error =>
       lift (logger_error "Error processing message:" error) ;;;
       semit ToSender "error"
         (ErrorPayload "Failed to process message" (exn_message error)))%server.

(** The events the handler emitted on the transport, in order. *)
Fixpoint emissions (evs : list serverEvent) : list (Target * string * Payload) :=
  match evs with
  | [] => []
  | Emitted target eventName payload :: evs' => (target, eventName, payload) :: emissions evs'
  | InService _ :: evs' => emissions evs'
  end.

(** The list [GET /api/mcp/tools] answers with, and its count. *)
Definition availableTools : list string :=
  [ "validatePromptRelevance"; "searchPropertyInfo"; "getUserChatHistory";
    "getPropertyDetails"; "getInterestRates"; "calculateMortgage";
    "getUserSavedProperties"; "getServicedProperties";
    "calculateMortgageAdvanced"; "getFinancialCalculator" ].

Definition availableTools_totalCount : nat := 10.

(* ================================================================== *)
(** * Properties *)
(* ================================================================== *)

(** ** The model on known values *)

(** 7.2 is 0x1.ccccccccccccdp+2. *)
Example literal_7_2 : 7.2%num = S754_finite false 8106479329266893 (-50).
Proof. reflexivity. Qed.

Example sum_of_tenths :
  (0.1 + 0.2)%num = 0.30000000000000004%num /\ (0.1 + 0.2)%num <> 0.3%num.
Proof. split; [ reflexivity | discriminate ]. Qed.

Example Math_round_ties :
  Math_round 2.5 = 3%num /\ Math_round (-2.5) = (-2)%num
  /\ Math_round (-0.4) = S754_zero true
  /\ Math_round 0.49999999999999994 = 0%num
  /\ Math_round 244363.76 = 244364%num.
Proof. repeat split. Qed.

Example parseFloat_examples :
  parseFloat "450000" = 450000%num /\ parseFloat "7.2" = 7.2%num
  /\ parseFloat "9007199254740993" = 9007199254740992%num
  /\ parseFloat "" = NaN.
Proof. repeat split. Qed.

Example matchNumbers_examples :
  matchNumbers "1,2345 and 1.2.3, or 12,34; 7.2% of $1,234,567.89"
  = Some ["1,234"; "5"; "1.2"; "3"; "12"; "34"; "7.2"; "1,234,567.89"]
  /\ matchNumbers "none" = None.
Proof. split; reflexivity. Qed.

(** The matcher backtracks where it has to: in [\d*\d] the star gives
    back its last digit. *)
Example matcher_backtracks :
  regexExec (RSeq (RStar (RChar isDigit)) (RChar isDigit)) "1234x" = Some ("1234", "x")
  /\ regexExec numberPattern "1,234,567.89abc" = Some ("1,234,567.89", "abc").
Proof. split; reflexivity. Qed.

Example toLowerCase_example : toLowerCase "What's the Cap Rate?" = "what's the cap rate?".
Proof. reflexivity. Qed.

(** ** Numbers *)

Lemma shr_1_nonneg mrs : (0 <= shr_m mrs)%Z -> (0 <= shr_m (shr_1 mrs))%Z.
Proof.
  destruct mrs as [m r s]; simpl.
  destruct m as [|p|p]; [ simpl; lia | | lia ].
  destruct p; simpl; lia.
Qed.

Lemma iter_shr_1_nonneg p mrs :
  (0 <= shr_m mrs)%Z -> (0 <= shr_m (iter_pos shr_1 p mrs))%Z.
Proof.
  revert mrs; induction p as [p IH|p IH|]; intros mrs H; simpl.
  - apply IH, IH, shr_1_nonneg, H.
  - apply IH, IH, H.
  - apply shr_1_nonneg, H.
Qed.

Lemma shr_fexp_nonneg m e l :
  (0 <= m)%Z -> (0 <= shr_m (fst (shr_fexp prec emax m e l)))%Z.
Proof.
  intros H. unfold shr_fexp, shr.
  assert (H0 : (0 <= shr_m (shr_record_of_loc m l))%Z).
  { destruct l as [|[| |]]; simpl; exact H. }
  destruct (fexp prec emax (Zdigits2 m + e) - e)%Z; simpl; auto.
  apply iter_shr_1_nonneg, H0.
Qed.

Lemma round_nearest_even_nonneg m l : (0 <= m)%Z -> (0 <= round_nearest_even m l)%Z.
Proof.
  intros H. destruct l as [|[| |]]; simpl; try lia.
  destruct (Z.even m); lia.
Qed.

Lemma binary_round_aux_nonneg m e l :
  (0 <= m)%Z -> nonneg (binary_round_aux prec emax false m e l) = true.
Proof.
  intros H. unfold binary_round_aux.
  pose proof (shr_fexp_nonneg m e l H) as H1.
  destruct (shr_fexp prec emax m e l) as [mrs' e'] eqn:E1. simpl in H1.
  pose proof (round_nearest_even_nonneg _ (loc_of_shr_record mrs') H1) as H2.
  pose proof (shr_fexp_nonneg _ e' loc_Exact H2) as H3.
  destruct (shr_fexp prec emax _ e' loc_Exact) as [mrs'' e''] eqn:E2. simpl in H3.
  destruct (shr_m mrs'') as [|p|p]; [ reflexivity | | lia ].
  destruct (e'' <=? emax - prec)%Z; reflexivity.
Qed.

Lemma of_ratio_nonneg n d : nonneg (of_ratio n d) = true.
Proof.
  destruct n as [|p]; [ reflexivity | ].
  unfold of_ratio, SFdiv.
  destruct (SFdiv_core_binary prec emax (Z.pos p) 0 (Z.pos d) 0) as [[mz ez] lz] eqn:E.
  apply binary_round_aux_nonneg.
  unfold SFdiv_core_binary in E.
  set (s := (0 - 0 - _)%Z) in E.
  set (m' := match s with Z0 => _ | Zpos _ => _ | Zneg _ => _ end) in E.
  assert (Hm : (0 <= m')%Z).
  { subst m'. destruct s; try lia. apply Z.shiftl_nonneg. lia. }
  pose proof (Z.div_eucl_eq m' (Z.pos d)) as Hd.
  pose proof (Z_div_mod m' (Z.pos d)) as Hr.
  destruct (Z.div_eucl m' (Z.pos d)) as [q r].
  inversion E; subst. specialize (Hr ltac:(lia)). nia.
Qed.

(** ** Strings *)

Lemma append_assoc (a b c : string) : (a ++ b) ++ c = a ++ (b ++ c).
Proof. induction a as [|x a IH]; simpl; [ reflexivity | now rewrite IH ]. Qed.

Lemma append_nil_r (a : string) : a ++ "" = a.
Proof. induction a as [|x a IH]; simpl; [ reflexivity | now rewrite IH ]. Qed.

Lemma length_append (a b : string) :
  String.length (a ++ b) = (String.length a + String.length b)%nat.
Proof. induction a as [|x a IH]; simpl; [ reflexivity | now rewrite IH ]. Qed.

Lemma prefix_spec (p s : string) :
  prefix p s = true <-> exists post, s = p ++ post.
Proof.
  revert s; induction p as [|a p IH]; intros [|b s]; simpl.
  - split; eauto.
  - split; eauto.
  - split; [ discriminate | intros [post H]; discriminate ].
  - destruct (ascii_dec a b) as [E|Hne].
    + subst b. rewrite IH.
      split; intros [post H]; exists post; [ now subst | now inversion H ].
    + split; [ discriminate | intros [post H]; inversion H; congruence ].
Qed.

Lemma includes_spec (text keyword : string) :
  includes text keyword = true <-> occurs keyword text.
Proof.
  induction text as [|c text IH].
  - cbn [includes]. rewrite orb_false_r, prefix_spec. split.
    + intros [post H]. exists "", post. exact H.
    + intros [pre [post H]]. destruct pre; [ eauto | discriminate ].
  - cbn [includes]. rewrite orb_true_iff, prefix_spec, IH. split.
    + intros [[post H]|[pre [post H]]].
      * exists "", post. exact H.
      * exists (String c pre), post. simpl. now rewrite H.
    + intros [pre [post H]]. destruct pre as [|x pre]; simpl in H.
      * left. eauto.
      * right. inversion H; subst. now exists pre, post.
Qed.

Lemma containsAny_spec (text : string) (keywords : list string) :
  containsAny text keywords = true <->
  exists keyword, In keyword keywords /\ occurs keyword text.
Proof.
  unfold containsAny. rewrite existsb_exists.
  split; intros [k [Hin H]]; exists k; split; auto; now apply includes_spec.
Qed.

(** ** The numeric extractor *)

Lemma spanDigits_eq s : s = fst (spanDigits s) ++ snd (spanDigits s).
Proof.
  induction s as [|c s IH]; simpl; [ reflexivity | ].
  destruct (isDigit c); [ | reflexivity ].
  destruct (spanDigits s) as [ds r]. simpl in *. now rewrite <- IH.
Qed.

Lemma spanDigits_allDigits s : allDigits (fst (spanDigits s)) = true.
Proof.
  induction s as [|c s IH]; simpl; [ reflexivity | ].
  destruct (isDigit c) eqn:E; [ | reflexivity ].
  destruct (spanDigits s) as [ds r]. simpl in *. now rewrite E.
Qed.

Lemma spanDigits_app ds x :
  allDigits ds = true ->
  spanDigits (ds ++ x) = (ds ++ fst (spanDigits x), snd (spanDigits x)).
Proof.
  induction ds as [|c ds IH]; simpl; intros H.
  - now destruct (spanDigits x).
  - apply andb_true_iff in H as [Hc Hds]. rewrite Hc, (IH Hds). reflexivity.
Qed.

Lemma spanDigits_nondigit c x :
  isDigit c = false -> spanDigits (String c x) = ("", String c x).
Proof. intros H. simpl. now rewrite H. Qed.

Lemma spanGroups_spec s :
  s = fst (spanGroups s) ++ snd (spanGroups s) /\ groupSeq (fst (spanGroups s)).
Proof.
  remember (String.length s) as n eqn:Hn.
  assert (Hle : (String.length s <= n)%nat) by lia. clear Hn.
  revert s Hle. induction n as [n IH] using lt_wf_ind. intros s Hle.
  destruct s as [|x [|a [|b [|c s]]]]; try (split; [ reflexivity | constructor ]).
  cbn [spanGroups].
  destruct (Ascii.eqb x "," && isDigit a && isDigit b && isDigit c) eqn:E;
    [ | split; [ reflexivity | constructor ] ].
  apply andb_true_iff in E as [E Hc]. apply andb_true_iff in E as [E Hb].
  apply andb_true_iff in E as [Hx Ha]. apply Ascii.eqb_eq in Hx. subst x.
  destruct (IH (String.length s) ltac:(simpl in Hle; lia) s (le_n _)) as [H1 H2].
  destruct (spanGroups s) as [gs r]. simpl in *. split.
  - now rewrite <- H1.
  - now constructor.
Qed.

Lemma spanGroups_app gs x :
  groupSeq gs ->
  spanGroups (gs ++ x) = (gs ++ fst (spanGroups x), snd (spanGroups x)).
Proof.
  induction 1 as [|a b c gs Ha Hb Hc Hgs IH].
  - simpl. now destruct (spanGroups x).
  - cbn [append spanGroups]. rewrite Ha, Hb, Hc, IH. reflexivity.
Qed.

Lemma spanGroups_other c x :
  Ascii.eqb c "," = false -> spanGroups (String c x) = ("", String c x).
Proof.
  intros H. destruct x as [|a [|b [|d x]]]; try reflexivity.
  cbn [spanGroups]. now rewrite H.
Qed.

Lemma spanGroups_nil : spanGroups "" = ("", "").
Proof. reflexivity. Qed.

Lemma spanFraction_spec s :
  s = fst (spanFraction s) ++ snd (spanFraction s) /\ fraction (fst (spanFraction s)).
Proof.
  destruct s as [|x [|d s]]; try (split; [ reflexivity | constructor ]).
  cbn [spanFraction].
  destruct (Ascii.eqb x "." && isDigit d) eqn:E; [ | split; [ reflexivity | constructor ] ].
  apply andb_true_iff in E as [Hx Hd]. apply Ascii.eqb_eq in Hx. subst x.
  pose proof (spanDigits_eq s) as H1. pose proof (spanDigits_allDigits s) as H2.
  destruct (spanDigits s) as [ds r]. simpl in *. split.
  - now rewrite <- H1.
  - now constructor.
Qed.

Lemma spanFraction_app d ds x :
  isDigit d = true -> allDigits ds = true ->
  spanFraction (String "." (String d ds) ++ x)
  = (String "." (String d ds) ++ fst (spanDigits x), snd (spanDigits x)).
Proof.
  intros Hd Hds. cbn [append spanFraction]. rewrite Hd.
  cbn [Ascii.eqb Bool.eqb andb]. rewrite (spanDigits_app ds x Hds). reflexivity.
Qed.

Lemma isDigit_comma : isDigit "," = false.
Proof. reflexivity. Qed.

Lemma isDigit_dot : isDigit "." = false.
Proof. reflexivity. Qed.

Lemma isDigit_not_comma c : isDigit c = true -> Ascii.eqb c "," = false.
Proof.
  intros H. destruct (Ascii.eqb_spec c ","); [ subst; discriminate | reflexivity ].
Qed.

Lemma isDigit_not_dot c : isDigit c = true -> Ascii.eqb c "." = false.
Proof.
  intros H. destruct (Ascii.eqb_spec c "."); [ subst; discriminate | reflexivity ].
Qed.

(** What [scanNumberAt] returns is a number of the grammar, and splits
    the text. *)
Lemma scanNumberAt_sound s tok rest :
  scanNumberAt s = Some (tok, rest) -> s = tok ++ rest /\ numeral tok.
Proof.
  unfold scanNumberAt. intros H.
  pose proof (spanDigits_eq s) as H1. pose proof (spanDigits_allDigits s) as H2.
  destruct (spanDigits s) as [[|d ds] r1]; [ discriminate | ].
  destruct (spanGroups_spec r1) as [H3 H4].
  destruct (spanGroups r1) as [gs r2].
  destruct (spanFraction_spec r2) as [H5 H6].
  destruct (spanFraction r2) as [fr r3].
  cbn [fst snd] in H1, H2, H3, H4, H5, H6. inversion H; subst tok rest; clear H.
  apply andb_true_iff in H2 as [Hd Hds]. split.
  - rewrite H1 at 1. rewrite H3 at 1. rewrite H5 at 1.
    cbn [append]. f_equal. now rewrite !append_assoc.
  - now constructor.
Qed.

Lemma scanNumberAt_none s :
  scanNumberAt s = None ->
  match s with
  | EmptyString => True
  | String c _ => isDigit c = false
  end.
Proof.
  unfold scanNumberAt. destruct s as [|c s]; [ trivial | ].
  simpl. destruct (isDigit c); [ | reflexivity ].
  destruct (spanDigits s) as [ds r1].
  destruct (spanGroups r1) as [gs r2]. destruct (spanFraction r2) as [fr r3].
  discriminate.
Qed.

(** Where a number of the grammar starts the text, the match covers it. *)
Local Ltac norm_append :=
  repeat (cbn [append]; rewrite ?append_nil_r, ?append_assoc); try reflexivity.

Lemma scanNumberAt_covers tok' post :
  numeral tok' ->
  exists ext rest, scanNumberAt (tok' ++ post) = Some (tok' ++ ext, rest).
Proof.
  intros [d ds gs fr Hd Hds Hgs Hfr].
  unfold scanNumberAt.
  rewrite !append_assoc.
  rewrite (spanDigits_app (String d ds)) by (simpl; now rewrite Hd, Hds).
  cbn [append].
  destruct Hgs as [|a b c gs Ha Hb Hc Hgs].
  - destruct Hfr as [|f fs Hf Hfs].
    + cbn [append].
      destruct (spanDigits post) as [ds2 r1]. cbn [fst snd].
      destruct (spanGroups r1) as [gs2 r2]. destruct (spanFraction r2) as [fr2 r3].
      exists (ds2 ++ gs2 ++ fr2), r3. norm_append.
    + cbn [append]. rewrite (spanDigits_nondigit _ _ isDigit_dot). cbn [fst snd].
      rewrite spanGroups_other by reflexivity.
      change (String "." (String f (fs ++ post))) with (String "." (String f fs) ++ post).
      rewrite (spanFraction_app f fs post Hf Hfs).
      exists (fst (spanDigits post)), (snd (spanDigits post)).
      norm_append.
  - cbn [append]. rewrite (spanDigits_nondigit _ _ isDigit_comma). cbn [fst snd].
    change (String "," (String a (String b (String c (gs ++ fr ++ post)))))
      with (String "," (String a (String b (String c gs))) ++ fr ++ post).
    rewrite (spanGroups_app _ (fr ++ post) (groups_cons a b c gs Ha Hb Hc Hgs)).
    destruct Hfr as [|f fs Hf Hfs].
    + cbn [append].
      destruct (spanGroups post) as [gs2 r2]. cbn [fst snd].
      destruct (spanFraction r2) as [fr2 r3].
      exists (gs2 ++ fr2), r3. norm_append.
    + cbn [append]. rewrite spanGroups_other by reflexivity. cbn [fst snd].
      change (String "." (String f (fs ++ post))) with (String "." (String f fs) ++ post).
      rewrite (spanFraction_app f fs post Hf Hfs).
      exists (fst (spanDigits post)), (snd (spanDigits post)).
      norm_append.
Qed.

Lemma append_inv_head (a b c : string) : a ++ b = a ++ c -> b = c.
Proof. induction a as [|x a IH]; simpl; intros H; [ exact H | inversion H; auto ]. Qed.

Lemma scanNumberAt_longest s tok rest tok' post :
  scanNumberAt s = Some (tok, rest) -> numeral tok' -> s = tok' ++ post ->
  (String.length tok' <= String.length tok)%nat.
Proof.
  intros Hm Hn Hs. subst s.
  destruct (scanNumberAt_covers tok' post Hn) as [ext [rest' H]].
  rewrite H in Hm. inversion Hm; subst. rewrite length_append. lia.
Qed.

Lemma tokenization_skip c s toks :
  isDigit c = false -> tokenization s toks -> tokenization (String c s) toks.
Proof.
  intros Hc H. destruct H as [gap Hg|gap tok rest toks Hg Hn Hmax Hrest].
  - apply tokens_done. simpl. now rewrite Hc.
  - change (String c (gap ++ tok ++ rest)) with (String c gap ++ tok ++ rest).
    apply tokens_next; auto. simpl. now rewrite Hc.
Qed.

Lemma scanAllFrom_tokenization fuel s :
  (String.length s <= fuel)%nat -> tokenization s (scanAllFrom fuel s).
Proof.
  revert s. induction fuel as [|fuel IH]; intros s Hlen.
  - destruct s; [ | simpl in Hlen; lia ]. now apply tokens_done.
  - cbn [scanAllFrom]. destruct (scanNumberAt s) as [[tok rest]|] eqn:E.
    + destruct (scanNumberAt_sound s tok rest E) as [Hs Hn].
      assert (Hpos : (0 < String.length tok)%nat).
      { destruct Hn. simpl. lia. }
      change s with ("" ++ s). rewrite Hs at 1.
      apply tokens_next; auto.
      * intros tok' post Hn' Heq.
        apply (scanNumberAt_longest s tok rest tok' post E Hn'). now rewrite Hs.
      * apply IH. rewrite Hs, length_append in Hlen. lia.
    + pose proof (scanNumberAt_none s E) as Hc. destruct s as [|c s].
      * now apply tokens_done.
      * apply tokenization_skip; auto. apply IH. simpl in Hlen. lia.
Qed.

(** More fuel than the length of the text changes nothing. *)
Lemma scanAllFrom_fuel fuel s :
  (String.length s <= fuel)%nat ->
  scanAllFrom fuel s = scanAllFrom (String.length s) s.
Proof.
  revert s. induction fuel as [fuel IH] using lt_wf_ind. intros s Hlen.
  destruct fuel as [|fuel].
  - destruct s; [ reflexivity | simpl in Hlen; lia ].
  - destruct s as [|c s].
    + reflexivity.
    + cbn [scanAllFrom String.length].
      destruct (scanNumberAt (String c s)) as [[tok rest]|] eqn:E.
      * destruct (scanNumberAt_sound _ tok rest E) as [Hs Hn].
        assert (Hl : (String.length rest <= String.length s)%nat).
        { apply (f_equal String.length) in Hs. rewrite length_append in Hs.
          destruct Hn. simpl in Hs. lia. }
        simpl in Hlen.
        rewrite (IH fuel ltac:(lia) rest ltac:(lia)).
        rewrite (IH (String.length s) ltac:(lia) rest Hl). reflexivity.
      * simpl in Hlen. rewrite (IH fuel ltac:(lia) s ltac:(lia)). reflexivity.
Qed.

(** ** The regular expression and the scanner *)

Lemma starLoop_digits n s k :
  (String.length s <= n)%nat -> total k ->
  starLoop (rmatch (RChar isDigit)) k n s = k (snd (spanDigits s)).
Proof.
  intros Hlen Hk. revert s Hlen.
  induction n as [|n IH]; intros s Hlen.
  - destruct s; [ reflexivity | simpl in Hlen; lia ].
  - destruct s as [|c s]; [ reflexivity | ].
    cbn [starLoop rmatch spanDigits].
    destruct (isDigit c) eqn:Ec; [ | reflexivity ].
    assert (Hlt : (String.length s <? String.length (String c s))%nat = true)
      by (apply Nat.ltb_lt; simpl; lia).
    rewrite Hlt, IH by (simpl in Hlen; lia).
    destruct (spanDigits s) as [ds r]. cbn [snd].
    destruct (Hk r) as [y Hy]. now rewrite Hy.
Qed.

Lemma rmatch_group s k :
  rmatch (RSeq (RChar (fun c => Ascii.eqb c ","))
            (RSeq (RChar isDigit) (RSeq (RChar isDigit) (RChar isDigit)))) s k
  = match s with
    | String x (String a (String b (String c s'))) =>
        if Ascii.eqb x "," && isDigit a && isDigit b && isDigit c then k s' else None
    | _ => None
    end.
Proof.
  destruct s as [|x [|a [|b [|c s]]]]; cbn [rmatch]; try reflexivity.
  - destruct (Ascii.eqb x ","); reflexivity.
  - destruct (Ascii.eqb x ","), (isDigit a); reflexivity.
  - destruct (Ascii.eqb x ","), (isDigit a), (isDigit b); reflexivity.
  - destruct (Ascii.eqb x ","), (isDigit a), (isDigit b), (isDigit c); reflexivity.
Qed.

Lemma starLoop_groups n s k :
  (String.length s <= n)%nat -> total k ->
  starLoop
    (rmatch (RSeq (RChar (fun c => Ascii.eqb c ","))
               (RSeq (RChar isDigit) (RSeq (RChar isDigit) (RChar isDigit))))) k n s
  = k (snd (spanGroups s)).
Proof.
  intros Hlen Hk. revert s Hlen.
  induction n as [n IH] using lt_wf_ind. intros s Hlen.
  destruct n as [|n].
  - destruct s; [ reflexivity | simpl in Hlen; lia ].
  - cbn [starLoop]. rewrite rmatch_group.
    destruct s as [|x [|a [|b [|c s]]]]; try reflexivity.
    cbn [spanGroups].
    destruct (Ascii.eqb x "," && isDigit a && isDigit b && isDigit c); [ | reflexivity ].
    assert (Hlt : (String.length s
                   <? String.length (String x (String a (String b (String c s)))))%nat
                  = true) by (apply Nat.ltb_lt; simpl; lia).
    rewrite Hlt, (IH n) by (simpl in Hlen; lia).
    destruct (spanGroups s) as [gs r]. cbn [snd].
    destruct (Hk r) as [y Hy]. now rewrite Hy.
Qed.

Lemma rmatch_fraction s k :
  total k ->
  rmatch (ROpt (RSeq (RChar (fun c => Ascii.eqb c ".")) (RPlus (RChar isDigit)))) s k
  = k (snd (spanFraction s)).
Proof.
  intros Hk. cbn [rmatch RPlus]. unfold spanFraction.
  destruct s as [|x [|d s]]; try reflexivity.
  - destruct (Ascii.eqb x "."); reflexivity.
  - destruct (Ascii.eqb x "."); [ | reflexivity ].
    destruct (isDigit d); [ | reflexivity ]. cbn [andb].
    rewrite starLoop_digits by (auto; apply le_n).
    destruct (spanDigits s) as [ds r]. cbn [snd].
    destruct (Hk r) as [y Hy]. now rewrite Hy.
Qed.

Lemma rmatch_groups_fraction s k :
  total k ->
  rmatch (RSeq (RStar (RSeq (RChar (fun c => Ascii.eqb c ","))
                         (RSeq (RChar isDigit) (RSeq (RChar isDigit) (RChar isDigit)))))
            (ROpt (RSeq (RChar (fun c => Ascii.eqb c ".")) (RPlus (RChar isDigit))))) s k
  = k (snd (spanFraction (snd (spanGroups s)))).
Proof.
  intros Hk.
  set (G := RSeq (RChar (fun c => Ascii.eqb c ",")) _).
  set (F := ROpt _).
  change (rmatch (RSeq (RStar G) F) s k)
    with (starLoop (rmatch G) (fun s2 => rmatch F s2 k) (String.length s) s).
  subst G F.
  rewrite starLoop_groups.
  - now apply rmatch_fraction.
  - apply le_n.
  - intros x. rewrite rmatch_fraction by exact Hk. apply Hk.
Qed.

(** The backtracking matcher, run on the number pattern, reads what the
    scanner reads. *)
Lemma rmatch_numberPattern s k :
  total k ->
  rmatch numberPattern s k
  = match scanNumberAt s with
    | Some (_, rest) => k rest
    | None => None
    end.
Proof.
  intros Hk. unfold numberPattern, scanNumberAt.
  set (T := RSeq (RStar _) _).
  assert (Htail : total (fun s1 => rmatch T s1 k)).
  { intros x. subst T. rewrite rmatch_groups_fraction by exact Hk. apply Hk. }
  change (rmatch (RSeq (RPlus (RChar isDigit)) T) s k)
    with (match s with
          | String c s' =>
              if isDigit c
              then starLoop (rmatch (RChar isDigit)) (fun s1 => rmatch T s1 k)
                     (String.length s') s'
              else None
          | EmptyString => None
          end).
  destruct s as [|c s]; [ reflexivity | ].
  cbn [spanDigits]. destruct (isDigit c); [ | reflexivity ].
  rewrite starLoop_digits by (auto; apply le_n).
  destruct (spanDigits s) as [ds r1]. cbn [snd].
  subst T. rewrite rmatch_groups_fraction by exact Hk.
  destruct (spanGroups r1) as [gs r2]. cbn [snd].
  destruct (spanFraction r2) as [fr r3]. reflexivity.
Qed.

Lemma substring_prefix a b : substring 0 (String.length a) (a ++ b) = a.
Proof.
  induction a as [|x a IH]; simpl.
  - destruct b; reflexivity.
  - now rewrite IH.
Qed.

Lemma regexExec_numberPattern s : regexExec numberPattern s = scanNumberAt s.
Proof.
  unfold regexExec.
  rewrite rmatch_numberPattern by (intros x; eauto).
  destruct (scanNumberAt s) as [[tok rest]|] eqn:E; [ | reflexivity ].
  destruct (scanNumberAt_sound s tok rest E) as [-> _].
  rewrite length_append, Nat.add_sub, substring_prefix. reflexivity.
Qed.

Lemma matchAllFrom_scan fuel s : matchAllFrom fuel s = scanAllFrom fuel s.
Proof.
  revert s. induction fuel as [|fuel IH]; intros s; [ reflexivity | ].
  cbn [matchAllFrom scanAllFrom]. rewrite regexExec_numberPattern.
  destruct (scanNumberAt s) as [[tok rest]|]; [ now rewrite IH | ].
  destruct s; [ reflexivity | apply IH ].
Qed.

Lemma extractNumbers_scanAll message :
  extractNumbers message
  = map (fun num => parseFloat (removeCommas num)) (scanAll message).
Proof.
  unfold extractNumbers, matchNumbers, scanAll. rewrite matchAllFrom_scan.
  destruct (scanAllFrom (String.length message) message); reflexivity.
Qed.

Lemma scanAll_skip c s :
  isDigit c = false -> scanAll (String c s) = scanAll s.
Proof.
  intros Hc. unfold scanAll. cbn [String.length scanAllFrom].
  unfold scanNumberAt. simpl. rewrite Hc. reflexivity.
Qed.

Lemma scanAll_noDigit s : noDigit s = true -> scanAll s = [].
Proof.
  induction s as [|c s IH]; [ reflexivity | ].
  simpl. intros H. apply andb_true_iff in H as [Hc Hs].
  apply negb_true_iff in Hc. rewrite (scanAll_skip c s Hc). auto.
Qed.

Lemma removeCommas_app a b : removeCommas (a ++ b) = removeCommas a ++ removeCommas b.
Proof.
  induction a as [|c a IH]; simpl; [ reflexivity | ].
  destruct (Ascii.eqb c ","); simpl; now rewrite IH.
Qed.

Lemma keepDigits_app a b : keepDigits (a ++ b) = keepDigits a ++ keepDigits b.
Proof.
  induction a as [|c a IH]; simpl; [ reflexivity | ].
  destruct (isDigit c); simpl; now rewrite IH.
Qed.

Lemma removeCommas_digits ds : allDigits ds = true -> removeCommas ds = ds.
Proof.
  induction ds as [|c ds IH]; simpl; intros H; [ reflexivity | ].
  apply andb_true_iff in H as [Hc Hds].
  now rewrite (isDigit_not_comma c Hc), (IH Hds).
Qed.

Lemma keepDigits_digits ds : allDigits ds = true -> keepDigits ds = ds.
Proof.
  induction ds as [|c ds IH]; simpl; intros H; [ reflexivity | ].
  apply andb_true_iff in H as [Hc Hds]. now rewrite Hc, (IH Hds).
Qed.

Lemma afterDot_digits ds x : allDigits ds = true -> afterDot (ds ++ x) = afterDot x.
Proof.
  induction ds as [|c ds IH]; simpl; intros H; [ reflexivity | ].
  apply andb_true_iff in H as [Hc Hds].
  now rewrite (isDigit_not_dot c Hc), (IH Hds).
Qed.

Lemma groupSeq_removeCommas gs :
  groupSeq gs -> removeCommas gs = keepDigits gs /\ allDigits (keepDigits gs) = true.
Proof.
  induction 1 as [|a b c gs Ha Hb Hc Hgs [IH1 IH2]]; [ split; reflexivity | ].
  cbn [removeCommas keepDigits Ascii.eqb Bool.eqb].
  rewrite isDigit_comma, Ha, Hb, Hc.
  rewrite (isDigit_not_comma a Ha), (isDigit_not_comma b Hb), (isDigit_not_comma c Hc).
  rewrite IH1. cbn [allDigits]. rewrite Ha, Hb, Hc, IH2. split; reflexivity.
Qed.

Lemma groupSeq_afterDot gs x : groupSeq gs -> afterDot (gs ++ x) = afterDot x.
Proof.
  induction 1 as [|a b c gs Ha Hb Hc Hgs IH]; [ reflexivity | ].
  cbn [append afterDot].
  rewrite (isDigit_not_dot a Ha), (isDigit_not_dot b Hb), (isDigit_not_dot c Hc).
  exact IH.
Qed.

Lemma allDigits_app a b : allDigits (a ++ b) = allDigits a && allDigits b.
Proof.
  induction a as [|c a IH]; simpl; [ reflexivity | ].
  now rewrite IH, andb_assoc.
Qed.

(** On a number of the grammar, what the source computes is the decimal
    number it denotes. *)
Lemma parseFloat_numeral tok :
  numeral tok -> parseFloat (removeCommas tok) = decimalNumber tok.
Proof.
  intros [d ds gs fr Hd Hds Hgs Hfr].
  destruct (groupSeq_removeCommas gs Hgs) as [Hrc Hkd].
  assert (HD : allDigits (String d ds ++ keepDigits gs) = true).
  { rewrite allDigits_app, Hkd. simpl. now rewrite Hd, Hds. }
  unfold decimalNumber, parseFloat.
  rewrite !removeCommas_app, !keepDigits_app, Hrc.
  rewrite (removeCommas_digits (String d ds)) by (simpl; now rewrite Hd, Hds).
  rewrite (keepDigits_digits (String d ds)) by (simpl; now rewrite Hd, Hds).
  rewrite (afterDot_digits (String d ds)) by (simpl; now rewrite Hd, Hds).
  rewrite (groupSeq_afterDot gs fr Hgs).
  rewrite <- !append_assoc.
  rewrite (spanDigits_app _ _ HD).
  destruct Hfr as [|f fs Hf Hfs].
  - cbn [removeCommas keepDigits afterDot spanDigits fst snd String.length].
    rewrite !append_nil_r. cbn [append]. reflexivity.
  - cbn [removeCommas]. rewrite (isDigit_not_comma f Hf).
    cbn [Ascii.eqb Bool.eqb].
    rewrite (removeCommas_digits fs Hfs).
    rewrite (spanDigits_nondigit _ _ isDigit_dot). cbn [fst snd].
    cbn [Ascii.eqb Bool.eqb].
    assert (Hsp : spanDigits (String f fs) = (String f fs, "")).
    { rewrite <- (append_nil_r (String f fs)) at 1.
      rewrite spanDigits_app by (simpl; now rewrite Hf, Hfs).
      simpl. now rewrite append_nil_r. }
    rewrite Hsp. cbn [fst].
    cbn [keepDigits afterDot Ascii.eqb Bool.eqb]. rewrite Hf.
    rewrite (keepDigits_digits fs Hfs).
    rewrite !append_nil_r. cbn [append]. reflexivity.
Qed.

Lemma decimalNumber_nonneg tok : nonneg (decimalNumber tok) = true.
Proof. apply of_ratio_nonneg. Qed.

Lemma numeral_head tok : numeral tok -> exists d x, tok = String d x /\ isDigit d = true.
Proof. intros [d ds gs fr Hd _ _ _]. exists d, (ds ++ gs ++ fr). now split. Qed.

Lemma noDigit_no_numeral gap tok rest :
  noDigit (gap ++ tok ++ rest) = true -> numeral tok -> False.
Proof.
  intros H Hn. destruct (numeral_head tok Hn) as [d [x [-> Hd]]].
  induction gap as [|c gap IH]; simpl in H.
  - now rewrite Hd in H.
  - apply andb_true_iff in H as [_ H]. auto.
Qed.

Lemma gap_unique g1 t1 r1 g2 t2 r2 :
  noDigit g1 = true -> noDigit g2 = true -> numeral t1 -> numeral t2 ->
  g1 ++ t1 ++ r1 = g2 ++ t2 ++ r2 -> g1 = g2 /\ t1 ++ r1 = t2 ++ r2.
Proof.
  intros H1 H2 Hn1 Hn2.
  destruct (numeral_head t1 Hn1) as [d1 [x1 [-> Hd1]]].
  destruct (numeral_head t2 Hn2) as [d2 [x2 [-> Hd2]]].
  revert g2 H2. induction g1 as [|c1 g1 IH]; intros [|c2 g2] H2 Heq; simpl in *.
  - now split.
  - inversion Heq; subst. now rewrite Hd1 in H2.
  - inversion Heq; subst. now rewrite Hd2 in H1.
  - inversion Heq; subst.
    apply andb_true_iff in H1 as [_ H1]. apply andb_true_iff in H2 as [_ H2].
    destruct (IH H1 g2 H2 H3) as [-> E]. now split.
Qed.

Lemma append_same_length (a b c d : string) :
  a ++ b = c ++ d -> String.length a = String.length c -> a = c /\ b = d.
Proof.
  revert c. induction a as [|x a IH]; intros [|y c] H Hl; simpl in *; try discriminate.
  - now split.
  - inversion H; subst. destruct (IH c H2 ltac:(lia)) as [-> ->]. now split.
Qed.

Lemma tokenization_inv s toks :
  tokenization s toks ->
  match toks with
  | [] => noDigit s = true
  | tok :: toks' =>
      exists gap rest,
        s = gap ++ tok ++ rest /\ noDigit gap = true /\ numeral tok /\
        (forall tok' post, numeral tok' -> tok ++ rest = tok' ++ post ->
                           (String.length tok' <= String.length tok)%nat) /\
        tokenization rest toks'
  end.
Proof.
  intros [gap Hg|gap tok rest toks' Hg Hn Hmax Hrest]; [ exact Hg | ].
  exists gap, rest. auto.
Qed.

(** The reading of a text into numbers is unique. *)
Lemma tokenization_unique s toks1 toks2 :
  tokenization s toks1 -> tokenization s toks2 -> toks1 = toks2.
Proof.
  intros H1. revert toks2.
  induction H1 as [gap Hg|gap tok rest toks Hg Hn Hmax Hrest IH]; intros toks2 H2;
    apply tokenization_inv in H2; destruct toks2 as [|tok' toks'].
  - reflexivity.
  - destruct H2 as [gap' [rest' [E [Hg' [Hn' _]]]]]. subst gap.
    exfalso. now apply (noDigit_no_numeral gap' tok' rest').
  - exfalso. now apply (noDigit_no_numeral gap tok rest).
  - destruct H2 as [gap' [rest' [E1 [Hg' [Hn' [Hmax' Hrest']]]]]].
    destruct (gap_unique gap' tok' rest' gap tok rest Hg' Hg Hn' Hn (eq_sym E1)) as [-> E].
    assert (Hl : String.length tok' = String.length tok).
    { apply Nat.le_antisymm.
      - apply (Hmax tok' rest' Hn'). now rewrite E.
      - apply (Hmax' tok rest Hn). exact E. }
    destruct (append_same_length _ _ _ _ E Hl) as [-> ->].
    f_equal. now apply IH.
Qed.

(** ** Keyword classifier *)

Lemma registry_names : map fst AIService_mcpTools = registryNames.
Proof. reflexivity. Qed.

Lemma determineRequiredTools_filter message :
  determineRequiredTools message
  = map fst (filter (triggered message) classifierKeywords).
Proof.
  unfold determineRequiredTools, classifierKeywords, triggered.
  cbn [filter map fst snd].
  repeat match goal with
         | |- context [containsAny ?t ?k] => destruct (containsAny t k)
         end; reflexivity.
Qed.

(** C8 (as amended).  For every message, of ASCII text, the classifier
    returns exactly the tools whose keyword list has a keyword occurring in
    the lowercased message, each tool being judged on its own, and it returns them in the
    fixed order in which it consults its keyword lists: searchPropertyInfo,
    calculateMortgage, getInterestRates, getFinancialCalculator,
    getPropertyDetails. *)
Theorem determineRequiredTools_selects_in_classifier_order :
  forall message,
    asciiText message = true ->
    determineRequiredTools message
    = map fst (filter (triggered message) classifierKeywords)
    /\ (forall name,
          In name (determineRequiredTools message) <->
          exists keywords keyword,
            In (name, keywords) classifierKeywords /\ In keyword keywords /\
            occurs keyword (toLowerCase message)).
Proof.
  intros message _. split; [ apply determineRequiredTools_filter | ].
  intros name. rewrite determineRequiredTools_filter, in_map_iff. split.
  - intros [[name' keywords] [Hn Hin]]. simpl in Hn. subst name'.
    apply filter_In in Hin as [Hin Ht]. unfold triggered in Ht. simpl in Ht.
    apply containsAny_spec in Ht as [keyword [Hk Ho]].
    exists keywords, keyword. auto.
  - intros [keywords [keyword [Hin [Hk Ho]]]].
    exists (name, keywords). split; [ reflexivity | ].
    apply filter_In. split; [ exact Hin | ].
    unfold triggered. simpl. apply containsAny_spec. eauto.
Qed.

(** ** Numeric extractor *)

Lemma tokenization_numerals s toks :
  tokenization s toks -> Forall numeral toks.
Proof. induction 1; constructor; auto. Qed.

Lemma scanAll_tokenization s : tokenization s (scanAll s).
Proof. apply scanAllFrom_tokenization. apply le_n. Qed.

Lemma extractNumbers_decimal text :
  extractNumbers text = map decimalNumber (scanAll text).
Proof.
  rewrite extractNumbers_scanAll.
  apply map_ext_in. intros tok Hin.
  apply parseFloat_numeral.
  pose proof (tokenization_numerals _ _ (scanAll_tokenization text)) as Ht.
  rewrite Forall_forall in Ht. auto.
Qed.

(** C7.  For every text, the extractor returns the decimal numbers of the
    text in reading order: the text reads in exactly one way as numbers
    (digits, with groups of a comma and three digits, and decimals behind a
    dot, each taken as long as it goes) separated by stretches without any
    digit, and the result is the sequence of the Numbers these denote;
    a text without a digit yields the empty sequence; and
    "$450,000 with $90,000 down" yields 450000 and 90000 in that order. *)
Theorem extractNumbers_reads_decimal_numbers :
  (forall text,
     exists toks,
       tokenization text toks
       /\ (forall toks', tokenization text toks' -> toks' = toks)
       /\ extractNumbers text = map decimalNumber toks)
  /\ (forall text, noDigit text = true -> extractNumbers text = [])
  /\ extractNumbers "$450,000 with $90,000 down" = [450000%num; 90000%num].
Proof.
  split; [ | split ].
  - intros text. exists (scanAll text).
    pose proof (scanAll_tokenization text) as Ht.
    split; [ exact Ht | split ].
    + intros toks' Ht'. apply (tokenization_unique text toks' (scanAll text) Ht' Ht).
    + apply extractNumbers_decimal.
  - intros text Hno. rewrite extractNumbers_scanAll, (scanAll_noDigit text Hno).
    reflexivity.
  - vm_compute. reflexivity.
Qed.

Lemma extractNumbers_nonneg message :
  Forall (fun n => nonneg n = true) (extractNumbers message).
Proof.
  rewrite (extractNumbers_decimal message).
  apply Forall_forall. intros n Hin. apply in_map_iff in Hin as [tok [<- _]].
  apply decimalNumber_nonneg.
Qed.

(** ** Arithmetic of the calculators *)

Lemma SFdiv_core_nonneg mx ex my ey :
  (0 <= fst (fst (SFdiv_core_binary prec emax (Z.pos mx) ex (Z.pos my) ey)))%Z.
Proof.
  unfold SFdiv_core_binary.
  set (s := (ex - ey - _)%Z).
  set (m' := match s with Z0 => _ | Zpos _ => _ | Zneg _ => _ end).
  assert (Hm : (0 <= m')%Z).
  { subst m'. destruct s; try lia. apply Z.shiftl_nonneg. lia. }
  pose proof (Z_div_mod m' (Z.pos my) ltac:(lia)) as Hr.
  destruct (Z.div_eucl m' (Z.pos my)) as [q r]. simpl. nia.
Qed.

Lemma Ndiv_nonneg x my ey :
  nonneg x = true -> nonneg (x / S754_finite false my ey)%num = true.
Proof.
  destruct x as [[|]|[|]| |[|] mx ex]; try discriminate; intros _; try reflexivity.
  unfold Ndiv, SFdiv.
  pose proof (SFdiv_core_nonneg mx ex my ey) as H.
  destruct (SFdiv_core_binary prec emax (Z.pos mx) ex (Z.pos my) ey) as [[mz ez] lz].
  apply binary_round_aux_nonneg. exact H.
Qed.

Lemma nonneg_positive_or_zero x :
  nonneg x = true -> (x >? 0)%num = negb (SFeqb x 0%num).
Proof. destruct x as [[|]|[|]| |[|] m e]; try discriminate; reflexivity. Qed.

Lemma nonneg_truthy_positive x :
  nonneg x = true -> truthy x = true -> (0 <? x)%num = true.
Proof. destruct x as [[|]|[|]| |[|] m e]; try discriminate; reflexivity. Qed.

Lemma rateOf_nonneg rest :
  Forall (fun n => nonneg n = true) rest -> nonneg (rateOf rest) = true.
Proof.
  destruct rest as [|third rest]; [ reflexivity | ].
  intros H. inversion H; subst. unfold rateOf, num_or.
  destruct (truthy third); [ assumption | reflexivity ].
Qed.

Lemma rateOf_positive rest :
  Forall (fun n => nonneg n = true) rest -> (0 <? rateOf rest)%num = true.
Proof.
  destruct rest as [|third rest]; [ reflexivity | ].
  intros H. inversion H; subst. unfold rateOf, num_or.
  destruct (truthy third) eqn:E; [ now apply nonneg_truthy_positive | reflexivity ].
Qed.

Lemma monthlyRateOf_nonneg rate :
  nonneg rate = true -> nonneg (monthlyRateOf rate) = true.
Proof.
  intros H. unfold monthlyRateOf.
  apply (Ndiv_nonneg _ 6755399441055744 (-49)).
  apply (Ndiv_nonneg _ 7036874417766400 (-46)). exact H.
Qed.

(** What [calculateMortgage] returns on a message with at least two
    numbers is the quote of the specification, at the rate
    [numbers[2] || 7.2]. *)
Lemma calculateMortgage_quote message price down rest :
  extractNumbers message = price :: down :: rest ->
  calculateMortgage message = RMortgage (quoteFor price down (rateOf rest)).
Proof.
  intros H. unfold calculateMortgage. rewrite H.
  cbn [List.length Nat.ltb Nat.leb idx nth].
  assert (Hrate : match nth_error (price :: down :: rest) 2 with
                  | Some third => num_or third 7.2
                  | None => 7.2%num
                  end = rateOf rest) by (destruct rest; reflexivity).
  rewrite Hrate.
  assert (Hnn : nonneg (monthlyRateOf (rateOf rest)) = true).
  { apply monthlyRateOf_nonneg, rateOf_nonneg.
    pose proof (extractNumbers_nonneg message) as Hall. rewrite H in Hall.
    inversion Hall as [|? ? _ Hall']; subst. inversion Hall'; subst. assumption. }
  unfold quoteFor, amortizedPayment, round2.
  change (30 * 12)%num with 360%num.
  change (rateOf rest / 100 / 12)%num with (monthlyRateOf (rateOf rest)).
  rewrite (nonneg_positive_or_zero _ Hnn).
  destruct (SFeqb (monthlyRateOf (rateOf rest)) 0%num); reflexivity.
Qed.

Lemma calculateMortgage_short message :
  (List.length (extractNumbers message) < 2)%nat ->
  calculateMortgage message
  = RError "Please provide property price and down payment for mortgage calculation".
Proof.
  intros H. unfold calculateMortgage.
  apply Nat.ltb_lt in H. now rewrite H.
Qed.

Lemma two_numbers message :
  (2 <= List.length (extractNumbers message))%nat ->
  exists price down rest, extractNumbers message = price :: down :: rest.
Proof.
  destruct (extractNumbers message) as [|price [|down rest]]; simpl; intros H;
    try lia. eauto.
Qed.

(** C6.  On a message with fewer than two numbers, calculateMortgage
    returns a record with an error field; it does not raise, as a function
    or as a registered tool; and calculateMortgageAdvanced returns that
    very record, with no advanced field added. *)
Theorem calculateMortgage_error_record :
  forall message,
    (List.length (extractNumbers message) < 2)%nat ->
    calculateMortgage message
    = RError "Please provide property price and down payment for mortgage calculation"
    /\ calculateMortgageAdvanced message = calculateMortgage message
    /\ (forall ctx t,
          pureTool calculateMortgage message ctx t = (inr (calculateMortgage message), t)
          /\ pureTool calculateMortgageAdvanced message ctx t
             = (inr (calculateMortgage message), t)).
Proof.
  intros message H. pose proof (calculateMortgage_short message H) as E.
  assert (EA : calculateMortgageAdvanced message = calculateMortgage message).
  { unfold calculateMortgageAdvanced. rewrite E. reflexivity. }
  split; [ exact E | split; [ exact EA | ] ].
  intros ctx t. unfold pureTool. rewrite EA. split; reflexivity.
Qed.

Lemma SFcompare_antisym x y :
  SFcompare y x = option_map CompOpp (SFcompare x y).
Proof.
  destruct x as [sx|sx| |sx mx ex], y as [sy|sy| |sy my ey];
    try destruct sx; try destruct sy; try reflexivity;
    cbn [SFcompare option_map];
    rewrite (Z.compare_antisym ex ey);
    change (Pos.compare_cont Eq my mx) with (Pos.compare_cont (CompOpp Eq) my mx);
    rewrite <- (Pos.compare_cont_antisym mx my Eq);
    destruct (ex ?= ey)%Z; cbn [CompOpp]; try reflexivity.
Qed.

Lemma Nge_not_Nlt x y : (x >=? y)%num = true -> (x <? y)%num = false.
Proof.
  unfold Nge, Nlt, SFleb, SFltb. rewrite (SFcompare_antisym x y).
  destruct (SFcompare x y) as [[| |]|]; simpl; congruence.
Qed.

Lemma round2_zero : round2 0 = 0%num.
Proof. reflexivity. Qed.

(** C4 (as amended).  On a message with at least two numbers the advanced
    mortgage result has monthlyPmi = 0 exactly whenever down/price×100, as
    computed and before it is rounded, is at least 20 (or no number), and
    monthlyPmi = (loanAmount×0.5/100)/12 rounded to cents whenever it is
    below 20.  The downPaymentPercent the result reports is that quotient
    rounded to two decimals. *)
Theorem advanced_mortgage_pmi :
  forall message,
    (2 <= List.length (extractNumbers message))%nat ->
    exists q adv,
      calculateMortgage message = RMortgage q
      /\ calculateMortgageAdvanced message = RMortgageAdvanced q adv
      /\ propertyPrice q = idx (extractNumbers message) 0
      /\ downPayment q = idx (extractNumbers message) 1
      /\ loanAmount q = (propertyPrice q - downPayment q)%num
      /\ downPaymentPercent adv = round2 (downPayment q / propertyPrice q * 100)
      /\ ((downPayment q / propertyPrice q * 100 <? 20)%num = false ->
          monthlyPmi adv = 0%num)
      /\ ((downPayment q / propertyPrice q * 100 >=? 20)%num = true ->
          monthlyPmi adv = 0%num)
      /\ ((downPayment q / propertyPrice q * 100 <? 20)%num = true ->
          monthlyPmi adv = round2 (loanAmount q * 0.5 / 100 / 12)).
Proof.
  intros message H.
  destruct (two_numbers message H) as [price [down [rest E]]].
  pose proof (calculateMortgage_quote message price down rest E) as Eq.
  eexists. eexists.
  split; [ exact Eq | ].
  split; [ unfold calculateMortgageAdvanced; rewrite Eq; cbn [has_error get_error get_quote];
           reflexivity | ].
  rewrite E.
  cbn [quoteFor propertyPrice downPayment loanAmount monthlyPmi downPaymentPercent idx nth].
  repeat split.
  - intros Hge. rewrite Hge. reflexivity.
  - intros Hge. rewrite (Nge_not_Nlt _ _ Hge). reflexivity.
  - intros Hlt. rewrite Hlt. reflexivity.
Qed.

(** C5.  getFinancialCalculator looks for "roi", then for "cap rate", in
    the lowercased message, of ASCII text, and either branch needs two
    numbers: with "roi" it returns the second number over the first, times
    100, rounded to two decimals (8 for 100000 and 8000); otherwise with
    "cap rate" it returns the first number over the second, times 100,
    rounded to two decimals (8.33 for 50000 and 600000); and it returns an
    error record when neither keyword occurs or there are fewer than two
    numbers. *)
Theorem getFinancialCalculator_dispatch :
  (forall message first second rest,
     asciiText message = true ->
     extractNumbers message = first :: second :: rest ->
     (occurs "roi" (toLowerCase message) ->
      getFinancialCalculator message
      = RRoi first second (round2 (second / first * 100)))
     /\ (~ occurs "roi" (toLowerCase message) ->
         occurs "cap rate" (toLowerCase message) ->
         getFinancialCalculator message
         = RCapRate first second (round2 (first / second * 100))))
  /\ (forall message,
        asciiText message = true ->
        ~ occurs "roi" (toLowerCase message) ->
        ~ occurs "cap rate" (toLowerCase message) ->
        getFinancialCalculator message
        = RError "Please specify calculation type (ROI or Cap Rate) with required numbers")
  /\ (forall message,
        (List.length (extractNumbers message) < 2)%nat ->
        getFinancialCalculator message
        = RError "Please specify calculation type (ROI or Cap Rate) with required numbers")
  /\ getFinancialCalculator
       "Calculate ROI for $100,000 investment with $8,000 annual return"
     = RRoi 100000 8000 8
  /\ getFinancialCalculator
       "What's the cap rate for property earning $50,000 annually worth $600,000?"
     = RCapRate 50000 600000 8.33.
Proof.
  split; [ | split; [ | split; [ | split ] ] ].
  - intros message first second rest _ E. unfold getFinancialCalculator. rewrite E.
    cbn [List.length Nat.leb idx nth]. rewrite !andb_true_r. split.
    + intros Hroi. apply includes_spec in Hroi. rewrite Hroi. reflexivity.
    + intros Hroi Hcap. apply includes_spec in Hcap. rewrite Hcap.
      destruct (includes (toLowerCase message) "roi") eqn:Er; [ | reflexivity ].
      apply includes_spec in Er. contradiction.
  - intros message _ Hroi Hcap. unfold getFinancialCalculator.
    destruct (includes (toLowerCase message) "roi") eqn:Er;
      [ apply includes_spec in Er; contradiction | ].
    destruct (includes (toLowerCase message) "cap rate") eqn:Ec;
      [ apply includes_spec in Ec; contradiction | ].
    reflexivity.
  - intros message Hlen. unfold getFinancialCalculator.
    assert (El : (2 <=? List.length (extractNumbers message))%nat = false)
      by (apply Nat.leb_gt; exact Hlen).
    rewrite El, !andb_false_r. reflexivity.
  - vm_compute. reflexivity.
  - vm_compute. reflexivity.
Qed.

Lemma rateOf_stated rest : thirdUsable rest -> rateOf rest = statedRate rest.
Proof.
  destruct rest as [|third rest]; [ reflexivity | ].
  simpl. intros H. unfold num_or. now rewrite H.
Qed.


(** The monthly factor at 7.2 percent, raised to the 360th power and
    rounded to nearest. *)
Lemma pow_nearest_at_default_rate :
  pow_nearest (1 + 7.2 / 100 / 12) 360 = S754_finite false 4850012374763297 (-49).
Proof. vm_compute. reflexivity. Qed.

(** 2443.64 is within half a cent of the exact value of the formula for a
    loan of 360000 at 0.6 percent a month over 360 months. *)
Lemma example_payment_exact :
  (Qabs (Qval 2443.64 - amortizationQ 360000 (6 # 1000) 360) <= 5 # 1000)%Q.
Proof. apply Qle_bool_imp_le. vm_compute. reflexivity. Qed.

(** C3 (as amended).  On a message with at least two numbers,
    calculateMortgage takes the first as price, the second as down payment
    and the third, when there is one and it is not zero, as annual rate in
    percent (7.2 when there is none); the term is 30 years; it returns
    loanAmount = price − down and
    monthlyPayment = L·r·(1+r)^n / ((1+r)^n − 1) with r = rate/100/12 and
    n = 360 (L/n when r = 0), where monthlyPayment, totalCost and
    totalInterest are rounded to cents.  For price 450000 and down payment
    90000, with a Math.pow that is off by less than one unit in the last
    place, this yields loanAmount = 360000 and monthlyPayment = 2443.64,
    which is within 0.05 of the exact value of the formula. *)
Theorem calculateMortgage_amortization :
  (forall message price down rest,
     extractNumbers message = price :: down :: rest ->
     thirdUsable rest ->
     calculateMortgage message = RMortgage (quoteFor price down (statedRate rest)))
  /\ (near (Math_pow (1 + 7.2 / 100 / 12) 360) (pow_nearest (1 + 7.2 / 100 / 12) 360) ->
      exists q,
        calculateMortgage "$450,000 with $90,000 down" = RMortgage q
        /\ propertyPrice q = 450000%num
        /\ downPayment q = 90000%num
        /\ interestRate q = 7.2%num
        /\ loanAmount q = 360000%num
        /\ monthlyPayment q = 2443.64%num
        /\ (Qabs (Qval (monthlyPayment q) - amortizationQ 360000 (6 # 1000) 360)
            <= 5 # 100)%Q).
Proof.
  split.
  - intros message price down rest E Hthird.
    rewrite (calculateMortgage_quote message price down rest E).
    now rewrite (rateOf_stated rest Hthird).
  - intros Hpow. rewrite pow_nearest_at_default_rate in Hpow.
    assert (E : extractNumbers "$450,000 with $90,000 down" = [450000%num; 90000%num])
      by (vm_compute; reflexivity).
    eexists. split; [ exact (calculateMortgage_quote _ _ _ _ E) | ].
    unfold quoteFor, amortizedPayment.
    cbn [propertyPrice downPayment interestRate loanAmount monthlyPayment rateOf].
    assert (Er : SFeqb (7.2 / 100 / 12)%num 0%num = false) by (vm_compute; reflexivity).
    rewrite Er.
    do 4 (split; [ vm_compute; reflexivity | ]).
    assert (Em : round2 ((450000 - 90000)
                         * (7.2 / 100 / 12 * Math_pow (1 + 7.2 / 100 / 12) 360)
                         / (Math_pow (1 + 7.2 / 100 / 12) 360 - 1)) = 2443.64%num).
    { destruct Hpow as [H|[H|H]]; rewrite H; vm_compute; reflexivity. }
    rewrite Em. split; [ reflexivity | ].
    eapply Qle_trans; [ apply example_payment_exact | ].
    apply Qle_bool_imp_le. reflexivity.
Qed.

(** C10 (as amended).  On a message with at least two numbers: the
    extractor yields only non-negative numbers; the annual rate
    calculateMortgage uses is strictly positive, a third number equal to
    zero being treated as absent and replaced by 7.2; the monthly rate
    rate/100/12 is never negative; and the branch
    monthlyPayment = loanAmount/360 runs exactly when that monthly rate is
    zero, which a positive rate reaches only when the division
    underflows. *)
Theorem calculateMortgage_rate_positive :
  forall message,
    (2 <= List.length (extractNumbers message))%nat ->
    Forall (fun n => nonneg n = true) (extractNumbers message)
    /\ exists q,
         calculateMortgage message = RMortgage q
         /\ (0 <? interestRate q)%num = true
         /\ (nth_error (extractNumbers message) 2 = Some 0%num ->
             interestRate q = 7.2%num)
         /\ nonneg (monthlyRateOf (interestRate q)) = true
         /\ (SFeqb (monthlyRateOf (interestRate q)) 0%num = true ->
             monthlyPayment q = round2 (loanAmount q / 360))
         /\ (SFeqb (monthlyRateOf (interestRate q)) 0%num = false ->
             monthlyPayment q
             = round2 (loanAmount q
                       * (monthlyRateOf (interestRate q)
                          * Math_pow (1 + monthlyRateOf (interestRate q)) 360)
                       / (Math_pow (1 + monthlyRateOf (interestRate q)) 360 - 1))).
Proof.
  intros message H.
  pose proof (extractNumbers_nonneg message) as Hall.
  split; [ exact Hall | ].
  destruct (two_numbers message H) as [price [down [rest E]]].
  rewrite E in Hall |- *.
  assert (Hrest : Forall (fun n => nonneg n = true) rest).
  { inversion Hall as [|? ? _ Hall']; subst. inversion Hall'; subst. assumption. }
  exists (quoteFor price down (rateOf rest)).
  split; [ apply (calculateMortgage_quote message price down rest E) | ].
  cbn [quoteFor interestRate monthlyPayment loanAmount].
  split; [ apply rateOf_positive, Hrest | ].
  split; [ | split; [ apply monthlyRateOf_nonneg, rateOf_nonneg, Hrest | ] ].
  - destruct rest as [|third rest']; [ discriminate | ].
    cbn [nth_error]. intros Hz. inversion Hz; subst. reflexivity.
  - unfold amortizedPayment.
    change (rateOf rest / 100 / 12)%num with (monthlyRateOf (rateOf rest)).
    split; intros Hr; rewrite Hr; reflexivity.
Qed.

(** ** The composer *)

Lemma lookup_assign_same name v o : lookup name (assign name v o) = Some v.
Proof.
  induction o as [|[k w] o IH]; simpl.
  - now rewrite String.eqb_refl.
  - destruct (String.eqb k name) eqn:E; simpl; rewrite E; auto.
Qed.

Lemma lookup_assign_other name k v o :
  k <> name -> lookup name (assign k v o) = lookup name o.
Proof.
  intros Hne. apply String.eqb_neq in Hne.
  induction o as [|[k' w] o IH]; simpl.
  - now rewrite Hne.
  - destruct (String.eqb k' k) eqn:E; simpl.
    + apply String.eqb_eq in E. subst k'. now rewrite Hne.
    + destruct (String.eqb k' name); auto.
Qed.

Lemma logger_raises_loggable caught raised :
  logger_raises caught = Some raised -> loggable raised = true.
Proof. destruct caught; intros E; inversion E; reflexivity. Qed.

Lemma loggable_raises caught : loggable caught = true -> logger_raises caught = None.
Proof. unfold loggable. destruct (logger_raises caught); [ discriminate | reflexivity ]. Qed.

Lemma logger_error_loggable text caught t :
  loggable caught = true ->
  logger_error text caught t = (inr tt, [Logged "error" text], t).
Proof. intros H. unfold logger_error. now rewrite (loggable_raises caught H). Qed.

Lemma logger_error_raises text caught raised t :
  logger_raises caught = Some raised ->
  logger_error text caught t = (inl raised, [], t).
Proof. intros H. unfold logger_error. now rewrite H. Qed.

(** One turn of the tool loop. *)
Lemma executeTools_step registry toolName rest message ctx acc t :
  executeTools registry (toolName :: rest) message ctx acc t
  = match getTool registry toolName with
    | Some tool =>
        match tool message ctx t with
        | (inr result, t1) =>
            match executeTools registry rest message ctx
                    (assign toolName result acc) t1 with
            | (r, evs, t2) => (r, ToolInvoked toolName :: evs, t2)
            end
        | (inl error, t1) =>
            match logger_raises error with
            | Some raised => (inl raised, [ToolInvoked toolName], t1)
            | None =>
                match executeTools registry rest message ctx
                        (assign toolName (RError ("Failed to execute " ++ toolName)) acc)
                        t1 with
                | (r, evs, t2) =>
                    (r, ToolInvoked toolName
                        :: Logged "error" ("Error executing tool " ++ toolName ++ ":")
                        :: evs, t2)
                end
            end
        end
    | None => executeTools registry rest message ctx acc t
    end.
Proof.
  cbn [executeTools]. unfold bind at 1.
  destruct (getTool registry toolName) as [tool|].
  - unfold try_catch, bind, invoke, ret, logger_error, emit, throw.
    destruct (tool message ctx t) as [[error|result] t1]; cbn [app].
    + destruct (logger_raises error) as [raised|]; cbn [app]; [ reflexivity | ].
      destruct (executeTools registry rest message ctx _ t1) as [[r evs] t2].
      reflexivity.
    + destruct (executeTools registry rest message ctx _ t1) as [[r evs] t2].
      reflexivity.
  - unfold ret.
    destruct (executeTools registry rest message ctx acc t) as [[r evs] t2].
    reflexivity.
Qed.

(** What the tool loop throws, if it throws, is what the logger threw in
    the [catch] of a tool: an error the logger prints. *)
Lemma executeTools_raises_loggable registry toolsToUse message ctx :
  forall acc t raised evs t',
    executeTools registry toolsToUse message ctx acc t = (inl raised, evs, t') ->
    loggable raised = true.
Proof.
  induction toolsToUse as [|toolName rest IH]; intros acc t raised evs t' Hrun.
  - cbn [executeTools] in Hrun. unfold ret in Hrun. discriminate.
  - rewrite executeTools_step in Hrun.
    destruct (getTool registry toolName) as [tool|]; [ | exact (IH _ _ _ _ _ Hrun) ].
    destruct (tool message ctx t) as [[error|result] t1].
    + destruct (logger_raises error) as [raised'|] eqn:El.
      * inversion Hrun; subst. exact (logger_raises_loggable _ _ El).
      * destruct (executeTools registry rest message ctx _ t1) as [[r evs1] t2] eqn:Er.
        inversion Hrun; subst. exact (IH _ _ _ _ _ Er).
    + destruct (executeTools registry rest message ctx _ t1) as [[r evs1] t2] eqn:Er.
      inversion Hrun; subst. exact (IH _ _ _ _ _ Er).
Qed.

(** The tool loop runs to its end when the tools throw nothing but what
    the logger prints: it invokes each selected tool the registry has, in
    order, and leaves an entry for each, the error record where the tool
    threw. *)
Lemma executeTools_runs registry toolsToUse message ctx :
  (forall name tool, getTool registry name = Some tool -> rejectsPrintably tool) ->
  forall acc t,
  exists toolResults evs t',
    executeTools registry toolsToUse message ctx acc t = (inr toolResults, evs, t')
    /\ invocations evs = filter (registered registry) toolsToUse
    /\ completionRequests evs = 0%nat
    /\ (forall name,
          ~ In name (filter (registered registry) toolsToUse) ->
          lookup name toolResults = lookup name acc)
    /\ (forall name,
          In name (filter (registered registry) toolsToUse) ->
          (exists result, lookup name toolResults = Some result)
          /\ (forall tool,
                getTool registry name = Some tool ->
                (forall t0, exists error t1, tool message ctx t0 = (inl error, t1)) ->
                lookup name toolResults = Some (RError ("Failed to execute " ++ name)))
          /\ (forall tool result,
                getTool registry name = Some tool ->
                (forall t0, exists t1, tool message ctx t0 = (inr result, t1)) ->
                lookup name toolResults = Some result)).
Proof.
  intros Hlog.
  induction toolsToUse as [|toolName rest IH]; intros acc t.
  - exists acc, [], t. cbn [executeTools filter]. unfold ret.
    repeat split; auto; contradiction.
  - rewrite executeTools_step. cbn [filter].
    assert (Hreg : registered registry toolName
                   = match getTool registry toolName with
                     | Some _ => true
                     | None => false
                     end) by reflexivity.
    destruct (getTool registry toolName) as [tool|] eqn:Eg; rewrite Hreg.
    + assert (Hstep : forall entry t1,
                ((entry = RError ("Failed to execute " ++ toolName)
                  /\ exists error, tool message ctx t = (inl error, t1))
                 \/ exists t0, tool message ctx t0 = (inr entry, t1)) ->
                exists toolResults evs t',
                  executeTools registry rest message ctx (assign toolName entry acc) t1
                  = (inr toolResults, evs, t')
                  /\ invocations evs = filter (registered registry) rest
                  /\ completionRequests evs = 0%nat
                  /\ (forall name,
                        ~ In name (toolName :: filter (registered registry) rest) ->
                        lookup name toolResults = lookup name acc)
                  /\ (forall name,
                        In name (toolName :: filter (registered registry) rest) ->
                        (exists result, lookup name toolResults = Some result)
                        /\ (forall tool',
                              getTool registry name = Some tool' ->
                              (forall t0, exists error t1',
                                  tool' message ctx t0 = (inl error, t1')) ->
                              lookup name toolResults
                              = Some (RError ("Failed to execute " ++ name)))
                        /\ (forall tool' result,
                              getTool registry name = Some tool' ->
                              (forall t0, exists t1',
                                  tool' message ctx t0 = (inr result, t1')) ->
                              lookup name toolResults = Some result))).
      { intros entry t1 Hentry.
        destruct (IH (assign toolName entry acc) t1)
          as [res [evs [t2 [Hrun [Hinv [Hreq [Hkeep Hent]]]]]]].
        exists res, evs, t2.
        split; [ exact Hrun | ]. split; [ exact Hinv | ]. split; [ exact Hreq | ].
        split.
        - intros name Hout. rewrite (Hkeep name).
          + apply lookup_assign_other. intros ->. apply Hout. now left.
          + intros Hin. apply Hout. now right.
        - intros name Hin.
          destruct (in_dec string_dec name (filter (registered registry) rest)) as [Hr|Hr].
          + apply (Hent name Hr).
          + destruct Hin as [->|Hin]; [ | contradiction ].
            rewrite (Hkeep name Hr), lookup_assign_same.
            split; [ eauto | split ].
            * intros tool' Hg Hthrows. rewrite Eg in Hg. inversion Hg; subst tool'.
              destruct Hentry as [[-> _]|[t0 Ht0]]; [ reflexivity | ].
              destruct (Hthrows t0) as [error [t1' Ht']]. rewrite Ht0 in Ht'. discriminate.
            * intros tool' result Hg Hres. rewrite Eg in Hg. inversion Hg; subst tool'.
              destruct Hentry as [[-> Hthrown]|[t0 Ht0]].
              -- destruct (Hres t) as [t1' Ht']. destruct Hthrown as [error Hthrown].
                 rewrite Hthrown in Ht'. discriminate.
              -- destruct (Hres t0) as [t1' Ht']. rewrite Ht0 in Ht'.
                 inversion Ht'. reflexivity. }
      destruct (tool message ctx t) as [[error|result] t1] eqn:Et.
      * rewrite (loggable_raises error (Hlog toolName tool Eg message ctx t error t1 Et)).
        destruct (Hstep (RError ("Failed to execute " ++ toolName)) t1
                    (or_introl (conj eq_refl (ex_intro _ error eq_refl))))
          as [res [evs [t2 [Hrun [Hinv [Hreq [Hkeep Hent]]]]]]].
        rewrite Hrun. eexists. eexists. eexists.
        split; [ reflexivity | ].
        split; [ cbn [invocations]; now rewrite Hinv | ].
        split; [ exact Hreq | ]. split; assumption.
      * destruct (Hstep result t1 (or_intror (ex_intro _ t Et)))
          as [res [evs [t2 [Hrun [Hinv [Hreq [Hkeep Hent]]]]]]].
        rewrite Hrun. eexists. eexists. eexists.
        split; [ reflexivity | ].
        split; [ cbn [invocations]; now rewrite Hinv | ].
        split; [ exact Hreq | ]. split; assumption.
    + apply IH.
Qed.

Lemma filter_none {A} (f : A -> bool) (l : list A) :
  (forall x, In x l -> f x = false) -> filter f l = [].
Proof.
  induction l as [|x l IH]; intros H; [ reflexivity | ].
  simpl. rewrite (H x (or_introl eq_refl)). apply IH. intros y Hy. apply H. now right.
Qed.

Lemma irrelevant_not_valid text :
  (forall keyword, In keyword propertyKeywords -> ~ occurs keyword (toLowerCase text)) ->
  validatePromptRelevance text
  = {| isValid := false;
       relevanceScore := (0 / 23)%num;
       filteredContent := Some redirectText |}.
Proof.
  intros H. unfold validatePromptRelevance.
  rewrite filter_none; [ reflexivity | ].
  intros keyword Hin. destruct (includes (toLowerCase text) keyword) eqn:E; [ | reflexivity ].
  apply includes_spec in E. exfalso. exact (H keyword Hin E).
Qed.

(** C2.  On an ASCII message in whose lowercased text no keyword of the
    real-estate vocabulary occurs, processMessage returns at once: the
    reply is the fixed redirect text, toolsUsed holds the relevance gate
    alone, there is no property data, and nothing happened but the first
    log line: no tool was invoked and no completion was requested. *)
Theorem irrelevant_message_short_circuits :
  forall registry req text t,
    req_message req = MsgString text ->
    asciiText text = true ->
    (forall keyword, In keyword propertyKeywords -> ~ occurs keyword (toLowerCase text)) ->
    exists resp evs t',
      processMessage registry req t = (inr resp, evs, t')
      /\ response resp = Some redirectText
      /\ toolsUsed resp = ["validatePromptRelevance"]
      /\ propertyData resp = None
      /\ sessionId resp = req_sessionId req
      /\ evs = [Logged "info" "Processing message"]
      /\ invocations evs = []
      /\ completionRequests evs = 0%nat.
Proof.
  intros registry req text t Hmsg _ Hnone.
  unfold processMessage. rewrite Hmsg.
  cbv [bind try_catch now isoNow ret readLength asText logger_info emit].
  rewrite (irrelevant_not_valid text Hnone).
  cbn [isValid negb filteredContent app].
  eexists. eexists. eexists. split; [ reflexivity | ].
  repeat split.
Qed.

Lemma invocations_app evs1 evs2 :
  invocations (evs1 ++ evs2) = (invocations evs1 ++ invocations evs2)%list.
Proof.
  induction evs1 as [|[level text|name|messages] evs1 IH]; simpl; auto.
  now rewrite IH.
Qed.

Lemma completionRequests_app evs1 evs2 :
  completionRequests (evs1 ++ evs2)
  = (completionRequests evs1 + completionRequests evs2)%nat.
Proof.
  induction evs1 as [|[level text|name|messages] evs1 IH]; simpl; auto.
Qed.

(** [call_toLocaleString] invokes nothing, and what it raises is a
    [TypeError]. *)
Lemma call_toLocaleString_quiet field t :
  exists r,
    call_toLocaleString field t = (r, [], t)
    /\ (forall raised, r = inl raised -> loggable raised = true).
Proof.
  destruct field as [x|]; cbv [call_toLocaleString ret throw].
  - eexists. split; [ reflexivity | ]. intros raised Hraised. discriminate.
  - eexists. split; [ reflexivity | ]. intros raised Hraised. now inversion Hraised.
Qed.

(** The templated reply is composed without a tool invocation, a log line
    or a completion request, and what it raises is a [TypeError]. *)
Lemma fallbackResponse_quiet toolResults t :
  exists r,
    fallbackResponse toolResults t = (r, [], t)
    /\ (forall raised, r = inl raised -> loggable raised = true).
Proof.
  unfold fallbackResponse.
  destruct (0 <? List.length toolResults)%nat;
    [ | eexists; split; [ reflexivity | intros raised Hraised; discriminate ] ].
  destruct (lookup "calculateMortgage" toolResults) as [calc|].
  - destruct (has_error calc); cbn [negb].
    + cbv [bind ret]. eexists. split; [ reflexivity | ]. intros raised Hraised. discriminate.
    + unfold bind.
      destruct (call_toLocaleString_quiet (option_map propertyPrice (get_quote calc)) t)
        as [r1 [-> Hr1]].
      destruct r1 as [e|price]; [ eexists; split; [ reflexivity | exact Hr1 ] | ].
      destruct (call_toLocaleString_quiet (option_map downPayment (get_quote calc)) t)
        as [r2 [-> Hr2]].
      destruct r2 as [e|down]; [ eexists; split; [ reflexivity | exact Hr2 ] | ].
      destruct (call_toLocaleString_quiet (option_map monthlyPayment (get_quote calc)) t)
        as [r3 [-> Hr3]].
      destruct r3 as [e|monthly]; [ eexists; split; [ reflexivity | exact Hr3 ] | ].
      destruct (call_toLocaleString_quiet (option_map totalInterest (get_quote calc)) t)
        as [r4 [-> Hr4]].
      destruct r4 as [e|interest]; [ eexists; split; [ reflexivity | exact Hr4 ] | ].
      cbv [ret]. eexists. split; [ reflexivity | ]. intros raised Hraised. discriminate.
  - cbv [bind ret]. eexists. split; [ reflexivity | ]. intros raised Hraised. discriminate.
Qed.

(** [generateAIResponse] asks for one completion and invokes no tool; when
    the endpoint answers, the answer is the reply and nothing is logged;
    what it raises comes from the logger or the template and is a
    [TypeError]. *)
Lemma generateAIResponse_outcome message toolResults t :
  exists r evs,
    generateAIResponse message toolResults t = (r, evs, t)
    /\ invocations evs = []
    /\ completionRequests evs = 1%nat
    /\ (forall reply,
          openai_complete (buildMessages message toolResults) = inr reply ->
          r = inr reply /\ evs = [CompletionRequested (buildMessages message toolResults)])
    /\ (forall raised, r = inl raised -> loggable raised = true).
Proof.
  unfold generateAIResponse, try_catch, request_completion.
  destruct (openai_complete (buildMessages message toolResults)) as [error|reply].
  - unfold bind, logger_error.
    destruct (logger_raises error) as [raised|] eqn:El.
    + cbv [throw]. eexists. eexists. split; [ reflexivity | ].
      repeat split; try discriminate.
      intros raised' Hraised. inversion Hraised; subst raised'.
      exact (logger_raises_loggable _ _ El).
    + cbv [emit].
      destruct (fallbackResponse_quiet toolResults t) as [r [-> Hr]].
      eexists. eexists. split; [ reflexivity | ].
      repeat split; try discriminate. exact Hr.
  - eexists. eexists. split; [ reflexivity | ].
    repeat split; congruence.
Qed.

(** The body of [processMessage] on a relevant message, stage by stage: the
    tool loop, the reply, the response record; a stage that raises a value
    the logger prints is answered by the apology. *)
Lemma processMessage_relevant registry req text t :
  req_message req = MsgString text ->
  isValid (validatePromptRelevance text) = true ->
  forall r1 evs1 t1,
    executeTools registry (determineRequiredTools text) text
      {| ctx_userId := req_userId req; ctx_sessionId := req_sessionId req |} [] (S t)
    = (r1, evs1, t1) ->
    match r1 with
    | inl raised =>
        loggable raised = true ->
        exists resp,
          processMessage registry req t
          = (inr resp,
             Logged "info" "Processing message"
             :: evs1 ++ [Logged "error" "Error in processMessage:"],
             S (S t1))
          /\ response resp = Some apology /\ toolsUsed resp = []
          /\ propertyData resp = None /\ sessionId resp = req_sessionId req
          /\ timestamp resp = Date_toISOString t1
          /\ executionTime resp = (Date_now (S t1) - Date_now t)%num
    | inr toolResults =>
        forall r2 evs2,
          generateAIResponse text toolResults t1 = (r2, evs2, t1) ->
          match r2 with
          | inl raised =>
              loggable raised = true ->
              exists resp,
                processMessage registry req t
                = (inr resp,
                   Logged "info" "Processing message"
                   :: evs1 ++ evs2 ++ [Logged "error" "Error in processMessage:"],
                   S (S t1))
                /\ response resp = Some apology /\ toolsUsed resp = []
                /\ propertyData resp = None /\ sessionId resp = req_sessionId req
                /\ timestamp resp = Date_toISOString t1
                /\ executionTime resp = (Date_now (S t1) - Date_now t)%num
          | inr reply =>
              exists resp,
                processMessage registry req t
                = (inr resp, Logged "info" "Processing message" :: evs1 ++ evs2,
                   S (S t1))
                /\ response resp = Some reply
                /\ toolsUsed resp = "validatePromptRelevance" :: determineRequiredTools text
                /\ propertyData resp = extractPropertyData toolResults
                /\ sessionId resp = req_sessionId req
                /\ timestamp resp = Date_toISOString t1
                /\ executionTime resp = (Date_now (S t1) - Date_now t)%num
          end
    end.
Proof.
  intros Hmsg Hvalid r1 evs1 t1 Hrun.
  destruct r1 as [raised|toolResults].
  - intros Hlog. unfold processMessage. rewrite Hmsg.
    cbv [bind try_catch now isoNow ret readLength asText logger_info emit].
    rewrite Hvalid. cbn [negb]. rewrite Hrun.
    rewrite (logger_error_loggable _ _ _ Hlog). cbv [emit].
    eexists. split; [ cbn [app]; reflexivity | ]. repeat split.
  - intros r2 evs2 Hgen. destruct r2 as [raised|reply].
    + intros Hlog. unfold processMessage. rewrite Hmsg.
      cbv [bind try_catch now isoNow ret readLength asText logger_info emit].
      rewrite Hvalid. cbn [negb]. rewrite Hrun, Hgen.
      rewrite (logger_error_loggable _ _ _ Hlog). cbv [emit].
      eexists. split; [ cbn [app]; rewrite <- ?app_assoc; reflexivity | ].
      repeat split.
    + unfold processMessage. rewrite Hmsg.
      cbv [bind try_catch now isoNow ret readLength asText logger_info emit].
      rewrite Hvalid. cbn [negb]. rewrite Hrun, Hgen.
      eexists.
      split; [ cbn [app]; rewrite ?app_nil_r, <- ?app_assoc; reflexivity | ].
      repeat split.
Qed.

(** Whatever the registry holds and whatever is sent, [processMessage]
    resolves: what its stages raise, the logger prints. *)
Lemma processMessage_returns registry req t :
  exists resp evs t', processMessage registry req t = (inr resp, evs, t').
Proof.
  destruct (req_message req) as [text| |] eqn:Em.
  - destruct (isValid (validatePromptRelevance text)) eqn:Ev.
    + destruct (executeTools registry (determineRequiredTools text) text
                  {| ctx_userId := req_userId req; ctx_sessionId := req_sessionId req |}
                  [] (S t)) as [[r1 evs1] t1] eqn:Er.
      pose proof (processMessage_relevant registry req text t Em Ev r1 evs1 t1 Er) as H.
      destruct r1 as [raised|toolResults].
      * destruct (H (executeTools_raises_loggable _ _ _ _ _ _ _ _ _ Er))
          as [resp [Hp _]]. eauto.
      * destruct (generateAIResponse_outcome text toolResults t1)
          as [r2 [evs2 [Hgen [_ [_ [_ Hraise]]]]]].
        specialize (H r2 evs2 Hgen). destruct r2 as [raised|reply].
        -- destruct (H (Hraise raised eq_refl)) as [resp [Hp _]]. eauto.
        -- destruct H as [resp [Hp _]]. eauto.
    + unfold processMessage. rewrite Em.
      cbv [bind try_catch now isoNow ret readLength asText logger_info emit].
      rewrite Ev. cbn [negb]. eauto.
  - unfold processMessage. rewrite Em.
    cbv [bind try_catch now isoNow ret throw readLength asText logger_info
           logger_error logger_raises emit].
    eauto.
  - unfold processMessage. rewrite Em.
    cbv [bind try_catch now isoNow ret throw readLength asText logger_info
           logger_error logger_raises emit].
    eauto.
Qed.


Lemma occurs_refl k : occurs k k.
Proof. exists "", "". simpl. now rewrite append_nil_r. Qed.

Lemma occurs_app_l k a b : occurs k a -> occurs k (a ++ b).
Proof.
  intros [pre [post ->]]. exists pre, (post ++ b). now rewrite !append_assoc.
Qed.

Lemma occurs_app_r k a b : occurs k b -> occurs k (a ++ b).
Proof.
  intros [pre [post ->]]. exists (a ++ pre), post. now rewrite !append_assoc.
Qed.

Local Ltac find_occurrence :=
  solve [ apply occurs_refl
        | apply occurs_app_l; find_occurrence
        | apply occurs_app_r; find_occurrence ].

(** The tools the constructor registers reject nothing. *)
Lemma service_tools_resolve toolName tool :
  getTool AIService_mcpTools toolName = Some tool ->
  forall message ctx t, exists result t1, tool message ctx t = (inr result, t1).
Proof.
  unfold AIService_mcpTools. cbn [getTool].
  repeat match goal with
         | |- context [String.eqb ?k toolName] => destruct (String.eqb k toolName)
         end;
    intros E message ctx t; try discriminate; inversion E; subst;
    eexists; eexists; reflexivity.
Qed.

Lemma service_rejectsPrintably toolName tool :
  getTool AIService_mcpTools toolName = Some tool -> rejectsPrintably tool.
Proof.
  intros Hg message ctx t error t1 Hthrow.
  destruct (service_tools_resolve toolName tool Hg message ctx t) as [result [t2 Hres]].
  rewrite Hres in Hthrow. discriminate.
Qed.

(** Every name the classifier selects is one the constructor registers. *)
Lemma service_registers_selection text :
  filter (registered AIService_mcpTools) (determineRequiredTools text)
  = determineRequiredTools text.
Proof.
  rewrite determineRequiredTools_filter.
  unfold classifierKeywords. cbn [filter].
  repeat match goal with
         | |- context [triggered text ?e] => destruct (triggered text e)
         end; reflexivity.
Qed.

(** With the service's own tools, the calculateMortgage entry of the
    results is an error record or a quote. *)
Lemma executeTools_mortgage_shaped toolsToUse message ctx :
  forall acc t,
    mortgageEntryShaped acc ->
    forall toolResults evs t',
      executeTools AIService_mcpTools toolsToUse message ctx acc t
      = (inr toolResults, evs, t') ->
      mortgageEntryShaped toolResults.
Proof.
  induction toolsToUse as [|toolName rest IH]; intros acc t Hacc res evs t' Hrun.
  - cbn [executeTools] in Hrun. unfold ret in Hrun. inversion Hrun; subst. exact Hacc.
  - rewrite executeTools_step in Hrun.
    destruct (getTool AIService_mcpTools toolName) as [tool|] eqn:Eg;
      [ | exact (IH acc t Hacc res evs t' Hrun) ].
    assert (Hshape : forall entry t1,
               (entry = RError ("Failed to execute " ++ toolName)
                \/ exists t0, tool message ctx t0 = (inr entry, t1)) ->
               mortgageEntryShaped (assign toolName entry acc)).
    { intros entry t1 Hentry calc Hl.
      destruct (string_dec toolName "calculateMortgage") as [->|Hne].
      - rewrite lookup_assign_same in Hl. inversion Hl; subst calc.
        destruct Hentry as [->|[t0 Ht0]]; [ left; reflexivity | ].
        cbn in Eg. inversion Eg; subst tool. unfold pureTool in Ht0.
        inversion Ht0; subst entry.
        unfold calculateMortgage.
        destruct (List.length (extractNumbers message) <? 2)%nat;
          [ left; reflexivity | right; eexists; reflexivity ].
      - rewrite (lookup_assign_other _ _ _ _ Hne) in Hl. exact (Hacc calc Hl). }
    destruct (tool message ctx t) as [[error|result] t1] eqn:Et.
    + destruct (logger_raises error); [ discriminate | ].
      destruct (executeTools AIService_mcpTools rest message ctx _ t1)
        as [[r evs1] t2] eqn:Er.
      inversion Hrun; subst.
      exact (IH _ t1 (Hshape _ t1 (or_introl eq_refl)) res evs1 t' Er).
    + destruct (executeTools AIService_mcpTools rest message ctx _ t1)
        as [[r evs1] t2] eqn:Er.
      inversion Hrun; subst.
      exact (IH _ t1 (Hshape _ t1 (or_intror (ex_intro _ t Et))) res evs1 t' Er).
Qed.

(** The [catch] of [generateAIResponse], for a failure the logger prints. *)
Lemma generateAIResponse_fallback message toolResults error t :
  openai_complete (buildMessages message toolResults) = inl error ->
  loggable error = true ->
  mortgageEntryShaped toolResults ->
  exists reply,
    generateAIResponse message toolResults t
    = (inr reply,
       [ CompletionRequested (buildMessages message toolResults);
         Logged "error" "Error generating AI response:" ],
       t)
    /\ (forall calc q,
          lookup "calculateMortgage" toolResults = Some calc ->
          has_error calc = false ->
          get_quote calc = Some q ->
          occurs ("- Monthly payment: $" ++ toLocaleString (monthlyPayment q) ++ nl) reply
          /\ occurs (toLocaleString (monthlyPayment q)) reply)
    /\ (toolResults = [] -> reply = genericReply).
Proof.
  intros Hfail Hlog Hshape.
  unfold generateAIResponse, try_catch, request_completion. rewrite Hfail.
  unfold bind at 1. rewrite (logger_error_loggable _ _ _ Hlog).
  unfold fallbackResponse.
  destruct toolResults as [|entry others] eqn:Etr.
  - cbn [List.length Nat.ltb Nat.leb]. unfold ret.
    eexists. split; [ reflexivity | ]. split; [ | reflexivity ].
    intros calc q Hl. discriminate.
  - rewrite <- Etr in *. assert (Hlen : (0 <? List.length toolResults)%nat = true)
      by (rewrite Etr; reflexivity).
    rewrite Hlen.
    destruct (lookup "calculateMortgage" toolResults) as [calc|] eqn:El.
    + destruct (has_error calc) eqn:Eh.
      * cbn [negb]. unfold bind, ret. cbn [app].
        eexists. split; [ reflexivity | ]. split.
        -- intros calc' q Hl He. inversion Hl; subst calc'. congruence.
        -- intros ->. discriminate.
      * destruct (Hshape calc El) as [He|[q Hq]]; [ congruence | ].
        rewrite Hq. cbn [negb option_map call_toLocaleString]. unfold bind, ret.
        cbn [app].
        eexists. split; [ reflexivity | ]. split.
        -- intros calc' q' Hl _ Hq'. inversion Hl; subst calc'.
           rewrite Hq in Hq'. inversion Hq'; subst q'.
           destruct (lookup "searchPropertyInfo" toolResults);
             destruct (lookup "getInterestRates" toolResults);
             split; find_occurrence.
        -- intros ->. discriminate.
    + unfold bind, ret. cbn [app].
      eexists. split; [ reflexivity | ]. split.
      * intros calc q Hl. discriminate.
      * intros ->. discriminate.
Qed.

(** The whole of [processMessage] on a relevant message while the endpoint
    fails with what the logger prints, with the service's own registry. *)
Lemma processMessage_endpoint_down req text t :
  req_message req = MsgString text ->
  isValid (validatePromptRelevance text) = true ->
  (forall messages,
      exists error, openai_complete messages = inl error /\ loggable error = true) ->
  exists resp evs t' reply,
    AIService_processMessage req t = (inr resp, evs, t')
    /\ response resp = Some reply
    /\ toolsUsed resp = "validatePromptRelevance" :: determineRequiredTools text
    /\ invocations evs = determineRequiredTools text
    /\ (forall q,
          In "calculateMortgage" (determineRequiredTools text) ->
          calculateMortgage text = RMortgage q ->
          occurs (toLocaleString (monthlyPayment q)) reply)
    /\ (determineRequiredTools text = [] -> reply = genericReply).
Proof.
  intros Hmsg Hvalid Hdown.
  set (ctx := {| ctx_userId := req_userId req; ctx_sessionId := req_sessionId req |}).
  destruct (executeTools_runs AIService_mcpTools (determineRequiredTools text) text ctx
              service_rejectsPrintably [] (S t))
    as [toolResults [evs1 [t1 [Hrun [Hinv [Hreq [Hkeep Hent]]]]]]].
  assert (Hshape : mortgageEntryShaped toolResults).
  { apply (executeTools_mortgage_shaped (determineRequiredTools text) text ctx [] (S t)
             ltac:(intros calc Hl; discriminate) toolResults evs1 t1 Hrun). }
  destruct (Hdown (buildMessages text toolResults)) as [error [Herr Hlog]].
  destruct (generateAIResponse_fallback text toolResults error t1 Herr Hlog Hshape)
    as [reply [Hgen [Hfig Hgeneric]]].
  destruct (processMessage_relevant AIService_mcpTools req text t Hmsg Hvalid
              (inr toolResults) evs1 t1 Hrun (inr reply) _ Hgen)
    as [resp [Hp [Hresp [Hused _]]]].
  exists resp. eexists. eexists. exists reply.
  split; [ exact Hp | ]. split; [ exact Hresp | ]. split; [ exact Hused | ].
  split; [ | split ].
  - cbn [invocations]. rewrite invocations_app. cbn [invocations].
    rewrite app_nil_r, Hinv. apply service_registers_selection.
  - intros q Hsel Hq.
    assert (Hf : In "calculateMortgage"
                   (filter (registered AIService_mcpTools) (determineRequiredTools text))).
    { apply filter_In. split; [ exact Hsel | reflexivity ]. }
    destruct (Hent "calculateMortgage" Hf) as [_ [_ Hres]].
    assert (Hl : lookup "calculateMortgage" toolResults = Some (RMortgage q)).
    { apply (Hres (pureTool calculateMortgage) (RMortgage q) eq_refl).
      intros t0. exists t0. unfold pureTool. now rewrite Hq. }
    apply (proj2 (Hfig (RMortgage q) q Hl eq_refl eq_refl)).
  - intros Hnone. apply Hgeneric.
    rewrite Hnone in Hrun. cbn [executeTools] in Hrun. unfold ret in Hrun.
    now inversion Hrun.
Qed.

(** C9 (as amended).  When the completion request fails with a value the
    logger prints, generateAIResponse does not raise but returns the
    templated reply: if the calculateMortgage result is there without an
    error, the reply contains its monthlyPayment as toLocaleString renders
    it; if there is no tool result at all, the reply is the generic
    description of what the assistant can do.  (The calculateMortgage entry
    is an error record or a quote, as the service's own tools leave it on
    the tools the classifier names.)
    So it is in the whole of processMessage: on a relevant ASCII message,
    with such a failure of the endpoint, the response carries that
    reply. *)
Theorem fallback_reply :
  (forall message toolResults error t,
     openai_complete (buildMessages message toolResults) = inl error ->
     loggable error = true ->
     mortgageEntryShaped toolResults ->
     exists reply,
       generateAIResponse message toolResults t
       = (inr reply,
          [ CompletionRequested (buildMessages message toolResults);
            Logged "error" "Error generating AI response:" ],
          t)
       /\ (forall calc q,
             lookup "calculateMortgage" toolResults = Some calc ->
             has_error calc = false ->
             get_quote calc = Some q ->
             occurs ("- Monthly payment: $" ++ toLocaleString (monthlyPayment q) ++ nl) reply
             /\ occurs (toLocaleString (monthlyPayment q)) reply)
       /\ (toolResults = [] -> reply = genericReply))
  /\ (forall toolsToUse message ctx t toolResults evs t',
        (forall name, In name toolsToUse -> In name (map fst classifierKeywords)) ->
        executeTools AIService_mcpTools toolsToUse message ctx [] t
        = (inr toolResults, evs, t') ->
        mortgageEntryShaped toolResults)
  /\ (forall req text t,
        req_message req = MsgString text ->
        asciiText text = true ->
        isValid (validatePromptRelevance text) = true ->
        (forall messages,
            exists error, openai_complete messages = inl error /\ loggable error = true) ->
        exists resp evs t' reply,
          AIService_processMessage req t = (inr resp, evs, t')
          /\ response resp = Some reply
          /\ toolsUsed resp = "validatePromptRelevance" :: determineRequiredTools text
          /\ invocations evs = determineRequiredTools text
          /\ (forall q,
                In "calculateMortgage" (determineRequiredTools text) ->
                calculateMortgage text = RMortgage q ->
                occurs (toLocaleString (monthlyPayment q)) reply)
          /\ (determineRequiredTools text = [] -> reply = genericReply)).
Proof.
  split; [ | split ].
  - intros message toolResults error t.
    apply generateAIResponse_fallback.
  - intros toolsToUse message ctx t toolResults evs t' _ Hrun.
    apply (executeTools_mortgage_shaped toolsToUse message ctx [] t
             ltac:(intros calc Hl; discriminate) toolResults evs t' Hrun).
  - intros req text t Hmsg _. apply processMessage_endpoint_down. exact Hmsg.
Qed.

(* ================================================================== *)
(** * Further properties of the service *)
(* ================================================================== *)

(** ** The relevance gate *)

Lemma relevanceScore_bounds (k : nat) :
  (k <= 23)%nat ->
  (0 <=? of_Z (Z.of_nat k) / of_Z 23)%num = true
  /\ (of_Z (Z.of_nat k) / of_Z 23 <=? 1)%num = true
  /\ ((0 <? of_Z (Z.of_nat k) / of_Z 23)%num = (0 <? k)%nat).
Proof.
  intros Hk.
  do 24 (destruct k as [|k]; [ vm_compute; repeat split; reflexivity | ]).
  lia.
Qed.

Lemma filter_nonempty {A} (f : A -> bool) (l : list A) :
  (0 <? List.length (filter f l))%nat = true <-> exists x, In x l /\ f x = true.
Proof.
  split.
  - destruct (filter f l) as [|x xs] eqn:E; [ discriminate | ].
    intros _. exists x. apply filter_In. rewrite E. now left.
  - intros [x Hx]. apply filter_In in Hx.
    destruct (filter f l); [ contradiction | reflexivity ].
Qed.

(** X1.  The relevance gate accepts an ASCII message exactly when a
    keyword of its vocabulary occurs in the lowercased message; the
    redirect text is set exactly when it rejects; and the relevance score,
    the share of the vocabulary that occurs, lies between 0 and 1 and is
    positive exactly when the message is accepted. *)
Theorem validatePromptRelevance_accepts_on_keyword :
  forall message,
    asciiText message = true ->
    (isValid (validatePromptRelevance message) = true <->
     exists keyword,
       In keyword propertyKeywords /\ occurs keyword (toLowerCase message))
    /\ filteredContent (validatePromptRelevance message)
       = (if isValid (validatePromptRelevance message) then None else Some redirectText)
    /\ (0 <=? relevanceScore (validatePromptRelevance message))%num = true
    /\ (relevanceScore (validatePromptRelevance message) <=? 1)%num = true
    /\ (0 <? relevanceScore (validatePromptRelevance message))%num
       = isValid (validatePromptRelevance message).
Proof.
  intros message _. unfold validatePromptRelevance.
  cbn [isValid filteredContent relevanceScore].
  set (hits := filter (fun keyword => includes (toLowerCase message) keyword)
                 propertyKeywords).
  assert (Hle : (List.length hits <= 23)%nat)
    by apply (filter_length_le _ propertyKeywords).
  destruct (relevanceScore_bounds (List.length hits) Hle) as [H0 [H1 Hpos]].
  split; [ | split; [ reflexivity | split; [ exact H0 | split; [ exact H1 | exact Hpos ] ] ] ].
  unfold hits. rewrite filter_nonempty.
  split; intros [keyword [Hin Hocc]]; exists keyword; split; auto;
    now apply includes_spec.
Qed.

(** ** The numeric extractor *)

(** X2.  The extractor returns no number exactly when the text has no
    digit. *)
Theorem extractNumbers_empty_iff_no_digit :
  forall text, extractNumbers text = [] <-> noDigit text = true.
Proof.
  intros text. rewrite extractNumbers_decimal. split.
  - intros E. pose proof (scanAll_tokenization text) as Htok.
    destruct (scanAll text) as [|tok toks]; [ | discriminate ].
    exact (tokenization_inv text [] Htok).
  - intros Hno. now rewrite scanAll_noDigit.
Qed.

Lemma numeralChars_app a b : numeralChars (a ++ b) = numeralChars a && numeralChars b.
Proof.
  induction a as [|c a IH]; simpl; [ reflexivity | ].
  now rewrite IH, andb_assoc.
Qed.

Lemma allDigits_numeralChars ds : allDigits ds = true -> numeralChars ds = true.
Proof.
  induction ds as [|c ds IH]; simpl; [ reflexivity | ].
  intros H. apply andb_prop in H. destruct H as [Hc Hds].
  unfold numeralChar. now rewrite Hc, IH.
Qed.

Lemma numeral_numeralChars tok : numeral tok -> numeralChars tok = true.
Proof.
  intros [d ds gs fr Hd Hds Hgs Hfr].
  rewrite !numeralChars_app.
  rewrite (allDigits_numeralChars (String d ds)) by (simpl; now rewrite Hd).
  assert (Hg : numeralChars gs = true).
  { induction Hgs as [|a b c gs Ha Hb Hc Hgs IH]; [ reflexivity | ].
    simpl. unfold numeralChar. rewrite Ha, Hb, Hc, IH. reflexivity. }
  rewrite Hg.
  destruct Hfr as [|x xs Hx Hxs]; [ reflexivity | ].
  cbn [numeralChars]. rewrite (allDigits_numeralChars xs Hxs).
  unfold numeralChar. rewrite Hx. reflexivity.
Qed.

(** A prefix written with the characters of numbers ends before a
    character that is none of them. *)
Lemma numeral_prefix_before x c y tok' post :
  numeralChar c = false -> numeralChars tok' = true ->
  x ++ String c y = tok' ++ post -> exists p, x = tok' ++ p.
Proof.
  intros Hc. revert tok'.
  induction x as [|a x IH]; intros tok' Htok E.
  - destruct tok' as [|c' tok'']; [ now exists "" | ].
    simpl in E. inversion E; subst c'. simpl in Htok. now rewrite Hc in Htok.
  - destruct tok' as [|a' tok'']; [ now exists (String a x) | ].
    simpl in E. inversion E; subst a'. simpl in Htok.
    apply andb_prop in Htok. destruct Htok as [_ Htok].
    destruct (IH tok'' Htok H1) as [p ->]. now exists p.
Qed.

Lemma tokenization_gap gap s toks :
  noDigit gap = true -> tokenization s toks -> tokenization (gap ++ s) toks.
Proof.
  induction gap as [|c gap IH]; simpl; intros Hg Ht; [ exact Ht | ].
  apply andb_prop in Hg. destruct Hg as [Hc Hg].
  apply tokenization_skip; [ now apply negb_true_iff | now apply IH ].
Qed.

Lemma tokenization_separated a c b ta tb :
  numeralChar c = false ->
  tokenization a ta -> tokenization b tb ->
  tokenization (a ++ String c b) (ta ++ tb).
Proof.
  intros Hc Ha Hb.
  assert (Hd : isDigit c = false).
  { unfold numeralChar in Hc. destruct (isDigit c); [ discriminate | reflexivity ]. }
  induction Ha as [gap Hgap|gap tok rest toks Hgap Hnum Hmax Hrest IH].
  - cbn [app]. apply tokenization_gap; [ exact Hgap | ].
    now apply tokenization_skip.
  - rewrite !append_assoc. cbn [app]. apply tokens_next; auto.
    intros tok' post Hnum' E. rewrite <- append_assoc in E.
    destruct (numeral_prefix_before _ c b tok' post Hc
                (numeral_numeralChars tok' Hnum') E) as [p Hp].
    exact (Hmax tok' p Hnum' Hp).
Qed.

(** X3.  The extractor distributes over a separator: around a character
    that is no digit, comma or dot, the numbers of the text are those of
    the part before it followed by those of the part behind it; no number
    reaches across. *)
Theorem extractNumbers_separator :
  forall a c b,
    isDigit c = false -> c <> ","%char -> c <> "."%char ->
    extractNumbers (a ++ String c b) = (extractNumbers a ++ extractNumbers b)%list.
Proof.
  intros a c b Hd Hcomma Hdot.
  assert (Hc : numeralChar c = false).
  { unfold numeralChar. rewrite Hd.
    apply Ascii.eqb_neq in Hcomma. apply Ascii.eqb_neq in Hdot.
    now rewrite Hcomma, Hdot. }
  rewrite !extractNumbers_decimal, <- map_app. f_equal.
  apply (tokenization_unique (a ++ String c b)).
  - apply scanAll_tokenization.
  - apply tokenization_separated; auto using scanAll_tokenization.
Qed.

(** ** Locations and interest rates *)

Lemma find_first {A} (f : A -> bool) (l : list A) (x : A) :
  find f l = Some x <->
  exists before after,
    l = (before ++ x :: after)%list /\ f x = true
    /\ forall y, In y before -> f y = false.
Proof.
  split.
  - induction l as [|a l IH]; simpl; [ discriminate | ].
    destruct (f a) eqn:Ea.
    + intros E. inversion E; subst a. exists [], l. repeat split; auto.
      intros y [].
    + intros E. destruct (IH E) as [before [after [-> [Hx Hb]]]].
      exists (a :: before), after. repeat split; auto.
      intros y [<-|Hy]; auto.
  - intros [before [after [-> [Hx Hb]]]].
    induction before as [|a before IH]; simpl.
    + now rewrite Hx.
    + rewrite (Hb a (or_introl eq_refl)). apply IH.
      intros y Hy. apply Hb. now right.
Qed.

Lemma find_none_iff {A} (f : A -> bool) (l : list A) :
  find f l = None <-> forall x, In x l -> f x = false.
Proof.
  split; [ apply find_none | ].
  induction l as [|a l IH]; simpl; intros H; [ reflexivity | ].
  rewrite (H a (or_introl eq_refl)). apply IH. intros x Hx. apply H. now right.
Qed.

Lemma includes_false text keyword :
  includes text keyword = false <-> ~ occurs keyword text.
Proof.
  rewrite <- includes_spec. destruct (includes text keyword); split; congruence.
Qed.

(** X4.  On an ASCII message extractLocation returns the first place
    name of its list, in the order of the list and not of the message,
    that occurs in the lowercased message, with its first letter in upper
    case; it returns nothing exactly when none of them occurs. *)
Theorem extractLocation_first_listed :
  forall message,
    asciiText message = true ->
    (forall loc,
       extractLocation message = Some loc <->
       exists before l after,
         commonLocations = (before ++ l :: after)%list
         /\ loc = capitalize l
         /\ occurs l (toLowerCase message)
         /\ forall l', In l' before -> ~ occurs l' (toLowerCase message))
    /\ (extractLocation message = None <->
        forall l, In l commonLocations -> ~ occurs l (toLowerCase message)).
Proof.
  intros message _. unfold extractLocation. split.
  - intros loc. split.
    + destruct (find _ commonLocations) as [l|] eqn:E; [ | discriminate ].
      cbn [option_map]. intros Hl. inversion Hl; subst loc.
      apply find_first in E. destruct E as [before [after [Hsplit [Hl' Hb]]]].
      exists before, l, after. repeat split; auto.
      * now apply includes_spec.
      * intros l' Hin. apply includes_false. now apply Hb.
    + intros [before [l [after [Hsplit [-> [Hocc Hb]]]]]].
      assert (E : find (fun location => includes (toLowerCase message) location)
                    commonLocations = Some l).
      { apply find_first. exists before, after. repeat split; auto.
        - now apply includes_spec.
        - intros y Hy. apply includes_false. now apply Hb. }
      now rewrite E.
  - destruct (find _ commonLocations) as [l|] eqn:E; cbn [option_map].
    + split; [ discriminate | ]. intros Hnone. exfalso.
      apply find_some in E. destruct E as [Hin Hocc].
      apply includes_spec in Hocc. exact (Hnone l Hin Hocc).
    + split; [ | reflexivity ]. intros _ l Hin.
      apply includes_false. exact (proj1 (find_none_iff _ _) E l Hin).
Qed.

Lemma extractLocation_locations message loc :
  extractLocation message = Some loc ->
  exists l, In l commonLocations /\ loc = capitalize l.
Proof.
  unfold extractLocation.
  destruct (find _ commonLocations) as [l|] eqn:E; [ | discriminate ].
  cbn [option_map]. intros Hl. inversion Hl; subst loc.
  apply find_some in E. destruct E as [Hin _]. now exists l.
Qed.

(** X5.  What extractLocation returns is one of its eleven place names
    with the first letter in upper case (only the first: "New york"); in
    lower case it is the name that was found, and extractLocation finds it
    again in its own result. *)
Theorem extractLocation_stable :
  forall message loc,
    extractLocation message = Some loc ->
    exists l,
      In l commonLocations
      /\ loc = capitalize l
      /\ toLowerCase loc = l
      /\ extractLocation loc = Some loc.
Proof.
  intros message loc E.
  destruct (extractLocation_locations message loc E) as [l [Hin ->]].
  exists l. split; [ exact Hin | ]. split; [ reflexivity | ].
  cbn [commonLocations In] in Hin.
  repeat (destruct Hin as [<-|Hin]; [ split; vm_compute; reflexivity | ]).
  contradiction.
Qed.

(** X6.  getInterestRates never rejects and does not look anything up:
    for every message the current rate is 7.2 with the same three-point
    history, stamped with the reading of the clock; the location is the
    one extractLocation finds, and "United States" exactly when it finds
    none. *)
Theorem getInterestRates_fixed_rate :
  forall message ctx t,
    exists r,
      getInterestRates message ctx t = (inr (RRates r), S t)
      /\ currentRate r = 7.2%num
      /\ rateTrend r = "stable"
      /\ rateHistory r
         = [ ("2024-01-01", 6.8%num); ("2024-02-01", 7.0%num); ("2024-03-01", 7.2%num) ]
      /\ lastUpdated r = Date_toISOString t
      /\ (forall loc, extractLocation message = Some loc -> location r = loc)
      /\ (location r = "United States" <-> extractLocation message = None).
Proof.
  intros message ctx t. unfold getInterestRates.
  eexists. split; [ reflexivity | ].
  cbn [currentRate rateTrend rateHistory lastUpdated location].
  repeat (split; [ reflexivity | ]).
  destruct (extractLocation message) as [loc|] eqn:E.
  - split; [ intros loc' Hl; now inversion Hl | ].
    split; [ | discriminate ]. intros ->. exfalso.
    destruct (extractLocation_locations message "United States" E) as [l [Hin Hl]].
    cbn [commonLocations In] in Hin.
    repeat (destruct Hin as [<-|Hin]; [ discriminate | ]).
    contradiction.
  - split; [ discriminate | ]. split; reflexivity.
Qed.

(** ** The keyword classifier *)

Lemma determineRequiredTools_NoDup message : NoDup (determineRequiredTools message).
Proof.
  unfold determineRequiredTools.
  repeat match goal with
         | |- context [containsAny ?text ?keywords] =>
             destruct (containsAny text keywords)
         end;
    cbn [app]; repeat constructor; cbn [In]; intuition discriminate.
Qed.

Lemma determineRequiredTools_all_registered message :
  filter (registered AIService_mcpTools) (determineRequiredTools message)
  = determineRequiredTools message.
Proof.
  unfold determineRequiredTools.
  repeat match goal with
         | |- context [containsAny ?text ?keywords] =>
             destruct (containsAny text keywords)
         end;
    reflexivity.
Qed.

(** X7.  The classifier names no tool twice and only tools the service
    has registered, so that none it selects is skipped; and five of the
    ten registered tools it never selects, whatever the message: the
    relevance gate, the chat history, the saved and the serviced
    properties and the advanced mortgage calculator. *)
Theorem determineRequiredTools_registered_subset :
  forall message,
    NoDup (determineRequiredTools message)
    /\ (forall name,
          In name (determineRequiredTools message) ->
          registered AIService_mcpTools name = true)
    /\ filter (registered AIService_mcpTools) (determineRequiredTools message)
       = determineRequiredTools message
    /\ (forall name,
          In name [ "validatePromptRelevance"; "getUserChatHistory";
                    "getUserSavedProperties"; "getServicedProperties";
                    "calculateMortgageAdvanced" ] ->
          registered AIService_mcpTools name = true
          /\ ~ In name (determineRequiredTools message)).
Proof.
  intros message.
  split; [ apply determineRequiredTools_NoDup | ].
  split.
  { intros name Hin. rewrite <- determineRequiredTools_all_registered in Hin.
    apply filter_In in Hin. tauto. }
  split; [ apply determineRequiredTools_all_registered | ].
  intros name Hin. split.
  - cbn [In] in Hin.
    repeat (destruct Hin as [<-|Hin]; [ reflexivity | ]). contradiction.
  - rewrite determineRequiredTools_filter. intros Hsel.
    apply in_map_iff in Hsel. destruct Hsel as [[name' keywords] [Hname Hsel]].
    cbn [fst] in Hname. subst name'.
    apply filter_In in Hsel. destruct Hsel as [Hsel _].
    cbn [classifierKeywords In] in Hsel, Hin.
    repeat (destruct Hin as [<-|Hin];
            [ repeat (destruct Hsel as [Hsel|Hsel]; [ discriminate | ]); contradiction | ]).
    contradiction.
Qed.

(** ** Letter case *)

Lemma lowerChar_idem c : lowerChar (lowerChar c) = lowerChar c.
Proof. destruct c as [[] [] [] [] [] [] [] []]; reflexivity. Qed.

Lemma isDigit_lowerChar c : isDigit (lowerChar c) = isDigit c.
Proof. destruct c as [[] [] [] [] [] [] [] []]; reflexivity. Qed.

Lemma numeralChar_lowerChar c : numeralChar (lowerChar c) = true -> lowerChar c = c.
Proof. destruct c as [[] [] [] [] [] [] [] []]; (reflexivity || discriminate). Qed.

Lemma numeralChar_lower_fixed c : numeralChar c = true -> lowerChar c = c.
Proof. destruct c as [[] [] [] [] [] [] [] []]; (reflexivity || discriminate). Qed.

Lemma toLowerCase_idem s : toLowerCase (toLowerCase s) = toLowerCase s.
Proof.
  induction s as [|c s IH]; simpl; [ reflexivity | ].
  now rewrite lowerChar_idem, IH.
Qed.

Lemma toLowerCase_app a b : toLowerCase (a ++ b) = toLowerCase a ++ toLowerCase b.
Proof. induction a as [|c a IH]; simpl; [ reflexivity | now rewrite IH ]. Qed.

Lemma toLowerCase_numeralChars s : numeralChars s = true -> toLowerCase s = s.
Proof.
  induction s as [|c s IH]; simpl; [ reflexivity | ].
  intros H. apply andb_prop in H. destruct H as [Hc Hs].
  now rewrite (numeralChar_lower_fixed c Hc), IH.
Qed.

Lemma noDigit_toLowerCase s : noDigit (toLowerCase s) = noDigit s.
Proof.
  induction s as [|c s IH]; simpl; [ reflexivity | ].
  now rewrite isDigit_lowerChar, IH.
Qed.

(** A prefix of the lowercased text that is written with the characters
    of numbers is a prefix of the text itself. *)
Lemma numeral_prefix_lower s tok' post :
  numeralChars tok' = true -> toLowerCase s = tok' ++ post ->
  exists post', s = tok' ++ post'.
Proof.
  revert s. induction tok' as [|c tok' IH]; intros s Htok E.
  - now exists s.
  - destruct s as [|a s]; [ discriminate | ].
    simpl in E. inversion E. simpl in Htok.
    apply andb_prop in Htok. destruct Htok as [Hc Htok].
    destruct (IH s Htok H1) as [post' ->].
    exists post'. simpl. f_equal.
    rewrite <- H0 in Hc. symmetry. now apply numeralChar_lowerChar.
Qed.

Lemma tokenization_toLowerCase s toks :
  tokenization s toks -> tokenization (toLowerCase s) toks.
Proof.
  induction 1 as [gap Hgap|gap tok rest toks Hgap Hnum Hmax Hrest IH].
  - apply tokens_done. now rewrite noDigit_toLowerCase.
  - rewrite !toLowerCase_app.
    rewrite (toLowerCase_numeralChars tok (numeral_numeralChars tok Hnum)).
    apply tokens_next; auto.
    + now rewrite noDigit_toLowerCase.
    + intros tok' post Hnum' E.
      rewrite <- (toLowerCase_numeralChars tok (numeral_numeralChars tok Hnum)) in E at 1.
      rewrite <- toLowerCase_app in E.
      destruct (numeral_prefix_lower _ tok' post (numeral_numeralChars tok' Hnum') E)
        as [post' Hp].
      exact (Hmax tok' post' Hnum' Hp).
Qed.

Lemma extractNumbers_toLowerCase s : extractNumbers (toLowerCase s) = extractNumbers s.
Proof.
  rewrite !extractNumbers_decimal. f_equal.
  apply (tokenization_unique (toLowerCase s)).
  - apply scanAll_tokenization.
  - apply tokenization_toLowerCase, scanAll_tokenization.
Qed.

(** X8.  Letter case is ignored throughout: two ASCII messages that
    differ only in the case of their letters get the same verdict of the
    relevance gate, the same tools, the same location, the same numbers and
    the same results of the three calculators. *)
Theorem letter_case_is_ignored :
  forall m1 m2,
    asciiText m1 = true ->
    asciiText m2 = true ->
    toLowerCase m1 = toLowerCase m2 ->
    validatePromptRelevance m1 = validatePromptRelevance m2
    /\ determineRequiredTools m1 = determineRequiredTools m2
    /\ extractLocation m1 = extractLocation m2
    /\ extractNumbers m1 = extractNumbers m2
    /\ calculateMortgage m1 = calculateMortgage m2
    /\ calculateMortgageAdvanced m1 = calculateMortgageAdvanced m2
    /\ getFinancialCalculator m1 = getFinancialCalculator m2.
Proof.
  intros m1 m2 _ _ E.
  assert (En : extractNumbers m1 = extractNumbers m2).
  { rewrite <- (extractNumbers_toLowerCase m1), <- (extractNumbers_toLowerCase m2).
    now rewrite E. }
  assert (Ec : calculateMortgage m1 = calculateMortgage m2).
  { unfold calculateMortgage. now rewrite En. }
  unfold validatePromptRelevance, determineRequiredTools, extractLocation,
    calculateMortgageAdvanced, getFinancialCalculator.
  rewrite E, En, Ec. repeat split.
Qed.

(** ** The advanced mortgage calculator *)

(** X9.  On a message with at least two numbers the advanced result is
    the basic quote, unchanged, with five more figures: the down payment
    in percent, the monthly property tax (1.2 percent of the price a year)
    and the monthly insurance (0.4 percent of the price a year), each
    rounded to cents, the PMI, and the total, which adds the rounded basic
    payment and the three add-ons before they are rounded, and is then
    rounded itself. *)
Theorem advanced_mortgage_addons :
  forall message,
    (2 <= List.length (extractNumbers message))%nat ->
    exists q adv,
      calculateMortgage message = RMortgage q
      /\ calculateMortgageAdvanced message = RMortgageAdvanced q adv
      /\ get_quote (calculateMortgageAdvanced message)
         = get_quote (calculateMortgage message)
      /\ downPaymentPercent adv = round2 (downPayment q / propertyPrice q * 100)
      /\ monthlyPropertyTax adv = round2 (propertyPrice q * 1.2 / 100 / 12)
      /\ monthlyInsurance adv = round2 (propertyPrice q * 0.4 / 100 / 12)
      /\ totalMonthlyPayment adv
         = round2 (monthlyPayment q
                   + (if (downPayment q / propertyPrice q * 100 <? 20)%num
                      then loanAmount q * 0.5 / 100 / 12 else 0)
                   + propertyPrice q * 1.2 / 100 / 12
                   + propertyPrice q * 0.4 / 100 / 12).
Proof.
  intros message H.
  destruct (two_numbers message H) as [price [down [rest E]]].
  pose proof (calculateMortgage_quote message price down rest E) as Eq.
  assert (Ea : exists adv,
             calculateMortgageAdvanced message
             = RMortgageAdvanced (quoteFor price down (rateOf rest)) adv
             /\ adv
                = {| downPaymentPercent :=
                       (Math_round (down / price * 100 * 100) / 100)%num;
                     monthlyPmi :=
                       (Math_round
                          ((if (down / price * 100 <? 20)%num
                            then (price - down) * 0.5 / 100 / 12 else 0) * 100) / 100)%num;
                     monthlyPropertyTax :=
                       (Math_round (price * 1.2 / 100 / 12 * 100) / 100)%num;
                     monthlyInsurance :=
                       (Math_round (price * 0.4 / 100 / 12 * 100) / 100)%num;
                     totalMonthlyPayment :=
                       (Math_round
                          ((monthlyPayment (quoteFor price down (rateOf rest))
                            + (if (down / price * 100 <? 20)%num
                               then (price - down) * 0.5 / 100 / 12 else 0)
                            + price * 1.2 / 100 / 12
                            + price * 0.4 / 100 / 12) * 100) / 100)%num |}).
  { unfold calculateMortgageAdvanced. rewrite Eq.
    cbn [has_error get_error get_quote quoteFor propertyPrice downPayment loanAmount].
    eexists. split; reflexivity. }
  destruct Ea as [adv [Ea Hadv]].
  exists (quoteFor price down (rateOf rest)), adv.
  split; [ exact Eq | ]. split; [ exact Ea | ].
  rewrite Ea, Eq, Hadv. unfold round2.
  cbn [get_quote quoteFor propertyPrice downPayment loanAmount downPaymentPercent
         monthlyPropertyTax monthlyInsurance totalMonthlyPayment].
  repeat split.
Qed.

(** ** The prompt *)

Lemma toolContext_fold (toolResults : ToolResults) (acc : string) :
  fold_left
    (fun toolContext entry =>
       let '(toolName, result) := entry in
       if negb (has_error result)
       then toolContext ++ nl ++ toolName ++ ": " ++ JSON_stringify result ++ nl
       else toolContext)
    toolResults acc
  = acc ++ concatStrings (map renderEntry (filter succeeded toolResults)).
Proof.
  revert acc. induction toolResults as [|[name result] rest IH]; intros acc.
  - simpl. now rewrite append_nil_r.
  - cbn [fold_left filter]. rewrite IH. unfold succeeded at 2. cbn [snd].
    destruct (negb (has_error result)); [ | reflexivity ].
    cbn [map concatStrings fold_right]. unfold renderEntry at 2. cbn [fst snd].
    now rewrite !append_assoc.
Qed.

(** X10.  The completion request holds the system prompt, the message as
    it came, and, when a tool left a result, one more system message: the
    header followed by the results without an error, each under its name,
    in the order of the results.  A result with an error is not shown to
    the model; when every tool failed the context is the bare header, and
    it is still sent. *)
Theorem buildMessages_omits_failed_tools :
  forall message toolResults,
    firstn 2 (buildMessages message toolResults)
    = [ {| role := "system"; content := systemPrompt |};
        {| role := "user"; content := message |} ]
    /\ skipn 2 (buildMessages message toolResults)
       = match toolResults with
         | [] => []
         | _ => [ {| role := "system"; content := toolContextOf toolResults |} ]
         end
    /\ toolContextOf toolResults
       = "Available data from tools:" ++ nl
         ++ concatStrings (map renderEntry (filter succeeded toolResults))
    /\ ((forall entry, In entry toolResults -> has_error (snd entry) = true) ->
        toolContextOf toolResults = "Available data from tools:" ++ nl)
    /\ (forall name result,
          In (name, result) toolResults -> has_error result = false ->
          occurs (nl ++ name ++ ": " ++ JSON_stringify result ++ nl)
            (toolContextOf toolResults)).
Proof.
  intros message toolResults.
  assert (Hctx : toolContextOf toolResults
                 = "Available data from tools:" ++ nl
                   ++ concatStrings (map renderEntry (filter succeeded toolResults))).
  { unfold toolContextOf. rewrite toolContext_fold. now rewrite append_assoc. }
  split; [ destruct toolResults; reflexivity | ].
  split; [ destruct toolResults; reflexivity | ].
  split; [ exact Hctx | ].
  split.
  - intros Hall. rewrite Hctx.
    rewrite filter_none; [ reflexivity | ].
    intros entry Hin. unfold succeeded. now rewrite (Hall entry Hin).
  - intros name result Hin Hok. rewrite Hctx.
    do 2 apply occurs_app_r.
    assert (Hf : In (name, result) (filter succeeded toolResults)).
    { apply filter_In. split; [ exact Hin | ]. unfold succeeded. cbn [snd].
      now rewrite Hok. }
    apply in_split in Hf. destruct Hf as [l1 [l2 ->]].
    rewrite map_app. cbn [map]. unfold concatStrings.
    rewrite fold_right_app. cbn [fold_right].
    fold (concatStrings (map renderEntry l2)).
    change (renderEntry (name, result))
      with (nl ++ name ++ ": " ++ JSON_stringify result ++ nl).
    generalize (nl ++ name ++ ": " ++ JSON_stringify result ++ nl) as shown.
    generalize (concatStrings (map renderEntry l2)) as behind.
    intros behind shown.
    induction l1 as [|e l1 IH]; cbn [map fold_right].
    + apply occurs_app_l, occurs_refl.
    + apply occurs_app_r, IH.
Qed.

(** ** The tool loop *)

Lemma assign_keys name v (o : ToolResults) :
  map fst (assign name v o)
  = if existsb (String.eqb name) (map fst o) then map fst o
    else (map fst o ++ [name])%list.
Proof.
  induction o as [|[k w] o IH]; [ reflexivity | ].
  cbn [assign map fst existsb].
  rewrite (String.eqb_sym name k).
  destruct (String.eqb k name) eqn:E; cbn [orb map fst]; [ reflexivity | ].
  rewrite IH. destruct (existsb (String.eqb name) (map fst o)); reflexivity.
Qed.

Lemma existsb_eqb_false name (l : list string) :
  ~ In name l -> existsb (String.eqb name) l = false.
Proof.
  intros Hn. destruct (existsb (String.eqb name) l) eqn:E; [ | reflexivity ].
  apply existsb_exists in E. destruct E as [x [Hin Hx]].
  apply String.eqb_eq in Hx. subst x. contradiction.
Qed.

Lemma executeTools_keys registry toolsToUse message ctx :
  (forall name tool, getTool registry name = Some tool -> rejectsPrintably tool) ->
  forall acc t,
    NoDup toolsToUse ->
    (forall name, In name toolsToUse -> ~ In name (map fst acc)) ->
    exists toolResults evs t',
      executeTools registry toolsToUse message ctx acc t = (inr toolResults, evs, t')
      /\ map fst toolResults
         = (map fst acc ++ filter (registered registry) toolsToUse)%list.
Proof.
  intros Hprint.
  induction toolsToUse as [|toolName rest IH]; intros acc t Hnd Hfresh.
  - exists acc, [], t. cbn [executeTools filter]. unfold ret.
    now rewrite app_nil_r.
  - rewrite executeTools_step. cbn [filter].
    inversion Hnd as [|x l Hnotin Hnd']; subst.
    assert (Hreg : registered registry toolName
                   = match getTool registry toolName with
                     | Some _ => true
                     | None => false
                     end) by reflexivity.
    destruct (getTool registry toolName) as [tool|] eqn:Eg; rewrite Hreg.
    + assert (Hstep : forall entry t1,
                exists toolResults evs t',
                  executeTools registry rest message ctx (assign toolName entry acc) t1
                  = (inr toolResults, evs, t')
                  /\ map fst toolResults
                     = (map fst acc ++ toolName :: filter (registered registry) rest)%list).
      { intros entry t1.
        assert (Hk : map fst (assign toolName entry acc)
                     = (map fst acc ++ [toolName])%list).
        { rewrite assign_keys, existsb_eqb_false; [ reflexivity | ].
          apply Hfresh. now left. }
        destruct (IH (assign toolName entry acc) t1 Hnd') as [res [evs [t2 [Hrun Hkeys]]]].
        - intros name Hin. rewrite Hk, in_app_iff. intros [Hacc|[<-|[]]].
          + apply (Hfresh name); [ now right | exact Hacc ].
          + contradiction.
        - exists res, evs, t2. split; [ exact Hrun | ].
          rewrite Hkeys, Hk, <- app_assoc. reflexivity. }
      destruct (tool message ctx t) as [[error|result] t1] eqn:Et.
      * rewrite (loggable_raises error (Hprint toolName tool Eg message ctx t error t1 Et)).
        destruct (Hstep (RError ("Failed to execute " ++ toolName)) t1)
          as [res [evs [t2 [Hrun Hkeys]]]].
        rewrite Hrun. eauto.
      * destruct (Hstep result t1) as [res [evs [t2 [Hrun Hkeys]]]].
        rewrite Hrun. eauto.
    + apply IH; [ exact Hnd' | ]. intros name Hin. apply Hfresh. now right.
Qed.

(** X11.  On the tools the classifier selects for an ASCII message, with
    tools that throw nothing but what the logger prints, the tool loop
    leaves one entry for each tool it invoked, under the tool's name and in
    the order of the invocations, whether the tool resolved or threw; a
    selected tool the registry does not have leaves no entry. *)
Theorem executeTools_entries_in_invocation_order :
  forall registry message ctx t,
    asciiText message = true ->
    (forall name tool, getTool registry name = Some tool -> rejectsPrintably tool) ->
    exists toolResults evs t',
      executeTools registry (determineRequiredTools message) message ctx [] t
      = (inr toolResults, evs, t')
      /\ map fst toolResults
         = filter (registered registry) (determineRequiredTools message)
      /\ map fst toolResults = invocations evs
      /\ (forall name,
            In name (determineRequiredTools message) ->
            registered registry name = false ->
            lookup name toolResults = None).
Proof.
  intros registry message ctx t _ Hprint.
  set (toolsToUse := determineRequiredTools message).
  destruct (executeTools_keys registry toolsToUse message ctx Hprint [] t
              (determineRequiredTools_NoDup message)
              ltac:(intros name _ [])) as [res [evs [t' [Hrun Hkeys]]]].
  destruct (executeTools_runs registry toolsToUse message ctx Hprint [] t)
    as [res' [evs' [t'' [Hrun' [Hinv [_ [Hkeep _]]]]]]].
  rewrite Hrun in Hrun'. inversion Hrun'; subst res' evs' t''.
  exists res, evs, t'. cbn [map app] in Hkeys.
  split; [ exact Hrun | ]. split; [ exact Hkeys | ].
  split; [ now rewrite Hkeys, Hinv | ].
  intros name Hin Hreg. rewrite (Hkeep name); [ reflexivity | ].
  intros Hf. apply filter_In in Hf. destruct Hf as [_ Hf]. congruence.
Qed.

(** ** Reply generation *)

Local Ltac find_closed_occurrence :=
  solve [ apply includes_spec; vm_compute; reflexivity
        | apply occurs_app_l; find_closed_occurrence
        | apply occurs_app_r; find_closed_occurrence ].

(** X12.  The templated reply after a failure of the completion that the
    logger prints, when the mortgage calculator left no usable result:
    between its fixed first and last line it reports the search count if
    there is a search entry and the rate if there is a rates entry, in that
    order.  With other tools only, it is the two fixed lines and no data;
    and an entry that is an error record, as the tool loop leaves for a
    tool that threw, is reported as "undefined". *)
Theorem fallback_reply_without_mortgage :
  forall message toolResults error t,
    openai_complete (buildMessages message toolResults) = inl error ->
    loggable error = true ->
    toolResults <> [] ->
    (forall calc, lookup "calculateMortgage" toolResults = Some calc ->
                  has_error calc = true) ->
    exists reply,
      generateAIResponse message toolResults t
      = (inr reply,
         [ CompletionRequested (buildMessages message toolResults);
           Logged "error" "Error generating AI response:" ],
         t)
      /\ reply
         = "Based on the available data:" ++ nl ++ nl
           ++ match lookup "searchPropertyInfo" toolResults with
              | Some r => "Found " ++ interpolate (get_totalResults r)
                          ++ " properties matching your criteria." ++ nl ++ nl
              | None => ""
              end
           ++ match lookup "getInterestRates" toolResults with
              | Some r => "Current interest rates: " ++ interpolate (get_currentRate r)
                          ++ "%" ++ nl ++ nl
              | None => ""
              end
           ++ "How else can I help you with your real estate needs?"
      /\ (lookup "searchPropertyInfo" toolResults = None ->
          lookup "getInterestRates" toolResults = None ->
          reply = "Based on the available data:" ++ nl ++ nl
                  ++ "How else can I help you with your real estate needs?")
      /\ (forall e,
            lookup "searchPropertyInfo" toolResults = Some (RError e) ->
            occurs "Found undefined properties matching your criteria." reply)
      /\ (forall e,
            lookup "getInterestRates" toolResults = Some (RError e) ->
            occurs "Current interest rates: undefined%" reply).
Proof.
  intros message toolResults error t Hfail Hlog Hne Hmort.
  unfold generateAIResponse, try_catch, request_completion. rewrite Hfail.
  unfold bind at 1. rewrite (logger_error_loggable _ _ _ Hlog). unfold fallbackResponse.
  assert (Hlen : (0 <? List.length toolResults)%nat = true)
    by (destruct toolResults; [ contradiction | reflexivity ]).
  rewrite Hlen.
  assert (Hrest : forall reply,
             reply
             = match lookup "getInterestRates" toolResults with
               | Some r =>
                   match lookup "searchPropertyInfo" toolResults with
                   | Some r0 =>
                       ("Based on the available data:" ++ nl ++ nl) ++ "Found "
                       ++ interpolate (get_totalResults r0)
                       ++ " properties matching your criteria." ++ nl ++ nl
                   | None => "Based on the available data:" ++ nl ++ nl
                   end ++ "Current interest rates: " ++ interpolate (get_currentRate r)
                   ++ "%" ++ nl ++ nl
               | None =>
                   match lookup "searchPropertyInfo" toolResults with
                   | Some r0 =>
                       ("Based on the available data:" ++ nl ++ nl) ++ "Found "
                       ++ interpolate (get_totalResults r0)
                       ++ " properties matching your criteria." ++ nl ++ nl
                   | None => "Based on the available data:" ++ nl ++ nl
                   end
               end ++ "How else can I help you with your real estate needs?" ->
             reply
             = "Based on the available data:" ++ nl ++ nl
               ++ match lookup "searchPropertyInfo" toolResults with
                  | Some r => "Found " ++ interpolate (get_totalResults r)
                              ++ " properties matching your criteria." ++ nl ++ nl
                  | None => ""
                  end
               ++ match lookup "getInterestRates" toolResults with
                  | Some r => "Current interest rates: " ++ interpolate (get_currentRate r)
                              ++ "%" ++ nl ++ nl
                  | None => ""
                  end
               ++ "How else can I help you with your real estate needs?"
             /\ (lookup "searchPropertyInfo" toolResults = None ->
                 lookup "getInterestRates" toolResults = None ->
                 reply = "Based on the available data:" ++ nl ++ nl
                         ++ "How else can I help you with your real estate needs?")
             /\ (forall e,
                   lookup "searchPropertyInfo" toolResults = Some (RError e) ->
                   occurs "Found undefined properties matching your criteria." reply)
             /\ (forall e,
                   lookup "getInterestRates" toolResults = Some (RError e) ->
                   occurs "Current interest rates: undefined%" reply)).
  { intros reply ->. split; [ | split; [ | split ] ].
    - destruct (lookup "searchPropertyInfo" toolResults);
        destruct (lookup "getInterestRates" toolResults);
        rewrite ?append_assoc; cbn [append]; rewrite ?append_assoc; reflexivity.
    - intros -> ->. reflexivity.
    - intros e ->. cbn [get_totalResults interpolate].
      destruct (lookup "getInterestRates" toolResults); find_closed_occurrence.
    - intros e ->. cbn [get_currentRate interpolate].
      destruct (lookup "searchPropertyInfo" toolResults); find_closed_occurrence. }
  destruct (lookup "calculateMortgage" toolResults) as [calc|] eqn:El.
  - rewrite (Hmort calc eq_refl). cbn [negb]. unfold bind, ret. cbn [app].
    eexists. split; [ reflexivity | ]. apply Hrest. reflexivity.
  - unfold bind, ret. cbn [app].
    eexists. split; [ reflexivity | ]. apply Hrest. reflexivity.
Qed.

(** ** The composer, on a relevant message *)

Local Ltac find_disjunct :=
  solve [ reflexivity | left; find_disjunct | right; find_disjunct ].

(** X13.  With the service's own tools, on a relevant ASCII message,
    while the completion endpoint answers, the reply is the text of the
    completion as it came.  One completion is requested, for the prompt
    built from the message and the results of the tool loop; toolsUsed is
    the relevance gate followed by the tools the classifier selected, and
    these are the tools invoked and the keys of the results, in that
    order. *)
Theorem processMessage_relays_completion :
  forall req text t,
    req_message req = MsgString text ->
    asciiText text = true ->
    isValid (validatePromptRelevance text) = true ->
    (forall messages, exists reply, openai_complete messages = inr reply) ->
    exists resp evs t' toolResults reply,
      AIService_processMessage req t = (inr resp, evs, t')
      /\ openai_complete (buildMessages text toolResults) = inr reply
      /\ response resp = Some reply
      /\ toolsUsed resp = "validatePromptRelevance" :: determineRequiredTools text
      /\ invocations evs = determineRequiredTools text
      /\ map fst toolResults = determineRequiredTools text
      /\ completionRequests evs = 1%nat
      /\ In (CompletionRequested (buildMessages text toolResults)) evs
      /\ propertyData resp = extractPropertyData toolResults
      /\ sessionId resp = req_sessionId req.
Proof.
  intros req text t Hmsg _ Hvalid Hup.
  set (ctx := {| ctx_userId := req_userId req; ctx_sessionId := req_sessionId req |}).
  destruct (executeTools_runs AIService_mcpTools (determineRequiredTools text) text ctx
              service_rejectsPrintably [] (S t))
    as [toolResults [evs1 [t1 [Hrun [Hinv [Hreq _]]]]]].
  destruct (executeTools_keys AIService_mcpTools (determineRequiredTools text) text ctx
              service_rejectsPrintably [] (S t)
              (determineRequiredTools_NoDup text) ltac:(intros name _ []))
    as [res' [evs' [t'' [Hrun' Hkeys]]]].
  rewrite Hrun in Hrun'. inversion Hrun'; subst res' evs' t''. cbn [map app] in Hkeys.
  rewrite determineRequiredTools_all_registered in Hinv, Hkeys.
  destruct (Hup (buildMessages text toolResults)) as [reply Hreply].
  destruct (generateAIResponse_outcome text toolResults t1)
    as [r [evs2 [Hgen [Hinv2 [Hreq2 [Hok _]]]]]].
  destruct (Hok reply Hreply) as [Hr Hevs]. clear Hok. subst r evs2.
  destruct (processMessage_relevant AIService_mcpTools req text t Hmsg Hvalid
              (inr toolResults) evs1 t1 Hrun (inr reply) _ Hgen)
    as [resp [Hp [Hresp [Hused [Hdata [Hsession _]]]]]].
  exists resp. eexists. eexists. exists toolResults, reply.
  split; [ exact Hp | ].
  split; [ exact Hreply | ]. split; [ exact Hresp | ]. split; [ exact Hused | ].
  split.
  { cbn [invocations]. rewrite invocations_app. cbn [invocations].
    now rewrite app_nil_r, Hinv. }
  split; [ exact Hkeys | ].
  split.
  { cbn [completionRequests]. rewrite completionRequests_app.
    cbn [completionRequests]. rewrite Hreq. reflexivity. }
  split; [ | split; [ exact Hdata | exact Hsession ] ].
  right. apply in_or_app. right. now left.
Qed.

(** With the service's own tools [generateAIResponse] returns a reply,
    whether the endpoint answers or fails with what the logger prints. *)
Lemma generateAIResponse_returns message toolResults t :
  (forall error,
      openai_complete (buildMessages message toolResults) = inl error ->
      loggable error = true) ->
  mortgageEntryShaped toolResults ->
  exists reply evs,
    generateAIResponse message toolResults t = (inr reply, evs, t)
    /\ invocations evs = []
    /\ completionRequests evs = 1%nat.
Proof.
  intros Hlog Hshape.
  destruct (openai_complete (buildMessages message toolResults)) as [error|reply] eqn:E.
  - destruct (generateAIResponse_fallback message toolResults error t E
                (Hlog error eq_refl) Hshape)
      as [reply [Hgen _]].
    exists reply. eexists. split; [ exact Hgen | ]. split; reflexivity.
  - destruct (generateAIResponse_outcome message toolResults t)
      as [r [evs [Hgen [Hinv [Hreq [Hok _]]]]]].
    destruct (Hok reply E) as [Hr Hevs]. clear Hok. subst r evs.
    exists reply. eexists. split; [ exact Hgen | ]. split; reflexivity.
Qed.

Lemma selects_In message name :
  selects message name = true <-> In name (determineRequiredTools message).
Proof.
  unfold selects. rewrite existsb_exists. split.
  - intros [x [Hin Hx]]. apply String.eqb_eq in Hx. now subst x.
  - intros Hin. exists name. split; [ exact Hin | apply String.eqb_refl ].
Qed.

(** The entry the tool loop of the service leaves for one of its tools
    that neither reads the clock nor rejects. *)
Lemma service_entry text ctx t toolResults evs t' name f :
  executeTools AIService_mcpTools (determineRequiredTools text) text ctx [] t
  = (inr toolResults, evs, t') ->
  getTool AIService_mcpTools name = Some (pureTool f) ->
  lookup name toolResults = if selects text name then Some (f text) else None.
Proof.
  intros Hrun Hg.
  destruct (executeTools_runs AIService_mcpTools (determineRequiredTools text) text ctx
              service_rejectsPrintably [] t)
    as [res' [evs' [t'' [Hrun' [_ [_ [Hkeep Hent]]]]]]].
  rewrite Hrun in Hrun'. inversion Hrun'; subst res' evs' t''.
  rewrite determineRequiredTools_all_registered in Hkeep, Hent.
  destruct (selects text name) eqn:Es.
  - apply selects_In in Es. destruct (Hent name Es) as [_ [_ Hres]].
    apply (Hres (pureTool f) (f text) Hg). intros t0. now exists t0.
  - rewrite (Hkeep name); [ reflexivity | ].
    intros Hin. apply selects_In in Hin. congruence.
Qed.

(** X14.  The service on a relevant ASCII message, whether the endpoint
    answers or fails with a value the logger prints: it returns a response
    with a reply, having invoked exactly the tools the classifier
    selected, in its order, and requested one completion; and the property
    data is a function of the message alone: absent unless the property
    search, the property details or the mortgage calculator was selected,
    and otherwise holding the result of each of these that was selected
    (the mortgage result also when it is the error record) and nothing of
    the other tools. *)
Theorem AIService_propertyData :
  forall req text t,
    req_message req = MsgString text ->
    asciiText text = true ->
    isValid (validatePromptRelevance text) = true ->
    (forall messages error,
        openai_complete messages = inl error -> loggable error = true) ->
    exists resp evs t' reply,
      AIService_processMessage req t = (inr resp, evs, t')
      /\ response resp = Some reply
      /\ toolsUsed resp = "validatePromptRelevance" :: determineRequiredTools text
      /\ invocations evs = determineRequiredTools text
      /\ completionRequests evs = 1%nat
      /\ propertyData resp
         = if selects text "searchPropertyInfo" || selects text "getPropertyDetails"
              || selects text "calculateMortgage"
           then Some
                  {| searchResults :=
                       if selects text "searchPropertyInfo"
                       then Some (searchPropertyInfo text) else None;
                     propertyDetails :=
                       if selects text "getPropertyDetails"
                       then Some (getPropertyDetails text) else None;
                     mortgageCalculation :=
                       if selects text "calculateMortgage"
                       then Some (calculateMortgage text) else None |}
           else None.
Proof.
  intros req text t Hmsg _ Hvalid Hlog.
  set (ctx := {| ctx_userId := req_userId req; ctx_sessionId := req_sessionId req |}).
  destruct (executeTools_runs AIService_mcpTools (determineRequiredTools text) text ctx
              service_rejectsPrintably [] (S t))
    as [toolResults [evs1 [t1 [Hrun [Hinv [Hreq _]]]]]].
  rewrite determineRequiredTools_all_registered in Hinv.
  assert (Hshape : mortgageEntryShaped toolResults).
  { apply (executeTools_mortgage_shaped (determineRequiredTools text) text ctx [] (S t)
             ltac:(intros calc Hl; discriminate) toolResults evs1 t1 Hrun). }
  destruct (generateAIResponse_returns text toolResults t1
              (Hlog (buildMessages text toolResults)) Hshape)
    as [reply [evs2 [Hgen [Hinv2 Hreq2]]]].
  pose proof (service_entry text ctx (S t) toolResults evs1 t1
                "searchPropertyInfo" searchPropertyInfo Hrun eq_refl) as Hs.
  pose proof (service_entry text ctx (S t) toolResults evs1 t1
                "getPropertyDetails" getPropertyDetails Hrun eq_refl) as Hd.
  pose proof (service_entry text ctx (S t) toolResults evs1 t1
                "calculateMortgage" calculateMortgage Hrun eq_refl) as Hm.
  destruct (processMessage_relevant AIService_mcpTools req text t Hmsg Hvalid
              (inr toolResults) evs1 t1 Hrun (inr reply) evs2 Hgen)
    as [resp [Hp [Hresp [Hused [Hdata _]]]]].
  exists resp. eexists. eexists. exists reply.
  split; [ exact Hp | ]. split; [ exact Hresp | ]. split; [ exact Hused | ].
  split.
  { cbn [invocations]. rewrite invocations_app.
    now rewrite Hinv, Hinv2, app_nil_r. }
  split.
  { cbn [completionRequests]. rewrite completionRequests_app.
    rewrite Hreq, Hreq2. reflexivity. }
  rewrite Hdata.
  unfold extractPropertyData. cbn [searchResults propertyDetails mortgageCalculation].
  rewrite Hs, Hd, Hm.
  destruct (selects text "searchPropertyInfo"), (selects text "getPropertyDetails"),
    (selects text "calculateMortgage"); reflexivity.
Qed.

(** X15.  In every outcome, whatever is sent and whatever the registry
    holds, the response echoes the session of the request, is stamped with
    the reading of the clock taken just before the last one, and reports
    as execution time the last reading of the clock minus the first, the
    one taken on entry. *)
Theorem processMessage_envelope :
  forall registry req t,
    exists resp evs t2,
      processMessage registry req t = (inr resp, evs, S (S t2))
      /\ sessionId resp = req_sessionId req
      /\ timestamp resp = Date_toISOString t2
      /\ executionTime resp = (Date_now (S t2) - Date_now t)%num.
Proof.
  intros registry req t.
  set (ctx := {| ctx_userId := req_userId req; ctx_sessionId := req_sessionId req |}).
  destruct (req_message req) as [text| |] eqn:Em.
  - destruct (isValid (validatePromptRelevance text)) eqn:Hvalid.
    + destruct (executeTools registry (determineRequiredTools text) text ctx [] (S t))
        as [[r1 evs1] t1] eqn:Hrun.
      pose proof (processMessage_relevant registry req text t Em Hvalid r1 evs1 t1 Hrun)
        as Hstages.
      destruct r1 as [raised|toolResults].
      * destruct (Hstages (executeTools_raises_loggable _ _ _ _ _ _ _ _ _ Hrun))
          as [resp [Hp [_ [_ [_ [Hs [Hstamp Htime]]]]]]].
        exists resp. eexists. exists t1. split; [ exact Hp | ]. repeat split; assumption.
      * destruct (generateAIResponse_outcome text toolResults t1)
          as [r2 [evs2 [Hgen [_ [_ [_ Hraise]]]]]].
        specialize (Hstages r2 evs2 Hgen). destruct r2 as [raised|reply].
        -- destruct (Hstages (Hraise raised eq_refl))
             as [resp [Hp [_ [_ [_ [Hs [Hstamp Htime]]]]]]].
           exists resp. eexists. exists t1. split; [ exact Hp | ].
           repeat split; assumption.
        -- destruct Hstages as [resp [Hp [_ [_ [_ [Hs [Hstamp Htime]]]]]]].
           exists resp. eexists. exists t1. split; [ exact Hp | ].
           repeat split; assumption.
    + unfold processMessage. rewrite Em.
      cbv [bind try_catch now isoNow ret readLength asText logger_info emit].
      rewrite Hvalid. cbn [negb].
      eexists. eexists. exists (S t). split; [ reflexivity | ]. repeat split.
  - unfold processMessage. rewrite Em.
    cbv [bind try_catch now isoNow ret throw readLength asText logger_info
           logger_error logger_raises emit].
    eexists. eexists. exists (S t). split; [ reflexivity | ]. repeat split.
  - unfold processMessage. rewrite Em.
    cbv [bind try_catch now isoNow ret throw readLength asText logger_info
           logger_error logger_raises emit].
    eexists. eexists. exists (S t). split; [ reflexivity | ]. repeat split.
Qed.

(** ** The logger *)

Lemma readFile_appendTo_same path data d :
  readFile path {| directories := directories d;
                   files := appendTo path data (files d);
                   unwritable := unwritable d |}
  = Some (contentOf path d ++ data).
Proof.
  unfold contentOf, readFile. cbn [files].
  induction (files d) as [|[p text] rest IH]; cbn [appendTo find fst].
  - now rewrite String.eqb_refl.
  - destruct (String.eqb p path) eqn:E; cbn [find fst]; rewrite E; [ reflexivity | ].
    exact IH.
Qed.

Lemma readFile_appendTo_other path other data d :
  other <> path ->
  readFile other {| directories := directories d;
                    files := appendTo path data (files d);
                    unwritable := unwritable d |}
  = readFile other d.
Proof.
  intros Hne. unfold readFile. cbn [files].
  induction (files d) as [|[p text] rest IH]; cbn [appendTo find fst].
  - apply not_eq_sym in Hne. apply String.eqb_neq in Hne. now rewrite Hne.
  - destruct (String.eqb p path) eqn:E; cbn [find fst].
    + apply String.eqb_eq in E. subst p.
      apply not_eq_sym in Hne. apply String.eqb_neq in Hne. now rewrite Hne.
    + destruct (String.eqb p other); [ reflexivity | exact IH ].
Qed.

Lemma contentOf_appendTo_same path data d :
  contentOf path {| directories := directories d;
                    files := appendTo path data (files d);
                    unwritable := unwritable d |}
  = contentOf path d ++ data.
Proof. unfold contentOf at 1. now rewrite readFile_appendTo_same. Qed.

Lemma contentOf_appendTo_other path other data d :
  other <> path ->
  contentOf other {| directories := directories d;
                     files := appendTo path data (files d);
                     unwritable := unwritable d |}
  = contentOf other d.
Proof. intros Hne. unfold contentOf. now rewrite readFile_appendTo_other. Qed.

(** One call of the logger with a meta object it can format, step by
    step. *)
Lemma Logger_log_unfold level message meta w :
  printableMeta meta = true ->
  Logger_log level message meta w
  = match appendFileSync "logs/app.log" (logLine level message meta (clock w) ++ nl)
            (disk w) with
    | inl err =>
        (inr tt,
         {| disk := disk w;
            stdout := (stdout w ++ [logLine level message meta (clock w)])%list;
            stderr := (stderr w ++ [("Failed to write to log file:", err)])%list;
            clock := S (clock w) |})
    | inr disk1 =>
        if String.eqb level "error"
        then
          match appendFileSync "logs/error.log"
                  (logLine level message meta (clock w) ++ nl) disk1 with
          | inl err =>
              (inr tt,
               {| disk := disk1;
                  stdout := (stdout w ++ [logLine level message meta (clock w)])%list;
                  stderr := (stderr w ++ [("Failed to write to log file:", err)])%list;
                  clock := S (clock w) |})
          | inr disk2 =>
              (inr tt,
               {| disk := disk2;
                  stdout := (stdout w ++ [logLine level message meta (clock w)])%list;
                  stderr := stderr w;
                  clock := S (clock w) |})
          end
        else
          (inr tt,
           {| disk := disk1;
              stdout := (stdout w ++ [logLine level message meta (clock w)])%list;
              stderr := stderr w;
              clock := S (clock w) |})
    end.
Proof.
  intros Hprintable. destruct meta as [properties| |]; try discriminate.
  unfold Logger_log, Logger_formatMessage, Object_keys_length, JSON_stringify_of,
    logLine, wbind, wtry, world_isoNow, wret, console_log, console_error, onDisk.
  cbn [disk stdout stderr clock].
  destruct (0 <? List.length properties)%nat;
    cbn [disk stdout stderr clock];
    (destruct (appendFileSync "logs/app.log" _ (disk w)) as [err|disk1];
     [ reflexivity | ]);
    (destruct (String.eqb level "error"); [ | reflexivity ]);
    cbn [disk stdout stderr clock];
    destruct (appendFileSync "logs/error.log" _ disk1) as [err|disk2]; reflexivity.
Qed.

(** A call of the logger with a meta object it cannot format throws
    before anything is printed or written. *)
Lemma Logger_log_unprintable level message meta w :
  printableMeta meta = false ->
  exists what,
    Logger_log level message meta w
    = (inl (TypeError what),
       {| disk := disk w; stdout := stdout w; stderr := stderr w;
          clock := S (clock w) |}).
Proof.
  intros Hunprintable. destruct meta as [properties| |what]; try discriminate.
  - eexists. reflexivity.
  - exists what. reflexivity.
Qed.

Lemma canWrite_appendTo path other data d :
  canWrite other {| directories := directories d;
                    files := appendTo path data (files d);
                    unwritable := unwritable d |}
  = canWrite other d.
Proof. reflexivity. Qed.

(** X16.  A series of calls of the logger, each with a meta object the
    logger can format (neither null nor rejected by JSON.stringify), on a
    file system that takes the writes: no call throws; the console shows
    the line of every call,
    in order; logs/app.log grows by these same lines, each ended by a line
    feed, and logs/error.log by those of the calls at level error and by
    no other; no other file is touched and nothing goes to the error
    stream.  A line is the time of the call, the level in upper case in
    brackets, the message, and the meta object if it has a property. *)
Theorem Logger_calls_append_lines :
  forall calls w,
    forallb (fun call => printableMeta (snd call)) calls = true ->
    canWrite "logs/app.log" (disk w) = true ->
    canWrite "logs/error.log" (disk w) = true ->
    exists w',
      Logger_calls calls w = (inr tt, w')
      /\ stdout w' = (stdout w ++ linesFrom (clock w) calls)%list
      /\ stderr w' = stderr w
      /\ clock w' = (clock w + List.length calls)%nat
      /\ contentOf "logs/app.log" (disk w')
         = contentOf "logs/app.log" (disk w) ++ asFileText (linesFrom (clock w) calls)
      /\ contentOf "logs/error.log" (disk w')
         = contentOf "logs/error.log" (disk w)
           ++ asFileText (errorLinesFrom (clock w) calls)
      /\ (forall path,
            path <> "logs/app.log" -> path <> "logs/error.log" ->
            readFile path (disk w') = readFile path (disk w)).
Proof.
  induction calls as [|[[level message] meta] rest IH]; intros w Hmetas Happ Herr.
  - exists w. cbn [Logger_calls linesFrom errorLinesFrom List.length].
    unfold wret, asFileText. cbn [map concatStrings fold_right].
    rewrite !append_nil_r, app_nil_r, Nat.add_0_r. repeat split.
  - cbn [forallb snd] in Hmetas. apply andb_true_iff in Hmetas.
    destruct Hmetas as [Hmeta Hmetas].
    cbn [Logger_calls]. unfold wbind. rewrite (Logger_log_unfold _ _ _ _ Hmeta).
    unfold appendFileSync at 1. rewrite Happ.
    set (line := logLine level message meta (clock w)).
    set (disk1 := {| directories := directories (disk w);
                     files := appendTo "logs/app.log" (line ++ nl) (files (disk w));
                     unwritable := unwritable (disk w) |}).
    assert (Happ1 : canWrite "logs/app.log" disk1 = true) by exact Happ.
    assert (Herr1 : canWrite "logs/error.log" disk1 = true) by exact Herr.
    cbn [linesFrom errorLinesFrom List.length]. fold line.
    destruct (String.eqb level "error") eqn:El.
    + unfold appendFileSync. rewrite Herr1.
      set (disk2 := {| directories := directories disk1;
                       files := appendTo "logs/error.log" (line ++ nl) (files disk1);
                       unwritable := unwritable disk1 |}).
      destruct (IH {| disk := disk2; stdout := (stdout w ++ [line])%list;
                      stderr := stderr w; clock := S (clock w) |})
        as [w' [Hrun [Hout [Herrs [Hclock [Ha [He Hother]]]]]]];
        [ exact Hmetas | exact Happ | exact Herr | ].
      cbn [disk stdout stderr clock] in *.
      exists w'. split; [ exact Hrun | ].
      split; [ now rewrite Hout, <- app_assoc | ].
      split; [ exact Herrs | ]. split; [ rewrite Hclock; lia | ].
      split; [ | split ].
      * rewrite Ha. unfold disk2.
        rewrite contentOf_appendTo_other by discriminate.
        unfold disk1. rewrite contentOf_appendTo_same.
        unfold asFileText. cbn [map concatStrings fold_right].
        now rewrite !append_assoc.
      * rewrite He. unfold disk2. rewrite contentOf_appendTo_same.
        unfold disk1. rewrite contentOf_appendTo_other by discriminate.
        unfold asFileText. cbn [map concatStrings fold_right].
        now rewrite !append_assoc.
      * intros path Hna Hne. rewrite (Hother path Hna Hne). unfold disk2.
        rewrite readFile_appendTo_other by exact Hne.
        unfold disk1. now rewrite readFile_appendTo_other.
    + destruct (IH {| disk := disk1; stdout := (stdout w ++ [line])%list;
                      stderr := stderr w; clock := S (clock w) |})
        as [w' [Hrun [Hout [Herrs [Hclock [Ha [He Hother]]]]]]];
        [ exact Hmetas | exact Happ | exact Herr | ].
      cbn [disk stdout stderr clock] in *.
      exists w'. split; [ exact Hrun | ].
      split; [ now rewrite Hout, <- app_assoc | ].
      split; [ exact Herrs | ]. split; [ rewrite Hclock; lia | ].
      split; [ | split ].
      * rewrite Ha. unfold disk1. rewrite contentOf_appendTo_same.
        unfold asFileText. cbn [map concatStrings fold_right].
        now rewrite !append_assoc.
      * rewrite He. unfold disk1.
        now rewrite contentOf_appendTo_other by discriminate.
      * intros path Hna Hne. rewrite (Hother path Hna Hne). unfold disk1.
        now rewrite readFile_appendTo_other.
Qed.

(** X17.  One call of the logger, with a meta object it can format, when
    a write fails.  If logs/app.log cannot be written, the call does not throw: the line is on the
    console, one notice goes to the error stream, and no file changes, so
    that a line at level error does not reach logs/error.log either.  If
    only logs/error.log cannot be written, a line at level error is in
    logs/app.log and on the console, with one notice on the error
    stream. *)
Theorem Logger_log_write_failure :
  forall level message meta w,
    printableMeta meta = true ->
    (canWrite "logs/app.log" (disk w) = false ->
     Logger_log level message meta w
     = (inr tt,
        {| disk := disk w;
           stdout := (stdout w ++ [logLine level message meta (clock w)])%list;
           stderr := (stderr w ++ [("Failed to write to log file:",
                                    Thrown "cannot write logs/app.log")])%list;
           clock := S (clock w) |}))
    /\ (canWrite "logs/app.log" (disk w) = true ->
        canWrite "logs/error.log" (disk w) = false ->
        exists w',
          Logger_log "error" message meta w = (inr tt, w')
          /\ stdout w' = (stdout w ++ [logLine "error" message meta (clock w)])%list
          /\ stderr w' = (stderr w ++ [("Failed to write to log file:",
                                        Thrown "cannot write logs/error.log")])%list
          /\ contentOf "logs/app.log" (disk w')
             = contentOf "logs/app.log" (disk w)
               ++ logLine "error" message meta (clock w) ++ nl
          /\ readFile "logs/error.log" (disk w') = readFile "logs/error.log" (disk w)).
Proof.
  intros level message meta w Hmeta. split.
  - intros Happ. rewrite (Logger_log_unfold _ _ _ _ Hmeta).
    unfold appendFileSync. now rewrite Happ.
  - intros Happ Herr. rewrite (Logger_log_unfold _ _ _ _ Hmeta).
    unfold appendFileSync at 1.
    rewrite Happ. cbn [String.eqb Ascii.eqb Bool.eqb andb].
    unfold appendFileSync. rewrite canWrite_appendTo, Herr.
    eexists. split; [ reflexivity | ]. cbn [disk stdout stderr].
    split; [ reflexivity | ]. split; [ reflexivity | ].
    split; [ apply contentOf_appendTo_same | ].
    now apply readFile_appendTo_other.
Qed.

Lemma Logger_log_grows level message meta w :
  printableMeta meta = true ->
  exists w',
    Logger_log level message meta w = (inr tt, w')
    /\ stdout w' = (stdout w ++ [logLine level message meta (clock w)])%list
    /\ clock w' = S (clock w)
    /\ (exists added,
          contentOf "logs/app.log" (disk w') = contentOf "logs/app.log" (disk w) ++ added)
    /\ (exists added,
          contentOf "logs/error.log" (disk w')
          = contentOf "logs/error.log" (disk w) ++ added)
    /\ (forall path,
          path <> "logs/app.log" -> path <> "logs/error.log" ->
          readFile path (disk w') = readFile path (disk w)).
Proof.
  intros Hmeta. rewrite (Logger_log_unfold _ _ _ _ Hmeta). unfold appendFileSync at 1.
  destruct (canWrite "logs/app.log" (disk w)).
  - destruct (String.eqb level "error").
    + unfold appendFileSync. rewrite canWrite_appendTo.
      destruct (canWrite "logs/error.log" (disk w));
        (eexists; split; [ reflexivity | ]); cbn [disk stdout clock];
        (split; [ reflexivity | ]); (split; [ reflexivity | ]).
      * split; [ | split ].
        -- eexists. rewrite contentOf_appendTo_other by discriminate.
           apply contentOf_appendTo_same.
        -- eexists. rewrite contentOf_appendTo_same.
           now rewrite contentOf_appendTo_other by discriminate.
        -- intros path Hna Hne. rewrite readFile_appendTo_other by exact Hne.
           now rewrite readFile_appendTo_other.
      * split; [ | split ].
        -- eexists. apply contentOf_appendTo_same.
        -- exists "". rewrite append_nil_r.
           now rewrite contentOf_appendTo_other by discriminate.
        -- intros path Hna Hne. now rewrite readFile_appendTo_other.
    + eexists. split; [ reflexivity | ]. cbn [disk stdout clock].
      split; [ reflexivity | ]. split; [ reflexivity | ].
      split; [ | split ].
      * eexists. apply contentOf_appendTo_same.
      * exists "". rewrite append_nil_r.
        now rewrite contentOf_appendTo_other by discriminate.
      * intros path Hna Hne. now rewrite readFile_appendTo_other.
  - eexists. split; [ reflexivity | ]. cbn [disk stdout clock].
    split; [ reflexivity | ]. split; [ reflexivity | ].
    split; [ | split ].
    + exists "". now rewrite append_nil_r.
    + exists "". now rewrite append_nil_r.
    + reflexivity.
Qed.

(** What the service's [logger.error] does with a caught value is what
    the logger does with it as its meta argument: it throws the same
    [TypeError], or it returns. *)
Lemma logger_raises_agrees text caught w :
  match logger_raises caught with
  | Some raised => exists w', Logger_error text (metaOf caught) w = (inl raised, w')
  | None => exists w', Logger_error text (metaOf caught) w = (inr tt, w')
  end.
Proof.
  destruct caught as [what|what| |what]; cbn [logger_raises metaOf].
  - destruct (Logger_log_grows "error" text (MetaObject []) w eq_refl) as [w' [Hrun _]].
    exists w'. exact Hrun.
  - destruct (Logger_log_grows "error" text (MetaObject []) w eq_refl) as [w' [Hrun _]].
    exists w'. exact Hrun.
  - eexists. reflexivity.
  - eexists. reflexivity.
Qed.

(** X18.  Whatever the state of the file system, a series of calls of
    the logger with meta objects it can format never throws; the console
    shows the line of every call, in order; the two log files keep what
    they held and only grow; and no other file is touched.  A call with a
    meta object the logger cannot format (null, or one JSON.stringify
    rejects) throws a TypeError, and nothing is printed or written. *)
Theorem Logger_calls_never_throw :
  (forall calls w,
     forallb (fun call => printableMeta (snd call)) calls = true ->
     exists w',
       Logger_calls calls w = (inr tt, w')
       /\ stdout w' = (stdout w ++ linesFrom (clock w) calls)%list
       /\ (exists added,
             contentOf "logs/app.log" (disk w')
             = contentOf "logs/app.log" (disk w) ++ added)
       /\ (exists added,
             contentOf "logs/error.log" (disk w')
             = contentOf "logs/error.log" (disk w) ++ added)
       /\ (forall path,
             path <> "logs/app.log" -> path <> "logs/error.log" ->
             readFile path (disk w') = readFile path (disk w)))
  /\ (forall level message meta w,
        printableMeta meta = false ->
        exists what w',
          Logger_log level message meta w = (inl (TypeError what), w')
          /\ stdout w' = stdout w /\ stderr w' = stderr w /\ disk w' = disk w).
Proof.
  split.
  - induction calls as [|[[level message] meta] rest IH]; intros w Hmetas.
    + exists w. cbn [Logger_calls linesFrom]. unfold wret. rewrite app_nil_r.
      split; [ reflexivity | ]. split; [ reflexivity | ].
      split; [ exists ""; now rewrite append_nil_r | ].
      split; [ exists ""; now rewrite append_nil_r | reflexivity ].
    + cbn [forallb snd] in Hmetas. apply andb_true_iff in Hmetas.
      destruct Hmetas as [Hmeta Hmetas].
      destruct (Logger_log_grows level message meta w Hmeta)
        as [w1 [Hrun1 [Hout1 [Hclock1 [[a1 Ha1] [[e1 He1] Hother1]]]]]].
      destruct (IH w1 Hmetas) as [w' [Hrun [Hout [[a2 Ha2] [[e2 He2] Hother]]]]].
      exists w'. cbn [Logger_calls linesFrom]. unfold wbind. rewrite Hrun1.
      split; [ exact Hrun | ].
      split; [ now rewrite Hout, Hout1, Hclock1, <- app_assoc | ].
      split; [ exists (a1 ++ a2); now rewrite Ha2, Ha1, append_assoc | ].
      split; [ exists (e1 ++ e2); now rewrite He2, He1, append_assoc | ].
      intros path Hna Hne. now rewrite (Hother path Hna Hne), (Hother1 path Hna Hne).
  - intros level message meta w Hmeta.
    destruct (Logger_log_unprintable level message meta w Hmeta) as [what Hrun].
    exists what. eexists. split; [ exact Hrun | ]. repeat split.
Qed.

(** X19.  The constructor of the logger creates the directory logs when
    nothing of that name exists and leaves the files as they are; it
    throws only when the directory has to be created and cannot be, and
    then changes nothing.  Once it has returned, a second run changes
    nothing; and the log files can be written unless the system refuses
    them or logs is a file and no directory. *)
Theorem Logger_constructor_ensures_directory :
  forall w,
    (forall w',
       Logger_constructor w = (inr tt, w') ->
       existsSync "logs" (disk w') = true
       /\ files (disk w') = files (disk w)
       /\ stdout w' = stdout w /\ stderr w' = stderr w
       /\ Logger_constructor w' = (inr tt, w')
       /\ (forall path,
             dirname path = "logs" ->
             existsb (String.eqb path) (unwritable (disk w)) = false ->
             existsb (fun file => String.eqb (fst file) "logs") (files (disk w)) = false ->
             canWrite path (disk w') = true))
    /\ (forall e w',
          Logger_constructor w = (inl e, w') ->
          w' = w /\ existsSync "logs" (disk w) = false
          /\ existsb (String.eqb "logs") (unwritable (disk w)) = true).
Proof.
  intros w. unfold Logger_constructor.
  destruct (existsSync "logs" (disk w)) eqn:Eex; cbn [negb].
  - split.
    + unfold wret. intros w' E. inversion E; subst w'.
      rewrite Eex. cbn [negb]. repeat split.
      intros path Hdir Hok Hnofile. unfold canWrite. rewrite Hok, Hdir. cbn [negb andb].
      unfold existsSync in Eex. rewrite Hnofile, orb_false_r in Eex.
      rewrite Eex. apply orb_true_r.
    + unfold wret. intros e w' E. discriminate.
  - unfold onDisk, mkdirSync.
    destruct (existsb (String.eqb "logs") (unwritable (disk w))) eqn:Eun.
    + split; [ intros w' E; discriminate | ].
      intros e w' E. inversion E; subst. repeat split.
    + split; [ | intros e w' E; discriminate ].
      intros w' E. inversion E; subst w'. cbn [disk stdout stderr files].
      assert (Hex : existsSync "logs"
                      {| directories := "logs" :: directories (disk w);
                         files := files (disk w);
                         unwritable := unwritable (disk w) |} = true) by reflexivity.
      rewrite Hex. cbn [negb]. unfold wret. repeat split.
      intros path Hdir Hok _. unfold canWrite. cbn [unwritable directories].
      rewrite Hok, Hdir. reflexivity.
Qed.

(** ** The server *)

Lemma AIService_processMessage_returns req t :
  exists resp evs t', AIService_processMessage req t = (inr resp, evs, t').
Proof. apply processMessage_returns. Qed.

Lemma emissions_app evs1 evs2 :
  emissions (evs1 ++ evs2) = (emissions evs1 ++ emissions evs2)%list.
Proof.
  induction evs1 as [|[e|target eventName payload] evs1 IH]; cbn [app emissions].
  - reflexivity.
  - exact IH.
  - now rewrite IH.
Qed.

Lemma emissions_InService evs : emissions (map InService evs) = [].
Proof. induction evs as [|e evs IH]; [ reflexivity | exact IH ]. Qed.

(** X20.  The handler of chat_message never lets an exception escape
    and emits exactly one event for each message it receives.  When the
    data or the message in it is undefined or null, the service is not
    called: the error is logged and an error event with the text of the
    exception goes to the sender alone.  In every other case, also when
    the message is no string, the service is called once and its response
    is broadcast as ai_response to the room named by the session of the
    request; no error event is emitted. *)
Theorem on_chat_message_answers_once :
  forall data t,
    (exists evs t' emitted,
       on_chat_message data t = (inr tt, evs, t') /\ emissions evs = [emitted])
    /\ (data = DataNullish
        \/ (exists sessionId userId, data = DataObject MsgNullish sessionId userId) ->
        exists what,
          on_chat_message data t
          = (inr tt,
             [ InService (Logged "error" "Error processing message:");
               Emitted ToSender "error" (ErrorPayload "Failed to process message" what) ],
             t))
    /\ (forall message sessionId userId,
          data = DataObject message sessionId userId ->
          message <> MsgNullish ->
          exists resp evs t',
            AIService_processMessage
              {| req_message := message; req_sessionId := sessionId; req_userId := userId |} t
            = (inr resp, evs, t')
            /\ on_chat_message data t
               = (inr tt,
                  (InService (Logged "info" "Processing chat message")
                   :: map InService evs
                   ++ [ Emitted (ToRoom sessionId) "ai_response" (AiResponse resp);
                        InService (Logged "info" "AI response sent") ])%list,
                  t')).
Proof.
  intros data t.
  assert (Hnull : data = DataNullish
                  \/ (exists sessionId userId, data = DataObject MsgNullish sessionId userId) ->
                  exists what,
                    on_chat_message data t
                    = (inr tt,
                       [ InService (Logged "error" "Error processing message:");
                         Emitted ToSender "error"
                           (ErrorPayload "Failed to process message" what) ],
                       t)).
  { intros [->|[sessionId [userId ->]]]; eexists; reflexivity. }
  assert (Hcall : forall message sessionId userId,
             data = DataObject message sessionId userId ->
             message <> MsgNullish ->
             exists resp evs t',
               AIService_processMessage
                 {| req_message := message; req_sessionId := sessionId;
                    req_userId := userId |} t
               = (inr resp, evs, t')
               /\ on_chat_message data t
                  = (inr tt,
                     (InService (Logged "info" "Processing chat message")
                      :: map InService evs
                      ++ [ Emitted (ToRoom sessionId) "ai_response" (AiResponse resp);
                           InService (Logged "info" "AI response sent") ])%list,
                     t')).
  { intros message session user -> Hmsg.
    destruct (AIService_processMessage_returns
                {| req_message := message; req_sessionId := session;
                   req_userId := user |} t) as [resp [evs [t' Hrun]]].
    exists resp, evs, t'. split; [ exact Hrun | ].
    unfold on_chat_message, stry, sbind, destructure, sret, lift, semit.
    cbn [req_message req_sessionId].
    destruct message as [text| |]; [ | contradiction | ];
      cbn [readLength]; unfold ret, logger_info, emit; cbn [map app];
      rewrite Hrun; destruct resp;
      cbn [response sessionId timestamp toolsUsed propertyData executionTime map app];
      rewrite ?app_nil_r; reflexivity. }
  split; [ | split; [ exact Hnull | exact Hcall ] ].
  destruct data as [|message sessionId userId].
  - destruct (Hnull (or_introl eq_refl)) as [what Hrun].
    rewrite Hrun. eexists. eexists. eexists. split; reflexivity.
  - destruct message as [text| |].
    + destruct (Hcall (MsgString text) sessionId userId eq_refl ltac:(discriminate))
        as [resp [evs [t' [_ Hrun]]]].
      rewrite Hrun. eexists. eexists. eexists. split; [ reflexivity | ].
      cbn [emissions]. rewrite emissions_app, emissions_InService. reflexivity.
    + destruct (Hnull (or_intror (ex_intro _ sessionId (ex_intro _ userId eq_refl))))
        as [what Hrun].
      rewrite Hrun. eexists. eexists. eexists. split; reflexivity.
    + destruct (Hcall MsgOther sessionId userId eq_refl ltac:(discriminate))
        as [resp [evs [t' [_ Hrun]]]].
      rewrite Hrun. eexists. eexists. eexists. split; [ reflexivity | ].
      cbn [emissions]. rewrite emissions_app, emissions_InService. reflexivity.
Qed.

(** X21.  The catalog of tools the server publishes is the registry of
    the service: the same ten names in the order the constructor declares
    them, with the count it states; so every tool the classifier can
    select is in the catalog. *)
Theorem availableTools_is_the_registry :
  availableTools = map fst AIService_mcpTools
  /\ availableTools_totalCount = List.length AIService_mcpTools
  /\ NoDup availableTools
  /\ forall message name,
       In name (determineRequiredTools message) -> In name availableTools.
Proof.
  split; [ reflexivity | ]. split; [ reflexivity | ].
  split; [ repeat constructor; cbn [In]; intuition discriminate | ].
  intros message name Hin.
  rewrite determineRequiredTools_filter in Hin.
  apply in_map_iff in Hin. destruct Hin as [[name' keywords] [Hname Hsel]].
  cbn [fst] in Hname. subst name'.
  apply filter_In in Hsel. destruct Hsel as [Hsel _].
  cbn [classifierKeywords In] in Hsel.
  repeat (destruct Hsel as [Hsel|Hsel];
          [ inversion Hsel; subst; cbn [availableTools In]; tauto | ]).
  contradiction.
Qed.

(** ** The property data *)

(** X22.  extractPropertyData keeps the entries of the property search,
    the property details and the mortgage calculator, as they are, an
    error record included, and nothing else: it is null exactly when none
    of the three is there, and an entry under any other name does not
    change it. *)
Theorem extractPropertyData_projects :
  forall toolResults,
    (extractPropertyData toolResults = None <->
     lookup "searchPropertyInfo" toolResults = None
     /\ lookup "getPropertyDetails" toolResults = None
     /\ lookup "calculateMortgage" toolResults = None)
    /\ (forall pd,
          extractPropertyData toolResults = Some pd ->
          searchResults pd = lookup "searchPropertyInfo" toolResults
          /\ propertyDetails pd = lookup "getPropertyDetails" toolResults
          /\ mortgageCalculation pd = lookup "calculateMortgage" toolResults)
    /\ (forall e,
          lookup "calculateMortgage" toolResults = Some (RError e) ->
          exists pd,
            extractPropertyData toolResults = Some pd
            /\ mortgageCalculation pd = Some (RError e))
    /\ (forall name result,
          name <> "searchPropertyInfo" -> name <> "getPropertyDetails" ->
          name <> "calculateMortgage" ->
          extractPropertyData (assign name result toolResults)
          = extractPropertyData toolResults).
Proof.
  intros toolResults. unfold extractPropertyData.
  cbn [searchResults propertyDetails mortgageCalculation].
  split; [ | split; [ | split ] ].
  - destruct (lookup "searchPropertyInfo" toolResults),
      (lookup "getPropertyDetails" toolResults),
      (lookup "calculateMortgage" toolResults);
      split; try discriminate; try tauto;
      intros [H1 [H2 H3]]; discriminate.
  - intros pd.
    destruct (lookup "searchPropertyInfo" toolResults),
      (lookup "getPropertyDetails" toolResults),
      (lookup "calculateMortgage" toolResults);
      intros E; inversion E; repeat split.
  - intros e ->.
    destruct (lookup "searchPropertyInfo" toolResults),
      (lookup "getPropertyDetails" toolResults);
      eexists; split; reflexivity.
  - intros name result Hs Hd Hm.
    now rewrite !lookup_assign_other by assumption.
Qed.

(** ** The financial calculator *)

(** X23.  The financial calculator does not guard its divisions: on an
    ASCII message with the keyword roi and a first number zero it returns
    no error record but a percentage that is Infinity, or NaN when the
    second number is zero too; and so it does with the keyword cap rate
    (roi being absent) and a second number zero. *)
Theorem getFinancialCalculator_divides_by_zero :
  forall message first second rest,
    asciiText message = true ->
    extractNumbers message = first :: second :: rest ->
    (first = 0%num -> occurs "roi" (toLowerCase message) ->
     getFinancialCalculator message
     = RRoi first second (if truthy second then Infinity else NaN))
    /\ (second = 0%num -> ~ occurs "roi" (toLowerCase message) ->
        occurs "cap rate" (toLowerCase message) ->
        getFinancialCalculator message
        = RCapRate first second (if truthy first then Infinity else NaN)).
Proof.
  intros message first second rest _ E.
  assert (Hnn : Forall (fun n => nonneg n = true) (first :: second :: rest))
    by (rewrite <- E; apply extractNumbers_nonneg).
  inversion Hnn as [|x l Hfirst Hnn']; subst.
  inversion Hnn' as [|x l Hsecond _]; subst.
  unfold getFinancialCalculator. rewrite E. cbn [List.length Nat.leb idx nth].
  split.
  - intros -> Hroi. apply includes_spec in Hroi. rewrite Hroi. cbn [andb].
    f_equal.
    destruct second as [[]|[]| |[] m e]; try discriminate; reflexivity.
  - intros -> Hnoroi Hcap. apply includes_false in Hnoroi. apply includes_spec in Hcap.
    rewrite Hnoroi, Hcap. cbn [andb].
    f_equal.
    destruct first as [[]|[]| |[] m e]; try discriminate; reflexivity.
Qed.

(** ** The trace of the service *)





(** X25.  The templated reply after a failure of the completion that the
    logger prints, when the mortgage calculator left a quote: after the
    first line come the price and the down payment, the
    monthly payment and the total interest of the quote, each as
    toLocaleString renders it, then the search count and the rate where
    there are such entries, then the closing question; the total cost and
    the rate of the quote are not mentioned. *)
Theorem fallback_reply_with_mortgage :
  forall message toolResults error t calc q,
    openai_complete (buildMessages message toolResults) = inl error ->
    loggable error = true ->
    lookup "calculateMortgage" toolResults = Some calc ->
    has_error calc = false ->
    get_quote calc = Some q ->
    generateAIResponse message toolResults t
    = (inr ("Based on the available data:" ++ nl ++ nl
            ++ "For a $" ++ toLocaleString (propertyPrice q)
            ++ " property with $" ++ toLocaleString (downPayment q)
            ++ " down payment:" ++ nl
            ++ "- Monthly payment: $" ++ toLocaleString (monthlyPayment q) ++ nl
            ++ "- Total interest: $" ++ toLocaleString (totalInterest q) ++ nl ++ nl
            ++ match lookup "searchPropertyInfo" toolResults with
               | Some r => "Found " ++ interpolate (get_totalResults r)
                           ++ " properties matching your criteria." ++ nl ++ nl
               | None => ""
               end
            ++ match lookup "getInterestRates" toolResults with
               | Some r => "Current interest rates: " ++ interpolate (get_currentRate r)
                           ++ "%" ++ nl ++ nl
               | None => ""
               end
            ++ "How else can I help you with your real estate needs?"),
       [ CompletionRequested (buildMessages message toolResults);
         Logged "error" "Error generating AI response:" ],
       t).
Proof.
  intros message toolResults error t calc q Hfail Hlog Hl Hok Hq.
  unfold generateAIResponse, try_catch, request_completion. rewrite Hfail.
  unfold bind at 1. rewrite (logger_error_loggable _ _ _ Hlog). unfold fallbackResponse.
  assert (Hlen : (0 <? List.length toolResults)%nat = true)
    by (destruct toolResults; [ discriminate | reflexivity ]).
  rewrite Hlen, Hl, Hok, Hq.
  cbn [negb option_map call_toLocaleString]. unfold bind, ret. cbn [app].
  f_equal. f_equal. f_equal.
  destruct (lookup "searchPropertyInfo" toolResults);
    destruct (lookup "getInterestRates" toolResults);
    rewrite ?append_assoc; cbn [append]; rewrite ?append_assoc; reflexivity.
Qed.

End Service.

(* ================================================================== *)
(** * The properties on concrete runs *)
(* ================================================================== *)

Lemma Math_pow_nearest_at_default_rate :
  Math_pow_nearest (1 + 7.2 / 100 / 12) 360 = S754_finite false 4850012374763297 (-49).
Proof. exact pow_nearest_at_default_rate. Qed.

(** On "What is the mortgage rate?" the classifier answers
    calculateMortgage, getInterestRates, whereas the registry declares
    getInterestRates before calculateMortgage. *)
Lemma determineRequiredTools_not_in_registry_order :
  determineRequiredTools "What is the mortgage rate?"
  = ["calculateMortgage"; "getInterestRates"]
  /\ inRegistryOrder (determineRequiredTools "What is the mortgage rate?")
     = ["getInterestRates"; "calculateMortgage"]
  /\ determineRequiredTools "What is the mortgage rate?"
     <> inRegistryOrder (determineRequiredTools "What is the mortgage rate?").
Proof.
  split; [ vm_compute; reflexivity | split; [ vm_compute; reflexivity | ] ].
  vm_compute. discriminate.
Qed.

(** The example of the specification comes out at 2443.64 a month, 0.26
    away from 2443.90; a third number 0 is not taken as the rate; and the
    loan amount is not rounded to cents. *)
Lemma calculateMortgage_example_figure :
  (exists q,
     calculateMortgage Math_pow_nearest "$450,000 with $90,000 down" = RMortgage q
     /\ loanAmount q = 360000%num
     /\ monthlyPayment q = 2443.64%num
     /\ (5 # 100 < Qabs (Qval (monthlyPayment q) - (244390 # 100)))%Q)
  /\ (exists q,
        calculateMortgage Math_pow_nearest "100 50 0" = RMortgage q
        /\ extractNumbers "100 50 0" = [100%num; 50%num; 0%num]
        /\ statedRate [0%num] = 0%num
        /\ interestRate q = 7.2%num
        /\ interestRate q <> statedRate [0%num])
  /\ (exists q,
        calculateMortgage Math_pow_nearest "100.555 0" = RMortgage q
        /\ loanAmount q = 100.555%num
        /\ round2 (loanAmount q) = 100.56%num
        /\ round2 (loanAmount q) <> loanAmount q).
Proof.
  split; [ | split ].
  - assert (E : extractNumbers "$450,000 with $90,000 down" = [450000%num; 90000%num])
      by (vm_compute; reflexivity).
    eexists. split; [ exact (calculateMortgage_quote Math_pow_nearest _ _ _ _ E) | ].
    unfold quoteFor, amortizedPayment.
    cbn [loanAmount monthlyPayment rateOf].
    assert (Er : SFeqb (7.2 / 100 / 12)%num 0%num = false) by (vm_compute; reflexivity).
    rewrite Er, Math_pow_nearest_at_default_rate.
    split; [ vm_compute; reflexivity | ].
    assert (Em : round2 ((450000 - 90000)
                         * (7.2 / 100 / 12 * S754_finite false 4850012374763297 (-49))
                         / (S754_finite false 4850012374763297 (-49) - 1)) = 2443.64%num)
      by (vm_compute; reflexivity).
    rewrite Em. split; [ reflexivity | ].
    vm_compute. reflexivity.
  - assert (E : extractNumbers "100 50 0" = [100%num; 50%num; 0%num])
      by (vm_compute; reflexivity).
    eexists. split; [ exact (calculateMortgage_quote Math_pow_nearest _ _ _ _ E) | ].
    cbn [quoteFor interestRate rateOf statedRate].
    split; [ exact E | ]. split; [ reflexivity | ]. split; [ reflexivity | ].
    discriminate.
  - assert (E : extractNumbers "100.555 0" = [100.555%num; 0%num])
      by (vm_compute; reflexivity).
    eexists. split; [ exact (calculateMortgage_quote Math_pow_nearest _ _ _ _ E) | ].
    cbn [quoteFor loanAmount].
    split; [ vm_compute; reflexivity | ]. split; [ vm_compute; reflexivity | ].
    vm_compute. discriminate.
Qed.

(** A rate of 1e-323 percent is positive, a twelve-hundredth of it is
    zero, and the payment is the loan divided by 360. *)
Lemma calculateMortgage_zero_rate_branch_reached :
  exists q,
    calculateMortgage Math_pow_nearest underflowMessage = RMortgage q
    /\ nth_error (extractNumbers underflowMessage) 2 = Some (S754_finite false 2 (-1074))
    /\ interestRate q = S754_finite false 2 (-1074)
    /\ (0 <? interestRate q)%num = true
    /\ (monthlyRateOf (interestRate q) >? 0)%num = false
    /\ loanAmount q = 360%num
    /\ monthlyPayment q = round2 (loanAmount q / 360)
    /\ monthlyPayment q = 1%num.
Proof.
  eexists. split; [ vm_compute; reflexivity | ].
  repeat split.
Qed.

Lemma brokenRegistry_rejectsPrintably :
  forall name tool, getTool brokenRegistry name = Some tool -> rejectsPrintably tool.
Proof.
  intros name tool Hg. cbn [brokenRegistry getTool] in Hg.
  destruct (String.eqb "calculateMortgage" name).
  - inversion Hg; subst tool. intros message ctx t error t1 Hthrow.
    inversion Hthrow. reflexivity.
  - destruct (String.eqb "getInterestRates" name); [ | discriminate ].
    inversion Hg; subst tool. intros message ctx t error t1 Hthrow. discriminate.
Defined.



Lemma hello_is_irrelevant :
  forall keyword, In keyword propertyKeywords -> ~ occurs keyword (toLowerCase "Hello there!").
Proof.
  intros keyword Hin Hocc. apply includes_spec in Hocc.
  cbn [propertyKeywords In] in Hin.
  repeat (destruct Hin as [<-|Hin]; [ vm_compute in Hocc; discriminate | ]).
  contradiction.
Defined.

(** "Hello there!" has no real-estate keyword: the gate sends the redirect
    text, and nothing else happens. *)
Lemma irrelevant_message_short_circuits_witness :
  exists resp evs t',
    AIService_processMessage Math_pow_nearest toFixed2 toFixed2 sampleStringify
      endpointUp sampleDateNow sampleISOString
      {| req_message := MsgString "Hello there!"; req_sessionId := "s1"; req_userId := "u1" |}
      0
    = (inr resp, evs, t')
    /\ response resp = Some redirectText
    /\ toolsUsed resp = ["validatePromptRelevance"]
    /\ propertyData resp = None
    /\ sessionId resp = "s1"
    /\ evs = [Logged "info" "Processing message"]
    /\ invocations evs = []
    /\ completionRequests evs = 0%nat.
Proof.
  exact (irrelevant_message_short_circuits toFixed2 toFixed2 sampleStringify endpointUp
           sampleDateNow sampleISOString
           (AIService_mcpTools Math_pow_nearest sampleISOString)
           {| req_message := MsgString "Hello there!";
              req_sessionId := "s1"; req_userId := "u1" |}
           "Hello there!" 0%nat eq_refl eq_refl hello_is_irrelevant).
Defined.

(** With the correctly rounded power, the example of the specification. *)
Lemma calculateMortgage_amortization_witness :
  exists q,
    calculateMortgage Math_pow_nearest "$450,000 with $90,000 down" = RMortgage q
    /\ propertyPrice q = 450000%num
    /\ downPayment q = 90000%num
    /\ interestRate q = 7.2%num
    /\ loanAmount q = 360000%num
    /\ monthlyPayment q = 2443.64%num
    /\ (Qabs (Qval (monthlyPayment q) - amortizationQ 360000 (6 # 1000) 360)
        <= 5 # 100)%Q.
Proof.
  apply (proj2 (calculateMortgage_amortization Math_pow_nearest)).
  left. reflexivity.
Defined.

Lemma two_numbers_in_example :
  (2 <= List.length (extractNumbers "Calculate mortgage for $450,000 with $90,000 down payment"))%nat.
Proof. apply Nat.leb_le. vm_compute. reflexivity. Defined.

Lemma two_numbers_in_small_deposit :
  (2 <= List.length (extractNumbers "$450,000 with $45,000 down"))%nat.
Proof. apply Nat.leb_le. vm_compute. reflexivity. Defined.

(** 90000 down on 450000 is 20 percent: no PMI; 45000 down is 10 percent:
    a PMI of half a percent of the loan a year. *)
Lemma advanced_mortgage_pmi_witness :
  (exists q adv,
     calculateMortgageAdvanced Math_pow_nearest
       "Calculate mortgage for $450,000 with $90,000 down payment"
     = RMortgageAdvanced q adv
     /\ downPaymentPercent adv = round2 (downPayment q / propertyPrice q * 100)
     /\ monthlyPmi adv = 0%num)
  /\ (exists q adv,
        calculateMortgageAdvanced Math_pow_nearest "$450,000 with $45,000 down"
        = RMortgageAdvanced q adv
        /\ downPaymentPercent adv = round2 (downPayment q / propertyPrice q * 100)
        /\ monthlyPmi adv = round2 (loanAmount q * 0.5 / 100 / 12)).
Proof.
  split.
  - destruct (advanced_mortgage_pmi Math_pow_nearest
                "Calculate mortgage for $450,000 with $90,000 down payment"
                two_numbers_in_example)
      as [q [adv [_ [Hadv [Hp [Hd [_ [Hpercent [_ [Hge _]]]]]]]]]].
    exists q, adv. split; [ exact Hadv | ]. split; [ exact Hpercent | ].
    apply Hge. rewrite Hp, Hd. vm_compute. reflexivity.
  - destruct (advanced_mortgage_pmi Math_pow_nearest "$450,000 with $45,000 down"
                two_numbers_in_small_deposit)
      as [q [adv [_ [Hadv [Hp [Hd [_ [Hpercent [_ [_ Hlt]]]]]]]]]].
    exists q, adv. split; [ exact Hadv | ]. split; [ exact Hpercent | ].
    apply Hlt. rewrite Hp, Hd. vm_compute. reflexivity.
Defined.

(** The two sample questions of the README. *)
Lemma getFinancialCalculator_dispatch_witness :
  getFinancialCalculator "Calculate ROI for $100,000 investment with $8,000 annual return"
  = RRoi 100000 8000 (round2 (8000 / 100000 * 100))
  /\ getFinancialCalculator
       "What's the cap rate for property earning $50,000 annually worth $600,000?"
     = RCapRate 50000 600000 (round2 (50000 / 600000 * 100))
  /\ getFinancialCalculator "What is the ROI of this house?"
     = RError "Please specify calculation type (ROI or Cap Rate) with required numbers".
Proof.
  split; [ | split ].
  - apply (proj1 (proj1 getFinancialCalculator_dispatch
                    "Calculate ROI for $100,000 investment with $8,000 annual return"
                    100000%num 8000%num [] eq_refl ltac:(vm_compute; reflexivity))).
    apply includes_spec. vm_compute. reflexivity.
  - apply (proj2 (proj1 getFinancialCalculator_dispatch
                    "What's the cap rate for property earning $50,000 annually worth $600,000?"
                    50000%num 600000%num [] eq_refl ltac:(vm_compute; reflexivity))).
    + intros H. apply includes_spec in H. vm_compute in H. discriminate.
    + apply includes_spec. vm_compute. reflexivity.
  - apply (proj1 (proj2 (proj2 getFinancialCalculator_dispatch))
             "What is the ROI of this house?").
    apply Nat.ltb_lt. vm_compute. reflexivity.
Defined.

(** The classifier on a question about the mortgage rate. *)
Lemma determineRequiredTools_selects_in_classifier_order_witness :
  determineRequiredTools "What is the mortgage rate?"
  = map fst (filter (triggered "What is the mortgage rate?") classifierKeywords)
  /\ (In "getInterestRates" (determineRequiredTools "What is the mortgage rate?") <->
      exists keywords keyword,
        In ("getInterestRates", keywords) classifierKeywords /\ In keyword keywords /\
        occurs keyword (toLowerCase "What is the mortgage rate?")).
Proof.
  destruct (determineRequiredTools_selects_in_classifier_order
              "What is the mortgage rate?" eq_refl) as [Hselected Hwhy].
  exact (conj Hselected (Hwhy "getInterestRates")).
Defined.

(** A question without any number. *)
Lemma calculateMortgage_error_record_witness :
  calculateMortgage Math_pow_nearest "What would my mortgage payment be?"
  = RError "Please provide property price and down payment for mortgage calculation"
  /\ calculateMortgageAdvanced Math_pow_nearest "What would my mortgage payment be?"
     = calculateMortgage Math_pow_nearest "What would my mortgage payment be?".
Proof.
  destruct (calculateMortgage_error_record Math_pow_nearest
              "What would my mortgage payment be?"
              ltac:(apply Nat.ltb_lt; vm_compute; reflexivity))
    as [H1 [H2 _]].
  split; [ exact H1 | exact H2 ].
Defined.

(** A text without a digit. *)
Lemma extractNumbers_reads_decimal_numbers_witness :
  extractNumbers "no numbers here" = [].
Proof.
  apply (proj1 (proj2 extractNumbers_reads_decimal_numbers) "no numbers here").
  vm_compute. reflexivity.
Defined.

(** The endpoint is down and the mortgage result is in: the reply quotes
    the monthly payment as the locale renders it. *)
Lemma fallback_reply_witness :
  exists reply,
    generateAIResponse toLocaleString_enUS toFixed2 sampleStringify endpointDown
      "Calculate mortgage for $450,000 with $90,000 down payment"
      [("calculateMortgage", RMortgage sampleQuote)] 3
    = (inr reply,
       [ CompletionRequested
           (buildMessages sampleStringify
              "Calculate mortgage for $450,000 with $90,000 down payment"
              [("calculateMortgage", RMortgage sampleQuote)]);
         Logged "error" "Error generating AI response:" ],
       3%nat)
    /\ occurs (toLocaleString_enUS (monthlyPayment sampleQuote)) reply.
Proof.
  destruct (proj1 (fallback_reply Math_pow_nearest toLocaleString_enUS toFixed2
                     sampleStringify endpointDown sampleDateNow sampleISOString)
              "Calculate mortgage for $450,000 with $90,000 down payment"
              [("calculateMortgage", RMortgage sampleQuote)]
              (Thrown "503 Service Unavailable") 3%nat eq_refl eq_refl)
    as [reply [Hrun [Hfig _]]].
  - intros calc Hl. right. exists sampleQuote.
    cbn in Hl. inversion Hl. reflexivity.
  - exists reply. split; [ exact Hrun | ].
    apply (proj2 (Hfig (RMortgage sampleQuote) sampleQuote eq_refl eq_refl eq_refl)).
Defined.

(** By the conventions of en-US the monthly payment 2443.64 is in the
    reply as 2,443.64, so that the figure as the result holds it, 2443.64,
    is not in it; and when the call of the endpoint rejects with null, the
    logger throws in the catch and generateAIResponse raises. *)
Lemma fallback_reply_groups_the_figure :
  monthlyPayment sampleQuote = 2443.64%num
  /\ toLocaleString_enUS (monthlyPayment sampleQuote) = "2,443.64"
  /\ (exists reply,
        generateAIResponse toLocaleString_enUS toFixed2 sampleStringify endpointDown
          "Calculate mortgage for $450,000 with $90,000 down payment"
          [("calculateMortgage", RMortgage sampleQuote)] 3
        = (inr reply,
           [ CompletionRequested
               (buildMessages sampleStringify
                  "Calculate mortgage for $450,000 with $90,000 down payment"
                  [("calculateMortgage", RMortgage sampleQuote)]);
             Logged "error" "Error generating AI response:" ],
           3%nat)
        /\ reply
           = "Based on the available data:" ++ nl ++ nl
             ++ "For a $450,000 property with $90,000 down payment:" ++ nl
             ++ "- Monthly payment: $2,443.64" ++ nl
             ++ "- Total interest: $519,709.52" ++ nl ++ nl
             ++ "How else can I help you with your real estate needs?"
        /\ includes reply "2,443.64" = true
        /\ includes reply "2443.64" = false)
  /\ generateAIResponse toLocaleString_enUS toFixed2 sampleStringify endpointNull
       "Calculate mortgage for $450,000 with $90,000 down payment"
       [("calculateMortgage", RMortgage sampleQuote)] 3
     = (inl (TypeError "Cannot convert undefined or null to object"),
        [ CompletionRequested
            (buildMessages sampleStringify
               "Calculate mortgage for $450,000 with $90,000 down payment"
               [("calculateMortgage", RMortgage sampleQuote)]) ],
        3%nat).
Proof.
  split; [ reflexivity | ].
  split; [ vm_compute; reflexivity | ].
  split; [ | reflexivity ].
  eexists. split; [ vm_compute; reflexivity | ].
  split; [ vm_compute; reflexivity | ].
  split; vm_compute; reflexivity.
Qed.

(** A third number 0 gives way to the default rate. *)
Lemma calculateMortgage_rate_positive_witness :
  exists q,
    calculateMortgage Math_pow_nearest "100 50 0" = RMortgage q
    /\ (0 <? interestRate q)%num = true
    /\ interestRate q = 7.2%num.
Proof.
  destruct (calculateMortgage_rate_positive Math_pow_nearest "100 50 0"
              ltac:(apply Nat.leb_le; vm_compute; reflexivity))
    as [_ [q [Hq [Hpos [Hzero _]]]]].
  exists q. split; [ exact Hq | ]. split; [ exact Hpos | ].
  apply Hzero. vm_compute. reflexivity.
Defined.

(** The advanced result reports down/price×100 rounded to two decimals:
    19996 down on 100000 is reported as 20 percent, which is at least 20,
    with a PMI that is not zero, because the test is on the quotient
    before rounding. *)
Remark reported_percent_is_rounded :
  exists q adv,
    calculateMortgageAdvanced Math_pow_nearest "100000 with 19996 down"
    = RMortgageAdvanced q adv
    /\ (downPayment q / propertyPrice q * 100 <? 20)%num = true
    /\ downPaymentPercent adv = 20%num
    /\ (downPaymentPercent adv >=? 20)%num = true
    /\ monthlyPmi adv = 33.34%num
    /\ monthlyPmi adv <> 0%num.
Proof.
  assert (E : extractNumbers "100000 with 19996 down" = [100000%num; 19996%num])
    by (vm_compute; reflexivity).
  eexists. eexists. split.
  - unfold calculateMortgageAdvanced.
    rewrite (calculateMortgage_quote Math_pow_nearest _ _ _ _ E).
    cbn [has_error get_error get_quote]. reflexivity.
  - cbn [quoteFor propertyPrice downPayment loanAmount downPaymentPercent monthlyPmi].
    split; [ vm_compute; reflexivity | ].
    split; [ vm_compute; reflexivity | ].
    split; [ vm_compute; reflexivity | ].
    split; [ vm_compute; reflexivity | ].
    vm_compute. discriminate.
Qed.

(** ** Further properties, on concrete runs *)

Lemma validatePromptRelevance_accepts_on_keyword_witness :
  isValid (validatePromptRelevance "What is the mortgage rate?") = true <->
  exists keyword,
    In keyword propertyKeywords
    /\ occurs keyword (toLowerCase "What is the mortgage rate?").
Proof.
  exact (proj1 (validatePromptRelevance_accepts_on_keyword
                  "What is the mortgage rate?" eq_refl)).
Defined.

Lemma extractLocation_first_listed_witness :
  extractLocation "Is it a good time to buy?" = None <->
  forall l, In l commonLocations -> ~ occurs l (toLowerCase "Is it a good time to buy?").
Proof.
  exact (proj2 (extractLocation_first_listed "Is it a good time to buy?" eq_refl)).
Defined.

Lemma extractNumbers_separator_witness :
  extractNumbers ("$1,250.50" ++ String " " "and 3 more")
  = (extractNumbers "$1,250.50" ++ extractNumbers "and 3 more")%list.
Proof.
  apply extractNumbers_separator; [ reflexivity | discriminate | discriminate ].
Defined.

Lemma extractLocation_stable_witness :
  exists l,
    In l commonLocations
    /\ "New york" = capitalize l
    /\ toLowerCase "New york" = l
    /\ extractLocation "New york" = Some "New york".
Proof.
  apply (extractLocation_stable "Rates in Miami or in New York?" "New york").
  vm_compute. reflexivity.
Defined.

Lemma letter_case_is_ignored_witness :
  validatePromptRelevance "MORTGAGE for $450,000 in Texas"
  = validatePromptRelevance "mortgage for $450,000 in texas"
  /\ determineRequiredTools "MORTGAGE for $450,000 in Texas"
     = determineRequiredTools "mortgage for $450,000 in texas".
Proof.
  destruct (letter_case_is_ignored Math_pow_nearest
              "MORTGAGE for $450,000 in Texas" "mortgage for $450,000 in texas"
              eq_refl eq_refl eq_refl)
    as [Hgate [Htools _]].
  exact (conj Hgate Htools).
Defined.

Lemma advanced_mortgage_addons_witness :
  exists q adv,
    calculateMortgageAdvanced Math_pow_nearest
      "Calculate mortgage for $450,000 with $90,000 down payment"
    = RMortgageAdvanced q adv
    /\ monthlyPropertyTax adv = round2 (propertyPrice q * 1.2 / 100 / 12)
    /\ monthlyInsurance adv = round2 (propertyPrice q * 0.4 / 100 / 12).
Proof.
  destruct (advanced_mortgage_addons Math_pow_nearest
              "Calculate mortgage for $450,000 with $90,000 down payment"
              two_numbers_in_example)
    as [q [adv [_ [Ha [_ [_ [Htax [Hins _]]]]]]]].
  exists q, adv. exact (conj Ha (conj Htax Hins)).
Defined.

Lemma executeTools_entries_in_invocation_order_witness :
  exists toolResults evs t',
    executeTools brokenRegistry (determineRequiredTools "Find me a mortgage rate")
      "Find me a mortgage rate" {| ctx_userId := "u1"; ctx_sessionId := "s1" |} [] 0
    = (inr toolResults, evs, t')
    /\ map fst toolResults
       = filter (registered brokenRegistry) (determineRequiredTools "Find me a mortgage rate")
    /\ lookup "searchPropertyInfo" toolResults = None.
Proof.
  destruct (executeTools_entries_in_invocation_order brokenRegistry
              "Find me a mortgage rate" {| ctx_userId := "u1"; ctx_sessionId := "s1" |} 0
              eq_refl brokenRegistry_rejectsPrintably)
    as [toolResults [evs [t' [Hrun [Hkeys [_ Hskip]]]]]].
  exists toolResults, evs, t'.
  split; [ exact Hrun | ]. split; [ exact Hkeys | ].
  apply Hskip; [ vm_compute; now left | reflexivity ].
Defined.

Lemma fallback_reply_without_mortgage_witness :
  exists reply,
    generateAIResponse toLocaleString_enUS toFixed2 sampleStringify endpointDown
      "Find houses"
      [("searchPropertyInfo", RError "Failed to execute searchPropertyInfo")] 0
    = (inr reply,
       [ CompletionRequested
           (buildMessages sampleStringify "Find houses"
              [("searchPropertyInfo", RError "Failed to execute searchPropertyInfo")]);
         Logged "error" "Error generating AI response:" ],
       0%nat)
    /\ occurs "Found undefined properties matching your criteria." reply.
Proof.
  destruct (fallback_reply_without_mortgage toLocaleString_enUS toFixed2 sampleStringify
              endpointDown "Find houses"
              [("searchPropertyInfo", RError "Failed to execute searchPropertyInfo")]
              (Thrown "503 Service Unavailable") 0 eq_refl eq_refl)
    as [reply [Hrun [_ [_ [Hsearch _]]]]].
  - discriminate.
  - intros calc Hl. discriminate.
  - exists reply. split; [ exact Hrun | ].
    exact (Hsearch "Failed to execute searchPropertyInfo" eq_refl).
Defined.

Lemma processMessage_relays_completion_witness :
  exists resp evs t' toolResults reply,
    AIService_processMessage Math_pow_nearest toLocaleString_enUS toFixed2 sampleStringify
      endpointUp sampleDateNow sampleISOString
      {| req_message := MsgString "Show me the mortgage rate";
         req_sessionId := "s1"; req_userId := "u1" |} 0
    = (inr resp, evs, t')
    /\ endpointUp (buildMessages sampleStringify "Show me the mortgage rate" toolResults)
       = inr reply
    /\ response resp = Some reply
    /\ toolsUsed resp
       = "validatePromptRelevance" :: determineRequiredTools "Show me the mortgage rate"
    /\ invocations evs = determineRequiredTools "Show me the mortgage rate".
Proof.
  destruct (processMessage_relays_completion Math_pow_nearest toLocaleString_enUS toFixed2
              sampleStringify endpointUp sampleDateNow sampleISOString
              {| req_message := MsgString "Show me the mortgage rate";
                 req_sessionId := "s1"; req_userId := "u1" |}
              "Show me the mortgage rate" 0 eq_refl eq_refl)
    as [resp [evs [t' [toolResults [reply [Hrun [Hreply [Hresp [Hused [Hinv _]]]]]]]]]].
  - vm_compute. reflexivity.
  - intros messages. exists "Happy to help.". reflexivity.
  - exists resp, evs, t', toolResults, reply.
    exact (conj Hrun (conj Hreply (conj Hresp (conj Hused Hinv)))).
Defined.

Lemma endpointDown_loggable :
  forall messages error, endpointDown messages = inl error -> loggable error = true.
Proof. intros messages error Hdown. inversion Hdown. reflexivity. Defined.

Lemma AIService_propertyData_witness :
  exists resp evs t' reply,
    AIService_processMessage Math_pow_nearest toLocaleString_enUS toFixed2 sampleStringify
      endpointDown sampleDateNow sampleISOString
      {| req_message := MsgString "What is the interest rate for a home loan?";
         req_sessionId := "s1"; req_userId := "u1" |} 0
    = (inr resp, evs, t')
    /\ response resp = Some reply
    /\ invocations evs = determineRequiredTools "What is the interest rate for a home loan?".
Proof.
  destruct (AIService_propertyData Math_pow_nearest toLocaleString_enUS toFixed2
              sampleStringify endpointDown sampleDateNow sampleISOString
              {| req_message := MsgString "What is the interest rate for a home loan?";
                 req_sessionId := "s1"; req_userId := "u1" |}
              "What is the interest rate for a home loan?" 0 eq_refl eq_refl)
    as [resp [evs [t' [reply [Hrun [Hresp [_ [Hinv _]]]]]]]].
  - vm_compute. reflexivity.
  - exact endpointDown_loggable.
  - exists resp, evs, t', reply. exact (conj Hrun (conj Hresp Hinv)).
Defined.

(** A file system with the directory logs and an older log. *)
Lemma Logger_calls_append_lines_witness :
  exists w',
    Logger_calls sampleISOString (fun _ => "{}")
      [ ("info", "Server started", MetaObject []);
        ("error", "Error in processMessage:", MetaObject []) ]
      {| disk := {| directories := ["logs"];
                    files := [("logs/app.log", "older line" ++ nl)];
                    unwritable := [] |};
         stdout := []; stderr := []; clock := 0 |}
    = (inr tt, w')
    /\ stdout w'
       = [ "2024-03-01T00:00:00.000Z [INFO]: Server started";
           "2024-03-01T00:00:00.000Z [ERROR]: Error in processMessage:" ]
    /\ contentOf "logs/error.log" (disk w')
       = "2024-03-01T00:00:00.000Z [ERROR]: Error in processMessage:" ++ nl.
Proof.
  destruct (Logger_calls_append_lines sampleISOString (fun _ => "{}")
              [ ("info", "Server started", MetaObject []);
        ("error", "Error in processMessage:", MetaObject []) ]
              {| disk := {| directories := ["logs"];
                            files := [("logs/app.log", "older line" ++ nl)];
                            unwritable := [] |};
                 stdout := []; stderr := []; clock := 0 |} eq_refl eq_refl eq_refl)
    as [w' [Hrun [Hout [_ [_ [_ [Herr _]]]]]]].
  exists w'. split; [ exact Hrun | ]. split; [ exact Hout | exact Herr ].
Defined.

(** A file system on which logs/app.log cannot be written. *)
Lemma Logger_log_write_failure_witness :
  Logger_log sampleISOString (fun _ => "{}") "warn" "Disk is full" (MetaObject [])
    {| disk := {| directories := ["logs"]; files := [];
                  unwritable := ["logs/app.log"] |};
       stdout := []; stderr := []; clock := 0 |}
  = (inr tt,
     {| disk := {| directories := ["logs"]; files := [];
                   unwritable := ["logs/app.log"] |};
        stdout := [logLine sampleISOString (fun _ => "{}") "warn" "Disk is full"
                     (MetaObject []) 0];
        stderr := [("Failed to write to log file:", Thrown "cannot write logs/app.log")];
        clock := 1 |}).
Proof.
  exact (proj1 (Logger_log_write_failure sampleISOString (fun _ => "{}")
                  "warn" "Disk is full" (MetaObject [])
                  {| disk := {| directories := ["logs"]; files := [];
                                unwritable := ["logs/app.log"] |};
                     stdout := []; stderr := []; clock := 0 |} eq_refl) eq_refl).
Defined.

Lemma getFinancialCalculator_divides_by_zero_witness :
  getFinancialCalculator "ROI on $0 invested with $500 annual return"
  = RRoi 0 500 Infinity.
Proof.
  refine (proj1 (getFinancialCalculator_divides_by_zero
                   "ROI on $0 invested with $500 annual return" 0 500 [] eq_refl _)
            eq_refl _).
  - vm_compute. reflexivity.
  - apply includes_spec. vm_compute. reflexivity.
Defined.


Lemma fallback_reply_with_mortgage_witness :
  generateAIResponse toLocaleString_enUS toFixed2 sampleStringify endpointDown
    "Calculate mortgage for $450,000 with $90,000 down payment"
    [("calculateMortgage", RMortgage sampleQuote)] 3
  = (inr ("Based on the available data:" ++ nl ++ nl
          ++ "For a $" ++ toLocaleString_enUS 450000
          ++ " property with $" ++ toLocaleString_enUS 90000
          ++ " down payment:" ++ nl
          ++ "- Monthly payment: $" ++ toLocaleString_enUS 2443.64 ++ nl
          ++ "- Total interest: $" ++ toLocaleString_enUS 519709.52 ++ nl ++ nl
          ++ "How else can I help you with your real estate needs?"),
     [ CompletionRequested
         (buildMessages sampleStringify
            "Calculate mortgage for $450,000 with $90,000 down payment"
            [("calculateMortgage", RMortgage sampleQuote)]);
       Logged "error" "Error generating AI response:" ],
     3%nat).
Proof.
  exact (fallback_reply_with_mortgage toLocaleString_enUS toFixed2 sampleStringify
           endpointDown
           "Calculate mortgage for $450,000 with $90,000 down payment"
           [("calculateMortgage", RMortgage sampleQuote)]
           (Thrown "503 Service Unavailable") 3 (RMortgage sampleQuote) sampleQuote
           eq_refl eq_refl eq_refl eq_refl eq_refl).
Defined.
